(** * sc-web bridge: process supervisor and evaluation bridge

    A shallow embedding of [sc-backend/bridge/index.js] (the Node.js
    WebSocket bridge between browser clients and the [sclang]
    interpreter) together with the properties its specification states.

    JavaScript strings are sequences of UTF-16 code units; they are
    modelled as [list N].  The regular expressions of [sanitize] carry
    no [u] flag, so they too work on code units. *)

From Stdlib Require Import String Ascii.
From Stdlib Require Import List Arith NArith ZArith Bool Lia DecimalN.
Import ListNotations.

Local Open Scope N_scope.
Local Open Scope list_scope.
Set Warnings "-register-all".

(* ================================================================== *)
(** * JavaScript strings                                               *)
(* ================================================================== *)

Definition jsstring := list N.

(** An ASCII literal as a JavaScript string. *)
Definition lit (s : string) : jsstring :=
  map N_of_ascii (list_ascii_of_string s).
Arguments lit s%_string.

Fixpoint str_eqb (a b : jsstring) : bool :=
  match a, b with
  | [], [] => true
  | x :: a', y :: b' => (x =? y) && str_eqb a' b'
  | _, _ => false
  end.

(** [s.startsWith(p)] *)
Fixpoint startsWith (s p : jsstring) {struct p} : bool :=
  match p, s with
  | [], _ => true
  | _ :: _, [] => false
  | y :: p', x :: s' => (x =? y) && startsWith s' p'
  end.

(** [s.includes(p)] *)
Fixpoint includes (s p : jsstring) : bool :=
  startsWith s p ||
  match s with
  | [] => false
  | _ :: s' => includes s' p
  end.

(** [s.slice(n)] for [0 <= n]. *)
Definition slice_from (n : nat) (s : jsstring) : jsstring := skipn n s.

(** ECMAScript LineTerminator code units: LF, CR, LS, PS. *)
Definition is_line_terminator (c : N) : bool :=
  (c =? 10) || (c =? 13) || (c =? 8232) || (c =? 8233).

(** ECMAScript WhiteSpace and LineTerminator, the set matched by [\s]
    and removed by [trim], [trimStart] and [trimEnd]. *)
Definition is_space (c : N) : bool :=
  ((9 <=? c) && (c <=? 13)) || (c =? 32) || (c =? 160) || (c =? 5760)
  || ((8192 <=? c) && (c <=? 8202)) || (c =? 8232) || (c =? 8233)
  || (c =? 8239) || (c =? 8287) || (c =? 12288) || (c =? 65279).

Fixpoint drop_spaces (s : jsstring) : jsstring :=
  match s with
  | c :: s' => if is_space c then drop_spaces s' else s
  | [] => []
  end.

Definition trimStart (s : jsstring) : jsstring := drop_spaces s.
Definition trimEnd (s : jsstring) : jsstring := rev (drop_spaces (rev s)).
Definition trim (s : jsstring) : jsstring := trimStart (trimEnd s).

(** Decimal rendering of a non-negative integer, as [String(n)] and
    template literals give it. *)
Fixpoint digits_of_uint (d : Decimal.uint) : jsstring :=
  match d with
  | Decimal.Nil => []
  | Decimal.D0 d => 48 :: digits_of_uint d
  | Decimal.D1 d => 49 :: digits_of_uint d
  | Decimal.D2 d => 50 :: digits_of_uint d
  | Decimal.D3 d => 51 :: digits_of_uint d
  | Decimal.D4 d => 52 :: digits_of_uint d
  | Decimal.D5 d => 53 :: digits_of_uint d
  | Decimal.D6 d => 54 :: digits_of_uint d
  | Decimal.D7 d => 55 :: digits_of_uint d
  | Decimal.D8 d => 56 :: digits_of_uint d
  | Decimal.D9 d => 57 :: digits_of_uint d
  end.

Definition dec (n : N) : jsstring := digits_of_uint (N.to_uint n).

Definition is_digit (c : N) : bool := (48 <=? c) && (c <=? 57).

(** A JavaScript number holding a non-negative integer counts exactly
    up to 2^53; there [x + 1] rounds back to [x]. *)
Definition max_safe : N := 9007199254740992.
Definition js_incr (x : N) : N := if x <? max_safe then x + 1 else x.

(** ** [JSON.stringify] of a string (QuoteJSONString) *)

Definition hex_digit (n : N) : N := if n <? 10 then 48 + n else 87 + n.

Definition unicode_escape (c : N) : jsstring :=
  [92; 117; hex_digit (c / 4096); hex_digit ((c / 256) mod 16);
   hex_digit ((c / 16) mod 16); hex_digit (c mod 16)].

Definition is_lead_surrogate (c : N) : bool := (55296 <=? c) && (c <=? 56319).
Definition is_trail_surrogate (c : N) : bool := (56320 <=? c) && (c <=? 57343).

Definition quote_unit (c : N) : jsstring :=
  if c =? 8 then lit "\b"
  else if c =? 9 then lit "\t"
  else if c =? 10 then lit "\n"
  else if c =? 12 then lit "\f"
  else if c =? 13 then lit "\r"
  else if c =? 34 then [92; 34]
  else if c =? 92 then [92; 92]
  else if c <? 32 then unicode_escape c
  else [c].

Fixpoint quote_body (s : jsstring) : jsstring :=
  match s with
  | [] => []
  | c :: r =>
      if is_lead_surrogate c then
        match r with
        | d :: r' =>
            if is_trail_surrogate d then c :: d :: quote_body r'
            else unicode_escape c ++ quote_body r
        | [] => unicode_escape c
        end
      else if is_trail_surrogate c then unicode_escape c ++ quote_body r
      else quote_unit c ++ quote_body r
  end.

Definition JSON_stringify (s : jsstring) : jsstring :=
  34 :: quote_body s ++ [34].

(* ================================================================== *)
(** * POSIX paths ([require('path')])                                  *)
(* ================================================================== *)

(** [s.split('/')]: always at least one segment. *)
Fixpoint split_slash (s : jsstring) : list jsstring :=
  match s with
  | [] => [[]]
  | c :: r =>
      if c =? 47 then [] :: split_slash r
      else match split_slash r with
           | seg :: segs => (c :: seg) :: segs
           | [] => [[c]]
           end
  end.

(** [segs.join('/')] *)
Fixpoint join_slash (segs : list jsstring) : jsstring :=
  match segs with
  | [] => []
  | [s] => s
  | s :: rest => s ++ 47 :: join_slash rest
  end.

Definition is_dot (seg : jsstring) : bool := str_eqb seg [46].
Definition is_dotdot (seg : jsstring) : bool := str_eqb seg [46; 46].

(** One segment of Node's [normalizeString]; [stack] holds the segments
    kept so far, last one first. *)
Definition norm_step (allowAboveRoot : bool) (stack : list jsstring)
    (seg : jsstring) : list jsstring :=
  match seg with
  | [] => stack
  | _ =>
      if is_dot seg then stack
      else if is_dotdot seg then
        match stack with
        | top :: below =>
            if is_dotdot top
            then (if allowAboveRoot then seg :: stack else stack)
            else below
        | [] => if allowAboveRoot then [seg] else []
        end
      else seg :: stack
  end.

Definition norm_segments (allowAboveRoot : bool) (path : jsstring)
    : list jsstring :=
  rev (fold_left (norm_step allowAboveRoot) (split_slash path) []).

Definition normalizeString (path : jsstring) (allowAboveRoot : bool)
    : jsstring :=
  join_slash (norm_segments allowAboveRoot path).

Definition is_absolute (path : jsstring) : bool :=
  match path with c :: _ => c =? 47 | [] => false end.

Definition ends_with_slash (path : jsstring) : bool :=
  match rev path with c :: _ => c =? 47 | [] => false end.

(** [path.normalize(p)] *)
Definition path_normalize (p : jsstring) : jsstring :=
  match p with
  | [] => [46]
  | _ =>
      let n := normalizeString p (negb (is_absolute p)) in
      match n with
      | [] =>
          if is_absolute p then [47]
          else if ends_with_slash p then [46; 47] else [46]
      | _ =>
          let n' := if ends_with_slash p then n ++ [47] else n in
          if is_absolute p then 47 :: n' else n'
      end
  end.

(** [path.join(a, b)] *)
Definition path_join (a b : jsstring) : jsstring :=
  match a, b with
  | [], [] => [46]
  | [], _ => path_normalize b
  | _, [] => path_normalize a
  | _, _ => path_normalize (a ++ 47 :: b)
  end.

(** [path.resolve(a, b)]; [cwd] is the absolute working directory that
    Node falls back on when neither argument is absolute. *)
Definition path_resolve (cwd a b : jsstring) : jsstring :=
  let r1 := match b with [] => [] | _ => b ++ [47] end in
  let abs1 := is_absolute b in
  let r2 := if abs1 then r1
            else match a with [] => r1 | _ => a ++ 47 :: r1 end in
  let abs2 := abs1 || is_absolute a in
  let r3 := if abs2 then r2 else cwd ++ 47 :: r2 in
  let abs3 := abs2 || is_absolute cwd in
  let n := normalizeString r3 (negb abs3) in
  if abs3 then 47 :: n
  else match n with [] => [46] | _ => n end.

(** The last non-empty segment, which [path.extname] looks at. *)
Definition last_segment (path : jsstring) : jsstring :=
  match filter (fun seg => negb (str_eqb seg [])) (rev (split_slash path)) with
  | seg :: _ => seg
  | [] => []
  end.

(** [ext_rev] scans the reversed base name for its last dot. *)
Fixpoint ext_rev (rb acc : jsstring) : option (jsstring * jsstring) :=
  match rb with
  | [] => None
  | c :: before =>
      if c =? 46 then Some (46 :: acc, before) else ext_rev before (c :: acc)
  end.

(** [path.extname(p)] *)
Definition path_extname (path : jsstring) : jsstring :=
  let b := last_segment path in
  if is_dotdot b then []
  else match ext_rev (rev b) [] with
       | Some (ext, _ :: _) => ext
       | _ => []
       end.

(* ================================================================== *)
(** * The /help file server                                            *)
(* ================================================================== *)

Definition HELP_DIR : jsstring := lit "/usr/local/share/SuperCollider/Help".

(** The [MIME] table; [None] is [undefined]. *)
Definition MIME (ext : jsstring) : option jsstring :=
  if str_eqb ext (lit ".html") then Some (lit "text/html; charset=utf-8")
  else if str_eqb ext (lit ".css") then Some (lit "text/css")
  else if str_eqb ext (lit ".js") then Some (lit "application/javascript")
  else if str_eqb ext (lit ".png") then Some (lit "image/png")
  else if str_eqb ext (lit ".svg") then Some (lit "image/svg+xml")
  else if str_eqb ext (lit ".gif") then Some (lit "image/gif")
  else if str_eqb ext (lit ".ico") then Some (lit "image/x-icon")
  else if str_eqb ext (lit ".json") then Some (lit "application/json")
  else None.

(** The file system as the handler sees it: [fs.existsSync] and the
    outcome of [fs.readFile] ([None] when it reports an error). *)
Record FileSystem := {
  existsSync : jsstring -> bool;
  readFile : jsstring -> option (list N)
}.

Inductive http_body :=
| BodyText (s : jsstring)
| BodyData (d : list N).

Record http_response := {
  statusCode : N;
  contentType : option jsstring;
  body : http_body
}.

(** What one request does: the response it ends with and the path it
    handed to [fs.readFile], if it got that far. *)
Record http_outcome := {
  response : http_response;
  fileRead : option jsstring
}.

Definition not_found : http_response :=
  {| statusCode := 404; contentType := None; body := BodyText (lit "Not found") |}.
Definition forbidden : http_response :=
  {| statusCode := 403; contentType := None; body := BodyText (lit "Forbidden") |}.

(** The loop over the SCDoc entry points. *)
Fixpoint entry_point (fs : FileSystem) (names : list jsstring)
    (rel : jsstring) : jsstring :=
  match names with
  | [] => rel
  | name :: more =>
      if existsSync fs (path_join HELP_DIR name) then 47 :: name
      else entry_point fs more rel
  end.

(** [rel.replace(/^\/+/, '')] *)
Fixpoint strip_leading_slashes (s : jsstring) : jsstring :=
  match s with
  | c :: r => if c =? 47 then strip_leading_slashes r else s
  | [] => []
  end.

Definition help_rel (fs : FileSystem) (url : jsstring) : jsstring :=
  let rel := match slice_from 5 url with [] => [47] | r => r end in
  if str_eqb rel [47]
  then entry_point fs [lit "Help.html"; lit "index.html"] rel
  else rel.

Definition help_filePath (cwd : jsstring) (fs : FileSystem) (url : jsstring)
    : jsstring :=
  path_resolve cwd HELP_DIR (strip_leading_slashes (help_rel fs url)).

Definition inside_help (filePath : jsstring) : bool :=
  startsWith filePath (HELP_DIR ++ [47]) || str_eqb filePath HELP_DIR.

(** The [http.createServer] request handler. *)
Definition help_handler (cwd : jsstring) (fs : FileSystem) (url : jsstring)
    : http_outcome :=
  if negb (startsWith url (lit "/help")) then
    {| response := not_found; fileRead := None |}
  else
    let filePath := help_filePath cwd fs url in
    if negb (inside_help filePath) then
      {| response := forbidden; fileRead := None |}
    else
      let ext := path_extname filePath in
      match readFile fs filePath with
      | None => {| response := not_found; fileRead := Some filePath |}
      | Some data =>
          {| response :=
               {| statusCode := 200;
                  contentType :=
                    Some (match MIME ext with
                          | Some t => t
                          | None => lit "application/octet-stream"
                          end);
                  body := BodyData data |};
             fileRead := Some filePath |}
      end.

(* ================================================================== *)
(** * The output sanitizer                                             *)
(* ================================================================== *)

(** [str.replace(/^.../gm, '')] for a pattern anchored at a line start.
    [m rest] is the length of the pattern's match at the front of
    [rest], if it matches there.  The scan goes left to right over the
    original string: [bol] says whether the position is at the start of
    the input or follows a line terminator, and [skip] counts the code
    units of the current match still to be dropped.  After a match the
    search resumes right behind it. *)
Fixpoint replace_bol (m : jsstring -> option nat) (skip : nat) (bol : bool)
    (s : jsstring) : jsstring :=
  match s with
  | [] => []
  | c :: r =>
      match skip with
      | S k => replace_bol m k (is_line_terminator c) r
      | O =>
          match (if bol then m s else None) with
          | Some (S k) => replace_bol m k (is_line_terminator c) r
          | _ => c :: replace_bol m 0 (is_line_terminator c) r
          end
      end
  end.

Definition remove_at_line_starts (m : jsstring -> option nat) (s : jsstring)
    : jsstring :=
  replace_bol m 0 true s.

Fixpoint count_while (p : N -> bool) (s : jsstring) : nat :=
  match s with
  | c :: r => if p c then S (count_while p r) else O
  | [] => O
  end.

Definition endsWith (s suffix : jsstring) : bool :=
  startsWith (rev s) (rev suffix).

(** The optional [\n] that closes three of the patterns. *)
Definition opt_newline (s : jsstring) : nat :=
  match s with c :: _ => if c =? 10 then 1%nat else 0%nat | [] => 0%nat end.

(** [sc3>\s*] *)
Definition match_prompt (s : jsstring) : option nat :=
  if startsWith s (lit "sc3>")
  then Some (4 + count_while is_space (skipn 4 s))%nat
  else None.

Definition not_quote (c : N) : bool := negb (c =? 34).

(** The three patterns around a quoted path have the shape
    prefix, then any run of code units other than the double quote
    (code unit 34), then [stem], then the double quote and [);], then an
    optional line feed.  [stem] holds no double quote and the class
    cannot cross one, so the run of non-quote code units behind [prefix]
    is taken whole and has to end in [stem]. *)
Definition match_load (prefix stem : jsstring) (s : jsstring) : option nat :=
  if startsWith s prefix then
    let rest := skipn (length prefix) s in
    let n := count_while not_quote rest in
    let after := skipn n rest in
    if endsWith (firstn n rest) stem && startsWith after (34 :: lit ");") then
      Some (length prefix + n + 3 + opt_newline (skipn 3 after))%nat
    else None
  else None.

Definition load_prefix : jsstring := lit "load(" ++ 34 :: lit "/".
Definition load_eval_prefix : jsstring := lit "load(" ++ 34 :: lit "/tmp/sc_eval_".

(** The echo of an eval directive: [load(], a quoted path that starts
    with [/tmp/sc_eval_], [);]. *)
Definition match_load_eval : jsstring -> option nat :=
  match_load load_eval_prefix [].

(** The echo of the startup directive: [load(], a quoted path that
    starts with [/] and ends in [startup.scd], [);]. *)
Definition match_load_startup : jsstring -> option nat :=
  match_load load_prefix (lit "startup.scd").

(** [CmdPeriod\.run;\n?] *)
Definition match_cmdperiod (s : jsstring) : option nat :=
  if startsWith s (lit "CmdPeriod.run;")
  then Some (14 + opt_newline (skipn 14 s))%nat
  else None.

(** [.replace(/\r\n/g, '\n')] *)
Fixpoint replace_crlf (s : jsstring) : jsstring :=
  match s with
  | [] => []
  | c :: r =>
      match r with
      | d :: r' =>
          if (c =? 13) && (d =? 10) then 10 :: replace_crlf r'
          else c :: replace_crlf r
      | [] => [c]
      end
  end.

(** [.replace(/\r/g, '\n')] *)
Definition replace_cr (s : jsstring) : jsstring :=
  map (fun c => if c =? 13 then 10 else c) s.

(** The four line-start removals of [sanitize], in source order. *)
Definition strip_internal (str : jsstring) : jsstring :=
  remove_at_line_starts match_cmdperiod
    (remove_at_line_starts match_load_startup
      (remove_at_line_starts match_load_eval
        (remove_at_line_starts match_prompt str))).

Definition sanitize (str : jsstring) : jsstring :=
  replace_cr (replace_crlf (strip_internal str)).

(* ================================================================== *)
(** * The bridge: state, effects and handlers                          *)
(* ================================================================== *)

Definition STARTUP_SCD : jsstring := lit "/home/scuser/sc/startup.scd".
Definition compile_marker : jsstring := lit "compile done".
Definition boot_marker : jsstring := lit "=== SuperCollider server booted ===".
Definition interrupt_directive : jsstring := lit "CmdPeriod.run;" ++ [10].
Definition not_ready_notice : jsstring := lit "[bridge] sclang not ready" ++ [10].
Definition OPEN : N := 1.

(** Bridge-to-client messages, before [JSON.stringify]. *)
Inductive OutputMessage :=
| Post (text : jsstring)
| Status (connected : bool).

(** The value [JSON.parse] returns.  The payload of a number plays no
    part in the bridge and is left out; [JObject] lists the own
    properties of the parsed object, each key once. *)
Inductive json :=
| JNull
| JBool (b : bool)
| JNumber
| JString (s : jsstring)
| JArray (items : list json)
| JObject (props : list (jsstring * json)).

(** The errors the bridge meets: [JSON.parse] refusing its input, a
    property read off [null] or [undefined], and the errors the
    operating system raises through [fs], [child_process], streams and
    sockets. *)
Inductive js_error := SyntaxError | TypeError | SystemError.

(** How a call of [fs.writeFileSync] ends: the file is written, or the
    call throws and stages nothing. *)
Inductive write_outcome := Written | WriteThrows.

(** How a call of [child_process.spawn] ends: it returns a child object
    with its three pipes, or it throws.  A program that cannot be started
    (no such file, no permission) still gives a child object; the
    failure comes later, as the ['error'] event of that object. *)
Inductive spawn_outcome := Spawned | SpawnThrows.

(** The objects that can emit ['error']: the child and its pipes, a
    socket, the two servers, and the bridge's own standard output. *)
Inductive emitter :=
| OfChild
| OfChildStdin
| OfChildStdout
| OfChildStderr
| OfSocket (ws : nat)
| OfSocketServer
| OfHttpServer
| OfProcessStdout.

Inductive callback :=
| UnlinkFile (file : jsstring)
| StartSclang.

Inductive stream := Stdout | Stderr.

(** What a handler does to the world outside the bridge's variables.
    [Broadcast msg to] stands for one call of [broadcast]: [to] lists
    the sockets of [clients] whose [readyState] is OPEN, in the order
    of the set, each of which gets one [ws.send] of [msg]. *)
Inductive effect :=
| ConsoleLog (text : jsstring)
| ConsoleWarn (text : jsstring)
| ConsoleError (text : jsstring) (e : js_error)
| StdoutWrite (text : jsstring)
| Spawn (proc : nat)
| StdinWrite (proc : nat) (text : jsstring)
| WriteFileSync (file contents : jsstring)
| UnlinkSync (file : jsstring)
| SetTimeout (cb : callback) (ms : N)
| WsSend (ws : nat) (msg : OutputMessage)
| Broadcast (msg : OutputMessage) (to : list nat)
| Uncaught (e : js_error).

(** The module-level variables.  A child process object is named by
    its rank among the processes spawned so far ([spawned]); a socket
    of [clients] is kept with its current [readyState]. *)
Record Bridge := {
  sclangProc : option nat;
  sclangAlive : bool;
  startupSent : bool;
  evalCounter : N;
  clients : list (nat * N);
  spawned : nat
}.

Definition set_sclangProc (v : option nat) (b : Bridge) : Bridge :=
  {| sclangProc := v; sclangAlive := sclangAlive b;
     startupSent := startupSent b; evalCounter := evalCounter b;
     clients := clients b; spawned := spawned b |}.
Definition set_sclangAlive (v : bool) (b : Bridge) : Bridge :=
  {| sclangProc := sclangProc b; sclangAlive := v;
     startupSent := startupSent b; evalCounter := evalCounter b;
     clients := clients b; spawned := spawned b |}.
Definition set_startupSent (v : bool) (b : Bridge) : Bridge :=
  {| sclangProc := sclangProc b; sclangAlive := sclangAlive b;
     startupSent := v; evalCounter := evalCounter b;
     clients := clients b; spawned := spawned b |}.
Definition set_evalCounter (v : N) (b : Bridge) : Bridge :=
  {| sclangProc := sclangProc b; sclangAlive := sclangAlive b;
     startupSent := startupSent b; evalCounter := v;
     clients := clients b; spawned := spawned b |}.
Definition set_clients (v : list (nat * N)) (b : Bridge) : Bridge :=
  {| sclangProc := sclangProc b; sclangAlive := sclangAlive b;
     startupSent := startupSent b; evalCounter := evalCounter b;
     clients := v; spawned := spawned b |}.
Definition set_spawned (v : nat) (b : Bridge) : Bridge :=
  {| sclangProc := sclangProc b; sclangAlive := sclangAlive b;
     startupSent := startupSent b; evalCounter := evalCounter b;
     clients := clients b; spawned := v |}.

(** ** A monad for handler bodies: state, effect log, exceptions *)

Inductive completion (A : Type) :=
| Normal (a : A)
| Throw (e : js_error).
Arguments Normal {A} a.
Arguments Throw {A} e.

Definition Js (A : Type) : Type := Bridge -> completion A * Bridge * list effect.

Definition ret {A} (a : A) : Js A := fun b => (Normal a, b, []).

Definition bind {A B} (m : Js A) (k : A -> Js B) : Js B := fun b =>
  match m b with
  | (Normal a, b1, e1) =>
      match k a b1 with (r, b2, e2) => (r, b2, e1 ++ e2) end
  | (Throw e, b1, e1) => (Throw e, b1, e1)
  end.

Definition get : Js Bridge := fun b => (Normal b, b, []).
Definition modify (f : Bridge -> Bridge) : Js unit := fun b => (Normal tt, f b, []).
Definition emit (e : effect) : Js unit := fun b => (Normal tt, b, [e]).
Definition throw {A} (e : js_error) : Js A := fun b => (Throw e, b, []).

(** [try { m } catch (e) { h e }] *)
Definition try_catch (m : Js unit) (h : js_error -> Js unit) : Js unit := fun b =>
  match m b with
  | (Normal a, b1, e1) => (Normal a, b1, e1)
  | (Throw e, b1, e1) =>
      match h e b1 with (r, b2, e2) => (r, b2, e1 ++ e2) end
  end.

Declare Scope js_scope.
Delimit Scope js_scope with js.
Notation "x <- m ;; k" := (bind m (fun x => k))
  (at level 61, m at next level, right associativity) : js_scope.
Notation "m ;; k" := (bind m (fun _ => k))
  (at level 61, right associativity) : js_scope.
Local Open Scope js_scope.

(** ** Helpers *)

Definition open_sockets (cl : list (nat * N)) : list nat :=
  map fst (filter (fun c => snd c =? OPEN) cl).

Definition broadcast (obj : OutputMessage) : Js unit :=
  b <- get ;;
  emit (Broadcast obj (open_sockets (clients b))).

(** [sclangProc.stdin.write(text)]: reading [stdin] off [null] throws. *)
Definition stdin_write (text : jsstring) : Js unit :=
  b <- get ;;
  match sclangProc b with
  | Some proc => emit (StdinWrite proc text)
  | None => throw TypeError
  end.

Fixpoint lookup (key : jsstring) (props : list (jsstring * json)) : option json :=
  match props with
  | [] => None
  | (k, v) :: more => if str_eqb k key then Some v else lookup key more
  end.

(** [v.key] for the keys the bridge reads ([type], [code]): [null] has
    no properties, an object yields its own property, every other value
    yields [undefined] ([None]). *)
Definition prop (v : json) (key : jsstring) : Js (option json) :=
  match v with
  | JNull => throw TypeError
  | JObject props => ret (lookup key props)
  | _ => ret None
  end.

(** [v === s] for a string literal [s]. *)
Definition is_string (v : option json) (s : jsstring) : bool :=
  match v with
  | Some (JString t) => str_eqb t s
  | _ => false
  end.

Definition load_directive (file : jsstring) : jsstring :=
  lit "load(" ++ JSON_stringify file ++ lit ");" ++ [10].

Definition wrap_block (code : jsstring) : jsstring :=
  [40; 10] ++ trimEnd code ++ [10; 41; 10].

Definition eval_basename (now counter : N) : jsstring :=
  lit "sc_eval_" ++ dec now ++ lit "_" ++ dec counter ++ lit ".scd".

Definition show_exit_code (c : option N) : jsstring :=
  match c with Some n => dec n | None => lit "null" end.
Definition show_signal (s : option jsstring) : jsstring :=
  match s with Some t => t | None => lit "null" end.

Definition exit_notice (exitCode : option N) (signal : option jsstring)
    : jsstring :=
  [10] ++ lit "[sclang exited: code=" ++ show_exit_code exitCode
    ++ lit " signal=" ++ show_signal signal
    ++ lit "] restarting in 3 s" ++ [8230; 10].

(** [clients.add(ws)] and [clients.delete(ws)] on the set. *)
Definition clients_add (ws : nat) (cl : list (nat * N)) : list (nat * N) :=
  if existsb (fun c => Nat.eqb (fst c) ws) cl then cl else cl ++ [(ws, OPEN)].
Definition clients_delete (ws : nat) (cl : list (nat * N)) : list (nat * N) :=
  filter (fun c => negb (Nat.eqb (fst c) ws)) cl.
Definition clients_set_state (ws : nat) (rs : N) (cl : list (nat * N))
    : list (nat * N) :=
  map (fun c => if Nat.eqb (fst c) ws then (ws, rs) else c) cl.

Definition size_text (cl : list (nat * N)) : jsstring :=
  dec (N.of_nat (length cl)).

(** ** The handlers *)

Section Handlers.

(** [EVAL_DIR] is [os.tmpdir()], whatever the host gives. *)
Variable EVAL_DIR : jsstring.

(** [fs.writeFileSync(file, contents)], ending as [disk] tells. *)
Definition writeFileSync (disk : write_outcome) (file contents : jsstring)
    : Js unit :=
  match disk with
  | Written => emit (WriteFileSync file contents)
  | WriteThrows => throw SystemError
  end.

(** [evalCode(code)]; [now] is what [Date.now()] returns and [disk] how
    the write to the staging file ends.  The file name is computed, and
    the counter bumped, before [code.trimEnd()] is tried, which throws
    unless [code] is a string; a write that throws leaves the rest of
    the body undone. *)
Definition evalCode (now : N) (disk : write_outcome) (code : option json)
    : Js unit :=
  b <- get ;;
  modify (set_evalCounter (js_incr (evalCounter b))) ;;
  let file := path_join EVAL_DIR (eval_basename now (evalCounter b)) in
  match code with
  | Some (JString c) =>
      writeFileSync disk file (wrap_block c) ;;
      let cmd := load_directive file in
      emit (ConsoleLog (lit "[bridge] eval " ++ [8594; 32] ++ trim cmd)) ;;
      stdin_write cmd ;;
      emit (SetTimeout (UnlinkFile file) 15000)
  | _ => throw TypeError
  end.

(** [startSclang()]; [sp] is how the call of [spawn] ends.  When it
    throws, [sclangProc] is not assigned and no listener is attached. *)
Definition startSclang (sp : spawn_outcome) : Js unit :=
  emit (ConsoleLog (lit "[bridge] Spawning sclang...")) ;;
  modify (set_startupSent false) ;;
  match sp with
  | Spawned =>
      b <- get ;;
      modify (set_sclangProc (Some (spawned b))) ;;
      modify (set_spawned (S (spawned b))) ;;
      emit (Spawn (spawned b))
  | SpawnThrows => throw SystemError
  end.

Definition handleOutput (from : stream) (raw : jsstring) : Js unit :=
  b <- get ;;
  (if negb (startupSent b) && includes raw compile_marker then
     modify (set_startupSent true) ;;
     emit (ConsoleLog (lit "[bridge] Class library compiled " ++ [8212]
                         ++ lit " sending startup.scd")) ;;
     stdin_write (load_directive STARTUP_SCD)
   else ret tt) ;;
  b <- get ;;
  (if negb (sclangAlive b) && includes raw boot_marker then
     modify (set_sclangAlive true) ;;
     emit (ConsoleLog (lit "[bridge] Server booted " ++ [8212]
                         ++ lit " accepting evals")) ;;
     broadcast (Status true)
   else ret tt) ;;
  let text := sanitize raw in
  match text with
  | [] => ret tt
  | _ => emit (StdoutWrite text) ;; broadcast (Post text)
  end.

(** The child's ['exit'] listener. *)
Definition on_exit (exitCode : option N) (signal : option jsstring) : Js unit :=
  modify (set_sclangAlive false) ;;
  let msg := exit_notice exitCode signal in
  emit (ConsoleWarn msg) ;;
  broadcast (Post msg) ;;
  broadcast (Status false) ;;
  modify (set_sclangProc None) ;;
  emit (SetTimeout StartSclang 3000).

(** The server's ['connection'] listener, up to the first send. *)
Definition on_connection (ws : nat) (ip : jsstring) : Js unit :=
  b <- get ;;
  modify (set_clients (clients_add ws (clients b))) ;;
  b <- get ;;
  emit (ConsoleLog (lit "[bridge] Client connected from " ++ ip ++ lit " ("
                      ++ size_text (clients b) ++ lit " total)")) ;;
  emit (WsSend ws (Status (sclangAlive b))).

(** The socket's ['message'] listener.  [parsed] is the outcome of
    [JSON.parse(raw.toString())], [None] when it throws; [now] and
    [disk] are for [evalCode].  The inner block yields [true] where the
    source returns early. *)
Definition on_message (ws : nat) (parsed : option json) (now : N)
    (disk : write_outcome) : Js unit :=
  try_catch
    (msg <- match parsed with
            | Some v => ret v
            | None => throw SyntaxError
            end ;;
     ty <- prop msg (lit "type") ;;
     returned <-
       (if is_string ty (lit "eval") then
          b <- get ;;
          if negb (sclangAlive b) then
            emit (WsSend ws (Post not_ready_notice)) ;;
            ret true
          else
            code <- prop msg (lit "code") ;;
            evalCode now disk code ;;
            ret false
        else ret false) ;;
     if (returned : bool) then ret tt
     else
       ty <- prop msg (lit "type") ;;
       if is_string ty (lit "stop") then
         b <- get ;;
         if sclangAlive b then stdin_write interrupt_directive else ret tt
       else ret tt)
    (fun e => emit (ConsoleError (lit "[bridge] Bad message:") e)).

(** The socket's ['close'] listener. *)
Definition on_close (ws : nat) : Js unit :=
  b <- get ;;
  modify (set_clients (clients_delete ws (clients b))) ;;
  b <- get ;;
  emit (ConsoleLog (lit "[bridge] Client disconnected ("
                      ++ size_text (clients b) ++ lit " total)")).

(** A timer fires; [sp] is for [startSclang]. *)
Definition on_timeout (cb : callback) (sp : spawn_outcome) : Js unit :=
  match cb with
  | UnlinkFile file => emit (UnlinkSync file)
  | StartSclang => startSclang sp
  end.

(** ** The event loop *)

(** What the Node process can be handed: a chunk from one of the
    child's pipes, the child's exit, a timer, socket events, and an
    ['error'] event of one of the emitters.  [ReadyState] is the [ws]
    library moving a socket's [readyState].  An event carries what the
    world answers while it is handled: the clock and the outcome of the
    staging write for a message, the outcome of [spawn] for a timer. *)
Inductive event :=
| Output (from : stream) (raw : jsstring)
| Exit (exitCode : option N) (signal : option jsstring)
| Timeout (cb : callback) (sp : spawn_outcome)
| Connection (ws : nat) (ip : jsstring)
| Message (ws : nat) (parsed : option json) (now : N) (disk : write_outcome)
| ReadyState (ws : nat) (rs : N)
| Close (ws : nat)
| ErrorEvent (src : emitter).

(** The listener of each event.  The source registers none for
    ['error'], so Node throws the error it was handed. *)
Definition dispatch (ev : event) : Js unit :=
  match ev with
  | Output from raw => handleOutput from raw
  | Exit exitCode signal => on_exit exitCode signal
  | Timeout cb sp => on_timeout cb sp
  | Connection ws ip => on_connection ws ip
  | Message ws parsed now disk => on_message ws parsed now disk
  | ReadyState ws rs =>
      b <- get ;; modify (set_clients (clients_set_state ws rs (clients b)))
  | Close ws => on_close ws
  | ErrorEvent _ => throw SystemError
  end.

(** The Node process: the bridge's variables, and whether an exception
    no handler caught has terminated it. *)
Record Process := {
  vars : Bridge;
  halted : bool
}.

Definition step (p : Process) (ev : event) : Process * list effect :=
  if halted p then (p, [])
  else
    match dispatch ev (vars p) with
    | (Normal _, b, out) => ({| vars := b; halted := false |}, out)
    | (Throw e, b, out) => ({| vars := b; halted := true |}, out ++ [Uncaught e])
    end.

Fixpoint run (evs : list event) (p : Process) : Process * list effect :=
  match evs with
  | [] => (p, [])
  | ev :: more =>
      let (p1, out1) := step p ev in
      let (p2, out2) := run more p1 in
      (p2, out1 ++ out2)
  end.

Definition final (evs : list event) (p : Process) : Process := fst (run evs p).
Definition trace (evs : list event) (p : Process) : list effect := snd (run evs p).

(** The variables as the module's top level leaves them, and the
    process once [startSclang()] has run at load time, [spawn] having
    returned (were it to throw there, the module would not load). *)
Definition module_vars : Bridge :=
  {| sclangProc := None; sclangAlive := false; startupSent := false;
     evalCounter := 0; clients := []; spawned := 0 |}.

Definition loaded : Process :=
  match startSclang Spawned module_vars with
  | (_, b, _) => {| vars := b; halted := false |}
  end.

End Handlers.

(** ** Reading a trace *)

(** The messages socket [ws] is sent, in order. *)
Fixpoint sent_to (ws : nat) (out : list effect) : list OutputMessage :=
  match out with
  | [] => []
  | WsSend w m :: more =>
      if Nat.eqb w ws then m :: sent_to ws more else sent_to ws more
  | Broadcast m to :: more =>
      if existsb (Nat.eqb ws) to then m :: sent_to ws more else sent_to ws more
  | _ :: more => sent_to ws more
  end.

(** The [connected] flags of the status broadcasts, in order. *)
Fixpoint statuses (out : list effect) : list bool :=
  match out with
  | [] => []
  | Broadcast (Status c) _ :: more => c :: statuses more
  | _ :: more => statuses more
  end.

(** The texts of the post broadcasts, in order. *)
Fixpoint posts (out : list effect) : list jsstring :=
  match out with
  | [] => []
  | Broadcast (Post t) _ :: more => t :: posts more
  | _ :: more => posts more
  end.

(** The staging artifacts written, in order. *)
Fixpoint files_written (out : list effect) : list jsstring :=
  match out with
  | [] => []
  | WriteFileSync file _ :: more => file :: files_written more
  | _ :: more => files_written more
  end.

(** The chunks among a list of events. *)
Fixpoint chunks (evs : list event) : list jsstring :=
  match evs with
  | [] => []
  | Output _ raw :: more => raw :: chunks more
  | _ :: more => chunks more
  end.

Definition is_exit (ev : event) : bool :=
  match ev with Exit _ _ => true | _ => false end.

Definition outputs (from : stream) (cs : list jsstring) : list event :=
  map (Output from) cs.

(** ** Predicates the statements use *)

(** Event [ev] concerns socket [ws]. *)
Definition names_socket (ws : nat) (ev : event) : bool :=
  match ev with
  | Connection w _ | Message w _ _ _ | ReadyState w _ | Close w => Nat.eqb w ws
  | _ => false
  end.

(** Every chunk of [evs] arrives while a child handle is installed,
    that is, not between an exit and the respawn that follows it. *)
Fixpoint orderly (EVAL_DIR : jsstring) (evs : list event) (p : Process) : bool :=
  match evs with
  | [] => true
  | ev :: more =>
      (match ev, sclangProc (vars p) with
       | Output _ _, None => false
       | _, _ => true
       end)
      && orderly EVAL_DIR more (fst (step EVAL_DIR p ev))
  end.

(** A path segment [normalizeString] keeps: not empty, neither [.] nor
    [..], and free of [/]. *)
Definition proper_segment (seg : jsstring) : Prop :=
  seg <> [] /\ is_dot seg = false /\ is_dotdot seg = false /\ ~ In 47 seg.

(** Pattern [m] matches at no line start of [s]; [bol] tells whether
    [s] itself begins at one. *)
Fixpoint no_match (m : jsstring -> option nat) (bol : bool) (s : jsstring) : bool :=
  match s with
  | [] => true
  | c :: r =>
      (if bol then match m s with Some (S _) => false | _ => true end else true)
      && no_match m (is_line_terminator c) r
  end.

(** Text with no carriage return in which none of the four internal
    patterns matches at a line start. *)
Definition residue_free (s : jsstring) : bool :=
  forallb (fun c => negb (c =? 13)) s
  && no_match match_prompt true s
  && no_match match_load_eval true s
  && no_match match_load_startup true s
  && no_match match_cmdperiod true s.

(** Lines, each closed by a line feed. *)
Definition unlines (ls : list jsstring) : jsstring :=
  concat (map (fun l => l ++ [10]) ls).

(** A line holds no line terminator. *)
Definition one_line (l : jsstring) : bool :=
  forallb (fun c => negb (is_line_terminator c)) l.

(** Line [l] is exactly [prefix], a run without double quote that ends
    in [stem], the double quote, and [);]. *)
Definition is_load_echo (prefix stem l : jsstring) : bool :=
  startsWith l prefix
  && (let rest := skipn (length prefix) l in
      let n := count_while not_quote rest in
      endsWith (firstn n rest) stem
      && str_eqb (skipn n rest) (34 :: lit ");")).

(** The three echoes, as whole lines. *)
Definition is_eval_echo (l : jsstring) : bool :=
  is_load_echo load_eval_prefix [] l.
Definition is_startup_echo (l : jsstring) : bool :=
  negb (startsWith l load_eval_prefix)
  && is_load_echo load_prefix (lit "startup.scd") l.
Definition is_stop_echo (l : jsstring) : bool :=
  str_eqb l (lit "CmdPeriod.run;").
Definition is_echo (l : jsstring) : bool :=
  is_eval_echo l || is_startup_echo l || is_stop_echo l.

(** Line [l] begins like the prompt or like one of the echoes. *)
Definition starts_internal (l : jsstring) : bool :=
  startsWith l (lit "sc3>") || startsWith l load_prefix
  || startsWith l (lit "CmdPeriod.run;").

(** A line that is a whole echo, or begins like nothing internal. *)
Definition echo_or_plain (l : jsstring) : bool :=
  one_line l && (is_echo l || negb (starts_internal l)).

(** A line as the first pass leaves it: a prompt at its start is gone,
    with the white space behind it. *)
Definition strip_prompt (l : jsstring) : jsstring :=
  if startsWith l (lit "sc3>") then drop_spaces (skipn 4 l) else l.

(** A line that is only the prompt and white space. *)
Definition prompt_only (l : jsstring) : bool :=
  startsWith l (lit "sc3>") && str_eqb (strip_prompt l) [].

(** A line of post-window output: free of line terminators; behind a
    prompt, if it has one, comes nothing, a whole echo, or text that
    begins like nothing internal. *)
Definition post_line (l : jsstring) : bool :=
  one_line l && echo_or_plain (strip_prompt l).

(** The part of a line that the first pass keeps. *)
Definition kept (l : jsstring) : list jsstring :=
  if prompt_only l then [] else [strip_prompt l].

(** What may follow the last line: nothing, or a prompt and white space
    with no line feed to close it. *)
Definition open_prompt (tail : jsstring) : Prop :=
  tail = [] \/ exists w, tail = lit "sc3>" ++ w /\ forallb is_space w = true.

(** What a line of post-window output is to leave behind: nothing for a
    prompt alone and for an echo, else the line without its prompt. *)
Definition shown (l : jsstring) : list jsstring :=
  if prompt_only l || is_echo (strip_prompt l) then [] else [strip_prompt l].

(** The white space behind a prompt that stands alone ends with its
    line: the next line, if there is one, begins with something else. *)
Fixpoint prompts_closed (ls : list jsstring) : bool :=
  match ls with
  | [] => true
  | l :: more =>
      (if prompt_only l
       then match more with
            | [] => true
            | [] :: _ => false
            | (c :: _) :: _ => negb (is_space c)
            end
       else true)
      && prompts_closed more
  end.

(** The normalization of line endings as the specification words it,
    in one pass over the text: a carriage return becomes a line feed,
    and takes a line feed that follows it along.  To be compared with
    the two replacements [sanitize] makes. *)
Fixpoint normalize_line_endings (s : jsstring) : jsstring :=
  match s with
  | [] => []
  | c :: r =>
      if c =? 13 then
        10 :: match r with
              | d :: r' =>
                  if d =? 10 then normalize_line_endings r'
                  else normalize_line_endings r
              | [] => []
              end
      else c :: normalize_line_endings r
  end.

(** [a] is [b] with some code units left out, order kept. *)
Inductive subsequence : jsstring -> jsstring -> Prop :=
| sub_nil : subsequence [] []
| sub_keep c a b : subsequence a b -> subsequence (c :: a) (c :: b)
| sub_drop c a b : subsequence a b -> subsequence a (c :: b).

(** A chunk makes [handleOutput] throw when it brings the compile
    marker for the first time while [sclangProc] is [null]. *)
Definition output_throws (raw : jsstring) (b : Bridge) : bool :=
  match sclangProc b with
  | Some _ => false
  | None => negb (startupSent b) && includes raw compile_marker
  end.

Definition compiled_log : effect :=
  ConsoleLog (lit "[bridge] Class library compiled " ++ [8212]
                ++ lit " sending startup.scd").
Definition booted_log : effect :=
  ConsoleLog (lit "[bridge] Server booted " ++ [8212]
                ++ lit " accepting evals").

(** ** Concrete inputs for the examples *)

Definition tmp : jsstring := lit "/tmp".

Definition eval_message (code : jsstring) : option json :=
  Some (JObject [(lit "type", JString (lit "eval")); (lit "code", JString code)]).

Definition stop_message : option json :=
  Some (JObject [(lit "type", JString (lit "stop"))]).

(** The process after a normal boot of the first child: the compile
    marker, then the boot marker, each in a line of its own. *)
Definition booted : Process :=
  final tmp
    [Output Stdout (lit "compile done" ++ [10]);
     Output Stdout (boot_marker ++ [10])]
    loaded.

(** A file system in which every read succeeds. *)
Definition any_file : FileSystem :=
  {| existsSync := fun _ => true; readFile := fun _ => Some [] |}.

(** Two prompts on one line. *)
Definition prompt_twice : jsstring := lit "sc3>sc3>".

(** A prompt, a CRLF line end and a lone CR. *)
Definition two_lines : jsstring :=
  lit "sc3> hello" ++ [13; 10] ++ lit "world" ++ [13] ++ lit "-> 2".

(** Post-window output as the interpreter gives it: prompts in front
    of results, and the echoes of the bridge's own directives, with and
    without a prompt in front. *)
Definition prompted_lines : list jsstring :=
  [lit "sc3> -> 2";
   lit "sc3>   load(" ++ 34 :: lit "/tmp/sc_eval_17_0.scd" ++ 34 :: lit ");";
   lit "hello sc3> world";
   lit "sc3> ";
   lit "CmdPeriod.run;";
   lit "sc3> CmdPeriod.run;";
   [];
   lit "  indented"].

(** Post-window output with the three echoes in lines of their own. *)
Definition echoed_lines : list jsstring :=
  [lit "a";
   lit "load(" ++ 34 :: lit "/tmp/sc_eval_17_0.scd" ++ 34 :: lit ");";
   lit "-> 2";
   lit "CmdPeriod.run;";
   lit "load(" ++ 34 :: lit "/home/scuser/sc/startup.scd" ++ 34 :: lit ");"].

(** A boot in which the boot marker comes twice. *)
Definition first_cycle : list event :=
  [Output Stdout (lit "compile done" ++ [10]);
   Output Stdout (boot_marker ++ [10]);
   Output Stderr (lit "again: " ++ boot_marker ++ [10])].

(** The respawn after an exit, and the boot of the second child. *)
Definition second_cycle : list event :=
  [Timeout StartSclang Spawned;
   Output Stdout (lit "compile done" ++ [10]);
   Output Stdout (boot_marker ++ [10])].

(** A boot, the child's exit, and then, with the respawn still
    pending, a last chunk of the dead child that holds the boot
    marker. *)
Definition late_boot_chunk : list event :=
  [Output Stdout (lit "compile done" ++ [10]);
   Output Stdout (boot_marker ++ [10]);
   Exit (Some 1) None;
   Output Stdout (boot_marker ++ [10])].

(** The process such a chunk leaves behind. *)
Definition orphaned : Process := final tmp late_boot_chunk loaded.

(** Two eval requests that see the same [Date.now()]. *)
Definition same_millisecond : list event :=
  first_cycle
  ++ [Connection 1%nat (lit "10.0.0.7");
      Message 1%nat (eval_message (lit "1 + 1;")) 1700000000000 Written;
      Message 1%nat (eval_message (lit "1 + 1;")) 1700000000000 Written].

(** ** More readings of a trace *)

(** The writes to the child's input: the process and the text. *)
Fixpoint stdin_writes (out : list effect) : list (nat * jsstring) :=
  match out with
  | [] => []
  | StdinWrite proc text :: more => (proc, text) :: stdin_writes more
  | _ :: more => stdin_writes more
  end.

(** The messages handed to [broadcast], in order. *)
Fixpoint broadcasts (out : list effect) : list OutputMessage :=
  match out with
  | [] => []
  | Broadcast m _ :: more => m :: broadcasts more
  | _ :: more => broadcasts more
  end.

(** The files whose removal is scheduled after 15000 ms. *)
Fixpoint unlinks_scheduled (out : list effect) : list jsstring :=
  match out with
  | [] => []
  | SetTimeout (UnlinkFile file) ms :: more =>
      if ms =? 15000 then file :: unlinks_scheduled more
      else unlinks_scheduled more
  | _ :: more => unlinks_scheduled more
  end.

(** The [connected] flag of the last status among [msgs]. *)
Fixpoint last_status (msgs : list OutputMessage) : option bool :=
  match msgs with
  | [] => None
  | Status c :: more =>
      match last_status more with Some c' => Some c' | None => Some c end
  | Post _ :: more => last_status more
  end.

(** A chunk that holds the boot marker. *)
Definition has_boot_marker (raw : jsstring) : bool := includes raw boot_marker.
Definition has_compile_marker (raw : jsstring) : bool := includes raw compile_marker.

(** Is [v] a string ([typeof v === 'string'])? *)
Definition is_js_string (v : option json) : bool :=
  match v with Some (JString _) => true | _ => false end.

(** A sequence of status flags in which [true] is only ever announced
    to somebody who last knew [false]; [known] is what was known before
    the sequence. *)
Fixpoint announces_changes (known : bool) (flags : list bool) : bool :=
  match flags with
  | [] => true
  | true :: more => negb known && announces_changes true more
  | false :: more => announces_changes false more
  end.

(** The texts that are not empty. *)
Definition non_empty (texts : list jsstring) : list jsstring :=
  filter (fun t => negb (str_eqb t [])) texts.

(* ================================================================== *)
(** * The editor's block finder ([frontend/src/App.jsx])               *)
(* ================================================================== *)

Module Editor.

(** What [findBlockToEval] returns. *)
Record Target := {
  code : jsstring;
  from : nat;
  to : nat
}.

(** The first loop: the positions of the parentheses opened and not
    yet closed before [pos], oldest first.  [i] is the index of the
    head of [text]; popping an empty stack does nothing. *)
Fixpoint open_stack (text : jsstring) (i pos : nat) (stack : list nat)
    : list nat :=
  match text with
  | [] => stack
  | c :: r =>
      if (i <? pos)%nat then
        open_stack r (S i) pos
          (if c =? 40 then stack ++ [i]
           else if c =? 41 then removelast stack
           else stack)
      else stack
  end.

(** [text.indexOf(ch, start)]; [None] is [-1]. *)
Fixpoint indexOf (ch : N) (text : jsstring) (i start : nat) : option nat :=
  match text with
  | [] => None
  | c :: r =>
      if (start <=? i)%nat && (c =? ch) then Some i
      else indexOf ch r (S i) start
  end.

(** [text.lastIndexOf(ch, start)]: the last index not above [start].
    A negative [start] counts as 0, which is what the subtraction on
    [nat] gives for [pos - 1]. *)
Fixpoint lastIndexOf (ch : N) (text : jsstring) (i start : nat)
    (found : option nat) : option nat :=
  match text with
  | [] => found
  | c :: r =>
      if (i <=? start)%nat
      then lastIndexOf ch r (S i) start (if c =? ch then Some i else found)
      else found
  end.

(** [text.slice(a, b)] for indices within the text. *)
Definition slice (a b : nat) (text : jsstring) : jsstring :=
  firstn (b - a) (skipn a text).

(** The second loop: the index at which the depth comes back to 0. *)
Fixpoint close_paren (text : jsstring) (i : nat) (depth : Z) : option nat :=
  match text with
  | [] => None
  | c :: r =>
      if c =? 40 then close_paren r (S i) (depth + 1)%Z
      else if c =? 41 then
        if (depth - 1 =? 0)%Z then Some i
        else close_paren r (S i) (depth - 1)%Z
      else close_paren r (S i) depth
  end.

Definition findBlockToEval (text : jsstring) (pos : nat) : Target :=
  let stack := open_stack text 0 pos [] in
  let start := match stack with
               | s :: _ => Some s
               | [] => indexOf 40 text 0 pos
               end in
  match start with
  | None =>
      let lineStart := match lastIndexOf 10 text 0 (pos - 1) None with
                       | Some i => S i
                       | None => O
                       end in
      let lineEnd := indexOf 10 text 0 pos in
      let to := match lineEnd with Some i => i | None => length text end in
      {| code := trim (slice lineStart to text); from := lineStart; to := to |}
  | Some start =>
      match close_paren (skipn start text) start 0%Z with
      | Some i =>
          {| code := trim (slice (S start) i text); from := start; to := S i |}
      | None =>
          {| code := trim (skipn (S start) text);
             from := start; to := length text |}
      end
  end.

End Editor.

(** ** More concrete inputs *)

(** The booted bridge with two clients connected. *)
Definition two_clients : Process :=
  final tmp
    [Connection 1%nat (lit "10.0.0.7"); Connection 2%nat (lit "10.0.0.8")]
    booted.

(** The booted bridge with one client whose socket is closing. *)
Definition closing_client : Process :=
  final tmp [Connection 1%nat (lit "10.0.0.7"); ReadyState 1%nat 2] booted.

(** A crash of the child, its notice and the respawn. *)
Definition crash_and_respawn : list event :=
  [Output Stdout (lit "-> 2" ++ [10]);
   Exit (Some 1) None;
   Timeout StartSclang Spawned].

(** Requests before the boot marker has been seen. *)
Definition early_requests : list event :=
  [Connection 1%nat (lit "10.0.0.7");
   Message 1%nat (eval_message (lit "1 + 1;")) 1700000000000 Written;
   Output Stdout (lit "compile done" ++ [10]);
   Message 1%nat stop_message 1700000000001 Written].

(** A document with one block and a line outside it. *)
Definition small_document : jsstring :=
  lit "x = 1;" ++ [10] ++ lit "( a (b) c )" ++ [10] ++ lit "y".


(* ================================================================== *)
(** * Properties                                                       *)
(* ================================================================== *)

Ltac js_unfold :=
  cbv beta iota delta
    [on_message on_connection on_close on_exit on_timeout handleOutput
     evalCode writeFileSync startSclang dispatch broadcast stdin_write prop
     try_catch bind get modify emit ret throw].

(** ** Strings *)

Lemma str_eqb_refl (a : jsstring) : str_eqb a a = true.
Proof.
  induction a as [|x a IH]; simpl; [reflexivity|].
  now rewrite N.eqb_refl, IH.
Qed.

Lemma str_eqb_eq (a b : jsstring) : str_eqb a b = true <-> a = b.
Proof.
  split.
  - revert b; induction a as [|x a IH]; intros [|y b]; simpl; try discriminate; auto.
    intros H. apply andb_true_iff in H as [Hx Hr].
    apply N.eqb_eq in Hx. f_equal; auto.
  - intros ->. apply str_eqb_refl.
Qed.

Lemma startsWith_app (s p : jsstring) :
  startsWith s p = true <-> exists r, s = p ++ r.
Proof.
  split.
  - revert s; induction p as [|y p IH]; intros s H; simpl in *.
    + now exists s.
    + destruct s as [|x s]; [discriminate|].
      apply andb_true_iff in H as [Hx Hr]. apply N.eqb_eq in Hx. subst y.
      destruct (IH _ Hr) as [r ->]. now exists r.
  - intros [r ->]. induction p as [|y p IH]; simpl; [reflexivity|].
    now rewrite N.eqb_refl.
Qed.

(** ** Evaluation requests *)

Section Dispatcher.

Variable EVAL_DIR : jsstring.

(** C5.  An [eval] request that arrives while [sclangAlive] is false
    is rejected: the handler sends the one not-ready notice to the
    requesting socket and does nothing else.  No broadcast, no staging
    file, no write to the child, no change of the bridge's variables,
    and no other socket is sent anything. *)
Theorem eval_rejected_when_not_booted
    (ws : nat) (props : list (jsstring * json)) (now : N)
    (disk : write_outcome) (b : Bridge) :
  lookup (lit "type") props = Some (JString (lit "eval")) ->
  sclangAlive b = false ->
  on_message EVAL_DIR ws (Some (JObject props)) now disk b
    = (Normal tt, b, [WsSend ws (Post not_ready_notice)])
  /\ forall other, other <> ws ->
       sent_to other (snd (on_message EVAL_DIR ws (Some (JObject props)) now disk b)) = [].
Proof.
  intros Hty Halive.
  assert (E : on_message EVAL_DIR ws (Some (JObject props)) now disk b
              = (Normal tt, b, [WsSend ws (Post not_ready_notice)])).
  { js_unfold. rewrite Hty. cbn [is_string]. rewrite str_eqb_refl.
    rewrite Halive. reflexivity. }
  split; [exact E|].
  intros other Hne. rewrite E. cbn [snd sent_to].
  destruct (Nat.eqb ws other) eqn:Heq; [|reflexivity].
  apply Nat.eqb_eq in Heq. congruence.
Qed.

(** C6, in every state of the bridge's variables.  A [stop] message
    changes no variable and never throws past its handler.  While
    [sclangAlive] is false it does nothing at all.  While [sclangAlive]
    is true and the child's handle is installed it writes the interrupt
    directive to the child's input exactly once and does nothing else.
    While [sclangAlive] is true and [sclangProc] is [null] nothing is
    written: reading [stdin] off [null] throws, and the handler's
    [catch] logs the error. *)
Theorem stop_message_handling
    (ws : nat) (props : list (jsstring * json)) (now : N)
    (disk : write_outcome) (b : Bridge) :
  lookup (lit "type") props = Some (JString (lit "stop")) ->
  on_message EVAL_DIR ws (Some (JObject props)) now disk b
    = (Normal tt, b,
       if sclangAlive b then
         match sclangProc b with
         | Some proc => [StdinWrite proc interrupt_directive]
         | None => [ConsoleError (lit "[bridge] Bad message:") TypeError]
         end
       else []).
Proof.
  intros Hty. js_unfold. rewrite Hty.
  cbn [is_string]. change (str_eqb (lit "stop") (lit "eval")) with false.
  rewrite str_eqb_refl. cbv iota.
  destruct (sclangAlive b); [|reflexivity].
  destruct (sclangProc b); reflexivity.
Qed.

(** C1, as the code has it.  An [eval] request with a string [code]
    arrives while the bridge is booted.  When the staging write
    succeeds, the handler writes exactly one staging file, whose
    contents are [code.trimEnd()] between the block delimiters; writes
    exactly one load directive, naming that file, to the child's input;
    and schedules the file's removal after 15000 ms.  When the staging
    write throws, no load directive is written and no removal is
    scheduled: the counter has moved on, and the handler's [catch] logs
    the error.  The file's path is absolute whenever [EVAL_DIR] is. *)
Theorem eval_accepted_when_booted
    (ws : nat) (props : list (jsstring * json)) (code : jsstring) (now : N)
    (b : Bridge) (proc : nat) :
  lookup (lit "type") props = Some (JString (lit "eval")) ->
  lookup (lit "code") props = Some (JString code) ->
  sclangAlive b = true ->
  sclangProc b = Some proc ->
  let file := path_join EVAL_DIR (eval_basename now (evalCounter b)) in
  on_message EVAL_DIR ws (Some (JObject props)) now Written b
    = (Normal tt,
       set_evalCounter (js_incr (evalCounter b)) b,
       [WriteFileSync file ([40; 10] ++ trimEnd code ++ [10; 41; 10]);
        ConsoleLog (lit "[bridge] eval " ++ [8594; 32] ++ trim (load_directive file));
        StdinWrite proc (lit "load(" ++ JSON_stringify file ++ lit ");" ++ [10]);
        SetTimeout (UnlinkFile file) 15000])
  /\ on_message EVAL_DIR ws (Some (JObject props)) now WriteThrows b
    = (Normal tt,
       set_evalCounter (js_incr (evalCounter b)) b,
       [ConsoleError (lit "[bridge] Bad message:") SystemError])
  /\ (is_absolute EVAL_DIR = true -> is_absolute file = true).
Proof.
  intros Hty Hcode Halive Hproc file. split; [|split].
  - js_unfold. rewrite Hty. cbn [is_string]. rewrite str_eqb_refl. cbv iota.
    rewrite Halive. cbv iota. cbn [negb]. cbv iota. rewrite Hcode. cbv iota.
    cbn [sclangProc set_evalCounter]. rewrite Hproc. cbv iota.
    change (str_eqb (lit "eval") (lit "stop")) with false. cbv iota.
    reflexivity.
  - js_unfold. rewrite Hty. cbn [is_string]. rewrite str_eqb_refl. cbv iota.
    rewrite Halive. cbv iota. cbn [negb]. cbv iota. rewrite Hcode. cbv iota.
    reflexivity.
  - intros Habs. subst file. unfold path_join.
    destruct EVAL_DIR as [|d D]; [discriminate|].
    change (eval_basename now (evalCounter b))
      with (115 :: skipn 1 (eval_basename now (evalCounter b))).
    cbv iota. unfold path_normalize.
    cbn [app]. cbn [is_absolute] in *. rewrite Habs.
    destruct (normalizeString _ _); [reflexivity|].
    reflexivity.
Qed.

End Dispatcher.

(** ** The supervisor: chunks, exits and status broadcasts *)

Lemma surjective_bridge (b : Bridge) :
  b = {| sclangProc := sclangProc b; sclangAlive := sclangAlive b;
         startupSent := startupSent b; evalCounter := evalCounter b;
         clients := clients b; spawned := spawned b |}.
Proof. now destruct b. Qed.

(** What one chunk does, in full. *)
Lemma handleOutput_spec (from : stream) (raw : jsstring) (b : Bridge) :
  handleOutput from raw b =
    if output_throws raw b
    then (Throw TypeError, set_startupSent true b, [compiled_log])
    else
      (Normal tt,
       set_sclangAlive (sclangAlive b || includes raw boot_marker)
         (set_startupSent (startupSent b || includes raw compile_marker) b),
       (if negb (startupSent b) && includes raw compile_marker
        then match sclangProc b with
             | Some proc => [compiled_log; StdinWrite proc (load_directive STARTUP_SCD)]
             | None => []
             end
        else [])
       ++ (if negb (sclangAlive b) && includes raw boot_marker
           then [booted_log; Broadcast (Status true) (open_sockets (clients b))]
           else [])
       ++ match sanitize raw with
          | [] => []
          | text => [StdoutWrite text; Broadcast (Post text) (open_sockets (clients b))]
          end).
Proof.
  destruct b as [proc alive sent ctr cl sp].
  unfold output_throws, compiled_log, booted_log.
  js_unfold. cbn [sclangProc sclangAlive startupSent clients set_startupSent
                  set_sclangAlive evalCounter spawned].
  destruct sent, (includes raw compile_marker), proc as [proc|], alive,
    (includes raw boot_marker), (sanitize raw); reflexivity.
Qed.

Lemma run_app (EVAL_DIR : jsstring) (xs ys : list event) (p : Process) :
  run EVAL_DIR (xs ++ ys) p =
    (final EVAL_DIR ys (final EVAL_DIR xs p),
     trace EVAL_DIR xs p ++ trace EVAL_DIR ys (final EVAL_DIR xs p)).
Proof.
  unfold final, trace. revert p.
  induction xs as [|x xs IH]; intros p; cbn [run app fst snd].
  - now destruct (run EVAL_DIR ys p).
  - destruct (step EVAL_DIR p x) as [p1 o1]. rewrite IH.
    destruct (run EVAL_DIR xs p1) as [p2 o2]. cbn [fst snd].
    now rewrite app_assoc.
Qed.

Lemma final_app (EVAL_DIR : jsstring) (xs ys : list event) (p : Process) :
  final EVAL_DIR (xs ++ ys) p = final EVAL_DIR ys (final EVAL_DIR xs p).
Proof. unfold final at 1. rewrite run_app. reflexivity. Qed.

Lemma trace_app (EVAL_DIR : jsstring) (xs ys : list event) (p : Process) :
  trace EVAL_DIR (xs ++ ys) p
    = trace EVAL_DIR xs p ++ trace EVAL_DIR ys (final EVAL_DIR xs p).
Proof. unfold trace at 1. rewrite run_app. reflexivity. Qed.

Lemma final_cons (EVAL_DIR : jsstring) (x : event) (xs : list event) (p : Process) :
  final EVAL_DIR (x :: xs) p = final EVAL_DIR xs (fst (step EVAL_DIR p x)).
Proof.
  unfold final. cbn [run]. destruct (step EVAL_DIR p x) as [p1 o1].
  cbn [fst snd]. now destruct (run EVAL_DIR xs p1).
Qed.

Lemma trace_cons (EVAL_DIR : jsstring) (x : event) (xs : list event) (p : Process) :
  trace EVAL_DIR (x :: xs) p
    = snd (step EVAL_DIR p x) ++ trace EVAL_DIR xs (fst (step EVAL_DIR p x)).
Proof.
  unfold trace. cbn [run]. destruct (step EVAL_DIR p x) as [p1 o1].
  cbn [fst snd]. now destruct (run EVAL_DIR xs p1).
Qed.

Lemma step_halted (EVAL_DIR : jsstring) (p : Process) (ev : event) :
  halted p = true -> step EVAL_DIR p ev = (p, []).
Proof. intros H. unfold step. now rewrite H. Qed.

Lemma run_halted (EVAL_DIR : jsstring) (evs : list event) (p : Process) :
  halted p = true -> run EVAL_DIR evs p = (p, []).
Proof.
  intros H. induction evs as [|ev evs IH]; [reflexivity|].
  cbn [run]. rewrite step_halted by assumption. now rewrite IH.
Qed.

Lemma statuses_app (xs ys : list effect) :
  statuses (xs ++ ys) = statuses xs ++ statuses ys.
Proof.
  induction xs as [|x xs IH]; [reflexivity|].
  destruct x as [| | | | | | | | | |[]|]; cbn [app statuses]; now rewrite IH.
Qed.

Lemma posts_app (xs ys : list effect) :
  posts (xs ++ ys) = posts xs ++ posts ys.
Proof.
  induction xs as [|x xs IH]; [reflexivity|].
  destruct x as [| | | | | | | | | |[]|]; cbn [app posts]; now rewrite IH.
Qed.

Ltac frame_done ws :=
  eexists; eexists; split; [reflexivity|];
  split; [reflexivity|]; split; [reflexivity|]; split;
  [ let other := fresh "other" in
    let Hne := fresh "Hne" in
    intros other Hne; cbn [sent_to app];
    try (replace (Nat.eqb ws other) with false
           by (symmetry; apply Nat.eqb_neq; congruence));
    reflexivity
  | cbn [files_written evalCounter app];
    first [ left; split; reflexivity
          | right; split; [reflexivity|]; left; reflexivity
          | right; split; [reflexivity|]; right; reflexivity ] ].

(** A message from a client never throws past its handler, touches no
    variable but the counter, broadcasts nothing, sends to no socket
    but its own, and writes at most the one staging file that the
    current counter names. *)
Lemma on_message_frame (EVAL_DIR : jsstring) (ws : nat) (parsed : option json)
    (now : N) (disk : write_outcome) (b : Bridge) :
  exists c out,
    on_message EVAL_DIR ws parsed now disk b = (Normal tt, set_evalCounter c b, out)
    /\ statuses out = [] /\ posts out = []
    /\ (forall other, other <> ws -> sent_to other out = [])
    /\ ((c = evalCounter b /\ files_written out = [])
        \/ (c = js_incr (evalCounter b)
            /\ (files_written out = []
                \/ files_written out
                   = [path_join EVAL_DIR (eval_basename now (evalCounter b))]))).
Proof.
  destruct b as [proc alive sent ctr cl sp].
  js_unfold.
  cbn [sclangProc sclangAlive startupSent clients evalCounter spawned set_evalCounter].
  destruct parsed as [[| | | | |props]|]; try frame_done ws.
  destruct (lookup (lit "type") props) as [[| | |ty| |]|]; try frame_done ws.
  cbn [is_string].
  destruct (str_eqb ty (lit "eval")) eqn:Heval.
  - destruct alive; cbn [negb].
    + destruct (lookup (lit "code") props) as [[| | |code| |]|];
        destruct proc as [proc|], disk;
        apply str_eqb_eq in Heval; subst ty;
        change (str_eqb (lit "eval") (lit "stop")) with false;
        frame_done ws.
    + frame_done ws.
  - destruct (str_eqb ty (lit "stop")), alive, proc as [proc|]; frame_done ws.
Qed.

Lemma step_exit (EVAL_DIR : jsstring) (p : Process) (c : option N)
    (s : option jsstring) :
  halted p = false ->
  step EVAL_DIR p (Exit c s) =
    ({| vars := set_sclangProc None (set_sclangAlive false (vars p));
        halted := false |},
     [ConsoleWarn (exit_notice c s);
      Broadcast (Post (exit_notice c s)) (open_sockets (clients (vars p)));
      Broadcast (Status false) (open_sockets (clients (vars p)));
      SetTimeout StartSclang 3000]).
Proof.
  intros H. unfold step. rewrite H. destruct p as [b h]. cbn [vars].
  destruct b; reflexivity.
Qed.

(** Outside the exit handler a status broadcast is always [true] and
    marks the flip of [sclangAlive], which nothing else resets. *)
Lemma step_status (EVAL_DIR : jsstring) (p : Process) (ev : event) :
  is_exit ev = false ->
  let p' := fst (step EVAL_DIR p ev) in
  statuses (snd (step EVAL_DIR p ev))
    = (if negb (sclangAlive (vars p)) && sclangAlive (vars p') then [true] else [])
  /\ (sclangAlive (vars p) = true -> sclangAlive (vars p') = true).
Proof.
  intros Hev. unfold step.
  destruct (halted p) eqn:Hh; cbn [fst snd].
  { split; [|auto]. now destruct (sclangAlive (vars p)). }
  destruct p as [b h]. cbn [vars halted] in *.
  destruct ev as [from raw|c s|cb spn|ws ip|ws parsed now disk|ws rs|ws|src];
    try discriminate; cbn [dispatch].
  - rewrite handleOutput_spec. unfold output_throws.
    destruct b as [proc alive sent ctr cl sp].
    cbn [sclangProc sclangAlive startupSent clients set_startupSent set_sclangAlive].
    destruct proc as [proc|], sent, (includes raw compile_marker), alive,
      (includes raw boot_marker), (sanitize raw); cbn; auto.
  - destruct cb, spn; destruct b as [proc [] sent ctr cl sp]; cbn; auto.
  - destruct b as [proc [] sent ctr cl sp]; cbn; auto.
  - destruct (on_message_frame EVAL_DIR ws parsed now disk b)
      as (c & out & -> & Hst & _ & _).
    cbn [fst snd vars]. rewrite Hst.
    destruct b as [proc [] sent ctr cl sp]; cbn; auto.
  - destruct b as [proc [] sent ctr cl sp]; cbn; auto.
  - destruct b as [proc [] sent ctr cl sp]; cbn; auto.
  - destruct b as [proc [] sent ctr cl sp]; cbn; auto.
Qed.

(** In a stretch of events without an exit the only status broadcast
    is the one [true] of the moment the bridge turns alive. *)
Lemma segment_statuses (EVAL_DIR : jsstring) (seg : list event) (p : Process) :
  forallb (fun ev => negb (is_exit ev)) seg = true ->
  statuses (trace EVAL_DIR seg p)
    = (if negb (sclangAlive (vars p)) && sclangAlive (vars (final EVAL_DIR seg p))
       then [true] else [])
  /\ (sclangAlive (vars p) = true ->
      sclangAlive (vars (final EVAL_DIR seg p)) = true).
Proof.
  revert p. induction seg as [|ev seg IH]; intros p Hseg.
  - cbn. split; [|auto]. now destruct (sclangAlive (vars p)).
  - cbn [forallb] in Hseg. apply andb_true_iff in Hseg as [Hev Hseg].
    apply negb_true_iff in Hev.
    rewrite trace_cons, final_cons, statuses_app.
    destruct (step_status EVAL_DIR p ev Hev) as [Hs Hm].
    destruct (IH (fst (step EVAL_DIR p ev)) Hseg) as [Hs' Hm'].
    rewrite Hs, Hs'.
    destruct (sclangAlive (vars p)),
             (sclangAlive (vars (fst (step EVAL_DIR p ev)))),
             (sclangAlive (vars (final EVAL_DIR seg (fst (step EVAL_DIR p ev)))));
      cbn; split; auto;
      try (specialize (Hm eq_refl); discriminate);
      try (specialize (Hm' eq_refl); discriminate).
Qed.

(** A step that leaves the process running turns [sclangAlive] on
    exactly when it handles a chunk that holds the boot marker. *)
Lemma step_alive (EVAL_DIR : jsstring) (p : Process) (ev : event) :
  is_exit ev = false ->
  halted (fst (step EVAL_DIR p ev)) = false ->
  sclangAlive (vars (fst (step EVAL_DIR p ev)))
    = sclangAlive (vars p)
      || match ev with
         | Output _ raw => includes raw boot_marker
         | _ => false
         end.
Proof.
  intros Hev. unfold step.
  destruct (halted p) eqn:Hh; cbn [fst snd]; [congruence|].
  destruct p as [b h]. cbn [vars halted] in *.
  destruct ev as [from raw|c s|cb spn|ws ip|ws parsed now disk|ws rs|ws|src];
    try discriminate; cbn [dispatch].
  - rewrite handleOutput_spec.
    destruct (output_throws raw b); cbn [fst vars halted]; [discriminate|].
    intros _. now destruct b.
  - intros _. destruct cb, spn; destruct b as [proc [] sent ctr cl sp]; reflexivity.
  - intros _. destruct b as [proc [] sent ctr cl sp]; reflexivity.
  - destruct (on_message_frame EVAL_DIR ws parsed now disk b)
      as (c & out & -> & _).
    intros _. destruct b as [proc [] sent ctr cl sp]; reflexivity.
  - intros _. destruct b as [proc [] sent ctr cl sp]; reflexivity.
  - intros _. destruct b as [proc [] sent ctr cl sp]; reflexivity.
Qed.

Lemma final_halted (EVAL_DIR : jsstring) (evs : list event) (p : Process) :
  halted p = true -> final EVAL_DIR evs p = p.
Proof. intros H. unfold final. now rewrite run_halted. Qed.

Lemma segment_alive (EVAL_DIR : jsstring) (seg : list event) (p : Process) :
  forallb (fun ev => negb (is_exit ev)) seg = true ->
  halted (final EVAL_DIR seg p) = false ->
  sclangAlive (vars (final EVAL_DIR seg p))
    = sclangAlive (vars p)
      || existsb (fun raw => includes raw boot_marker) (chunks seg).
Proof.
  revert p. induction seg as [|ev seg IH]; intros p Hseg Hfin.
  - cbn. now rewrite orb_false_r.
  - cbn [forallb] in Hseg. apply andb_true_iff in Hseg as [Hev Hseg].
    apply negb_true_iff in Hev.
    rewrite final_cons in *.
    assert (Hp1 : halted (fst (step EVAL_DIR p ev)) = false).
    { destruct (halted (fst (step EVAL_DIR p ev))) eqn:E; [|reflexivity].
      rewrite final_halted in Hfin by assumption. congruence. }
    rewrite (IH _ Hseg Hfin), (step_alive _ _ _ Hev Hp1).
    destruct ev; cbn [chunks existsb]; try discriminate;
      rewrite ?orb_false_r, ?orb_assoc; reflexivity.
Qed.

(** C4.  Take a boot cycle, a stretch of events without an exit, and
    the exit that ends it.  The status broadcasts of the cycle are one
    [true] if the bridge turned alive in it and none otherwise, however
    often the boot marker comes again; the exit handler then broadcasts
    [false] before anything later; and the next cycle starts not alive.
    The bridge turns alive exactly when some chunk of the cycle holds
    the boot marker. *)
Theorem status_broadcasts_per_boot_cycle
    (EVAL_DIR : jsstring) (cycle later : list event)
    (c : option N) (s : option jsstring) (p : Process) :
  forallb (fun ev => negb (is_exit ev)) cycle = true ->
  halted (final EVAL_DIR cycle p) = false ->
  statuses (trace EVAL_DIR (cycle ++ Exit c s :: later) p)
    = (if negb (sclangAlive (vars p))
          && sclangAlive (vars (final EVAL_DIR cycle p))
       then [true] else [])
      ++ false
         :: statuses (trace EVAL_DIR later
                        (final EVAL_DIR (cycle ++ [Exit c s]) p))
  /\ sclangAlive (vars (final EVAL_DIR (cycle ++ [Exit c s]) p)) = false
  /\ sclangAlive (vars (final EVAL_DIR cycle p))
     = sclangAlive (vars p)
       || existsb (fun raw => includes raw boot_marker) (chunks cycle).
Proof.
  intros Hcycle Hrun.
  destruct (segment_statuses EVAL_DIR cycle p Hcycle) as [Hst _].
  rewrite trace_app, statuses_app, Hst, trace_cons, statuses_app.
  rewrite final_app, final_cons.
  rewrite (step_exit EVAL_DIR _ c s Hrun). cbn [fst snd statuses app final run].
  split; [reflexivity|]. split.
  - reflexivity.
  - apply segment_alive; assumption.
Qed.

(** C9, as the code has it.  While a child handle is installed, every
    chunk is scanned for both markers and handed to [sanitize]; the
    sanitized text is broadcast as one post exactly when it is not
    empty, to the sockets open at that moment, and a chunk that
    sanitizes to the empty string yields no post. *)
Theorem chunk_scanned_and_posted
    (from : stream) (raw : jsstring) (b : Bridge) (proc : nat) :
  sclangProc b = Some proc ->
  exists b' out,
    handleOutput from raw b = (Normal tt, b', out)
    /\ startupSent b' = startupSent b || includes raw compile_marker
    /\ sclangAlive b' = sclangAlive b || includes raw boot_marker
    /\ posts out = match sanitize raw with [] => [] | text => [text] end
    /\ (forall text to, In (Broadcast (Post text) to) out ->
          text = sanitize raw /\ to = open_sockets (clients b)).
Proof.
  intros Hproc. rewrite handleOutput_spec. unfold output_throws.
  rewrite Hproc. eexists. eexists. split; [reflexivity|].
  split; [now destruct b|]. split; [now destruct b|].
  unfold compiled_log, booted_log.
  split.
  - rewrite !posts_app.
    destruct (negb (startupSent b) && includes raw compile_marker),
      (negb (sclangAlive b) && includes raw boot_marker),
      (sanitize raw); reflexivity.
  - intros text to Hin.
    rewrite !in_app_iff in Hin.
    destruct Hin as [Hin|[Hin|Hin]].
    + destruct (negb (startupSent b) && includes raw compile_marker);
        cbn in Hin; intuition discriminate.
    + destruct (negb (sclangAlive b) && includes raw boot_marker);
        cbn in Hin; intuition discriminate.
    + destruct (sanitize raw) as [|x t]; cbn in Hin; [contradiction|].
      destruct Hin as [Hin|[Hin|[]]]; [discriminate|].
      injection Hin as <- <-. auto.
Qed.

Lemma step_output_live (EVAL_DIR : jsstring) (p : Process) (from : stream)
    (raw : jsstring) (proc : nat) :
  halted p = false ->
  sclangProc (vars p) = Some proc ->
  let p' := fst (step EVAL_DIR p (Output from raw)) in
  halted p' = false
  /\ sclangProc (vars p') = Some proc
  /\ startupSent (vars p') = startupSent (vars p) || includes raw compile_marker
  /\ sclangAlive (vars p') = sclangAlive (vars p) || includes raw boot_marker.
Proof.
  intros Hh Hproc. unfold step. rewrite Hh. cbn [dispatch].
  rewrite handleOutput_spec. unfold output_throws. rewrite Hproc.
  cbn [fst vars halted]. destruct p as [b h]. cbn [vars] in *.
  destruct b. cbn in *. auto.
Qed.

(** C2, as the code has it.  Each chunk is searched on its own, with
    nothing carried over from the chunk before: over the chunks of one
    child, the compile marker (the boot marker) counts as seen exactly
    when some single chunk holds it whole.  A marker split across two
    chunks, neither of which holds it, goes unseen. *)
Theorem marker_detection_per_chunk
    (EVAL_DIR : jsstring) (from : stream) (cs : list jsstring)
    (p : Process) (proc : nat) :
  halted p = false ->
  sclangProc (vars p) = Some proc ->
  let p' := final EVAL_DIR (outputs from cs) p in
  halted p' = false
  /\ startupSent (vars p')
     = startupSent (vars p)
       || existsb (fun raw => includes raw compile_marker) cs
  /\ sclangAlive (vars p')
     = sclangAlive (vars p)
       || existsb (fun raw => includes raw boot_marker) cs.
Proof.
  revert p. induction cs as [|raw cs IH]; intros p Hh Hproc.
  - cbn. rewrite !orb_false_r. auto.
  - cbn [outputs map]. fold (outputs from cs). cbv zeta. rewrite final_cons.
    destruct (step_output_live EVAL_DIR p from raw proc Hh Hproc)
      as (Hh1 & Hproc1 & Hsent1 & Halive1).
    destruct (IH _ Hh1 Hproc1) as (Hh2 & Hsent2 & Halive2).
    cbv zeta in Hh2, Hsent2, Halive2.
    rewrite Hsent2, Halive2, Hsent1, Halive1.
    cbn [existsb]. rewrite !orb_assoc. auto.
Qed.

(** ** Staging file names *)

Lemma digits_of_uint_inj (d1 d2 : Decimal.uint) :
  digits_of_uint d1 = digits_of_uint d2 -> d1 = d2.
Proof.
  revert d2. induction d1; destruct d2; cbn [digits_of_uint]; intros H;
    try reflexivity; try discriminate H;
    injection H as H; f_equal; auto.
Qed.

Lemma dec_inj (a b : N) : dec a = dec b -> a = b.
Proof.
  intros H. apply digits_of_uint_inj in H.
  now apply DecimalN.Unsigned.to_uint_inj.
Qed.

Lemma digits_of_uint_digit (d : Decimal.uint) (c : N) :
  In c (digits_of_uint d) -> is_digit c = true.
Proof.
  induction d; cbn [digits_of_uint In]; intros H;
    try contradiction; destruct H as [<-|H]; auto.
Qed.

Lemma dec_no (c : N) (n : N) : is_digit c = false -> ~ In c (dec n).
Proof.
  intros Hc Hin. apply digits_of_uint_digit in Hin. congruence.
Qed.

Lemma split_at_first (x : N) (l1 l2 r1 r2 : jsstring) :
  ~ In x l1 -> ~ In x l2 ->
  l1 ++ x :: r1 = l2 ++ x :: r2 -> l1 = l2 /\ r1 = r2.
Proof.
  revert l2. induction l1 as [|a l1 IH]; intros [|b l2] H1 H2 E; cbn in *.
  - injection E as E. auto.
  - injection E as -> _. tauto.
  - injection E as -> _. tauto.
  - injection E as -> E.
    destruct (IH l2) as [-> ->]; auto.
Qed.

Lemma eval_basename_inj (n1 c1 n2 c2 : N) :
  eval_basename n1 c1 = eval_basename n2 c2 -> n1 = n2 /\ c1 = c2.
Proof.
  unfold eval_basename. intros H.
  apply app_inv_head in H.
  change (lit "_") with [95] in H. cbn [app] in H.
  apply split_at_first in H; try (apply dec_no; reflexivity).
  destruct H as [Hn Hc].
  apply app_inv_tail in Hc.
  split; apply dec_inj; assumption.
Qed.

Lemma eval_basename_proper (now c : N) : proper_segment (eval_basename now c).
Proof.
  unfold proper_segment, eval_basename. repeat split.
  - discriminate.
  - rewrite !in_app_iff. intros [H|[H|[H|[H|H]]]].
    + cbn in H. intuition discriminate.
    + revert H. apply dec_no. reflexivity.
    + cbn in H. intuition discriminate.
    + revert H. apply dec_no. reflexivity.
    + cbn in H. intuition discriminate.
Qed.

Lemma split_slash_cons (s : jsstring) :
  exists seg segs, split_slash s = seg :: segs.
Proof.
  induction s as [|c s (seg & segs & IH)]; cbn [split_slash].
  - eauto.
  - destruct (c =? 47); [eauto|]. rewrite IH. eauto.
Qed.

Lemma split_slash_app (a b : jsstring) :
  split_slash (a ++ 47 :: b) = split_slash a ++ split_slash b.
Proof.
  induction a as [|c a IH]; cbn [app split_slash].
  - reflexivity.
  - rewrite IH. destruct (c =? 47); [reflexivity|].
    destruct (split_slash_cons a) as (seg & segs & ->). reflexivity.
Qed.

Lemma split_slash_plain (s : jsstring) :
  ~ In 47 s -> split_slash s = [s].
Proof.
  induction s as [|c s IH]; intros H; cbn [split_slash]; [reflexivity|].
  destruct (c =? 47) eqn:E.
  - apply N.eqb_eq in E. subst c. cbn in H. tauto.
  - rewrite IH; [reflexivity|]. cbn in H. tauto.
Qed.

Lemma norm_step_proper (allow : bool) (stack : list jsstring) (seg : jsstring) :
  proper_segment seg -> norm_step allow stack seg = seg :: stack.
Proof.
  intros (Hne & Hdot & Hdd & _). unfold norm_step.
  destruct seg; [congruence|]. now rewrite Hdot, Hdd.
Qed.

Lemma join_slash_snoc (l : list jsstring) (seg : jsstring) :
  join_slash (l ++ [seg])
    = match l with [] => seg | _ => join_slash l ++ 47 :: seg end.
Proof.
  induction l as [|a l IH]; [reflexivity|].
  cbn [app]. destruct l as [|a' l].
  - reflexivity.
  - cbn [app join_slash] in *. rewrite IH. now rewrite <- app_assoc.
Qed.

Lemma ends_with_slash_proper (pre seg : jsstring) :
  proper_segment seg -> ends_with_slash (pre ++ seg) = false.
Proof.
  intros (Hne & _ & _ & Hno). unfold ends_with_slash.
  rewrite rev_app_distr.
  destruct (rev seg) as [|c r] eqn:E.
  - apply (f_equal (@rev N)) in E. rewrite rev_involutive in E. now subst.
  - cbn [app]. apply N.eqb_neq. intros ->. apply Hno.
    apply in_rev. rewrite E. now left.
Qed.

(** Joining a directory and a proper segment puts the segment last,
    behind a prefix that the directory alone determines. *)
Lemma path_join_proper (dir : jsstring) :
  exists pre, forall seg, proper_segment seg -> path_join dir seg = pre ++ seg.
Proof.
  destruct dir as [|d dir].
  - exists []. intros seg Hseg.
    pose proof Hseg as (Hne & Hdot & Hdd & Hno).
    destruct seg as [|c seg]; [congruence|].
    cbn [path_join app]. unfold path_normalize, normalizeString, norm_segments.
    rewrite (split_slash_plain _ Hno). cbn [fold_left].
    rewrite norm_step_proper by assumption. cbn [rev app join_slash].
    pose proof (ends_with_slash_proper [] _ Hseg) as Hend.
    cbn [app] in Hend. rewrite Hend.
    cbn [is_absolute]. destruct (c =? 47) eqn:E; [|reflexivity].
    apply N.eqb_eq in E. subst c. cbn in Hno. tauto.
  - set (D := d :: dir).
    exists ((if is_absolute D then [47] else [])
            ++ match rev (fold_left (norm_step (negb (is_absolute D)))
                            (split_slash D) []) with
               | [] => []
               | l => join_slash l ++ [47]
               end).
    intros seg Hseg.
    pose proof Hseg as (Hne & Hdot & Hdd & Hno).
    destruct seg as [|c seg]; [congruence|].
    unfold path_join. subst D. cbv iota.
    unfold path_normalize. cbn [app]. cbv iota.
    change (d :: dir ++ 47 :: c :: seg) with ((d :: dir) ++ 47 :: c :: seg).
    set (D := d :: dir).
    replace (is_absolute (D ++ 47 :: c :: seg)) with (is_absolute D)
      by reflexivity.
    unfold normalizeString, norm_segments.
    rewrite split_slash_app, (split_slash_plain _ Hno), fold_left_app.
    cbn [fold_left]. rewrite norm_step_proper by assumption.
    cbn [rev]. rewrite join_slash_snoc.
    replace (D ++ 47 :: c :: seg) with ((D ++ [47]) ++ c :: seg)
      by (rewrite <- app_assoc; reflexivity).
    rewrite ends_with_slash_proper by assumption.
    destruct (rev (fold_left (norm_step (negb (is_absolute D)))
                     (split_slash D) [])) as [|a l].
    + cbn [app]. now destruct (is_absolute D).
    + destruct (join_slash (a :: l) ++ 47 :: c :: seg) eqn:E.
      * destruct (join_slash (a :: l)); discriminate E.
      * rewrite <- E. destruct (is_absolute D); cbn [app];
          now rewrite <- app_assoc.
Qed.

Lemma staging_file_inj (EVAL_DIR : jsstring) (n1 c1 n2 c2 : N) :
  path_join EVAL_DIR (eval_basename n1 c1)
    = path_join EVAL_DIR (eval_basename n2 c2) ->
  c1 = c2.
Proof.
  destruct (path_join_proper EVAL_DIR) as [pre Hpre].
  rewrite !Hpre by apply eval_basename_proper.
  intros H. apply app_inv_head in H.
  now apply eval_basename_inj in H.
Qed.

Lemma files_written_app (xs ys : list effect) :
  files_written (xs ++ ys) = files_written xs ++ files_written ys.
Proof.
  induction xs as [|x xs IH]; [reflexivity|].
  destruct x; cbn [app files_written]; now rewrite IH.
Qed.

Lemma handleOutput_files (from : stream) (raw : jsstring) (b : Bridge) :
  files_written (snd (handleOutput from raw b)) = []
  /\ evalCounter (snd (fst (handleOutput from raw b))) = evalCounter b.
Proof.
  rewrite handleOutput_spec.
  destruct (output_throws raw b); cbn [fst snd].
  - split; [reflexivity|now destruct b].
  - split; [|now destruct b].
    rewrite !files_written_app.
    destruct (negb (startupSent b) && includes raw compile_marker),
      (sclangProc b),
      (negb (sclangAlive b) && includes raw boot_marker),
      (sanitize raw); reflexivity.
Qed.

(** One step writes at most one staging file; if it does, the file is
    the one the counter names and the counter moves on. *)
Lemma step_files (EVAL_DIR : jsstring) (p : Process) (ev : event) :
  let c := evalCounter (vars p) in
  let c' := evalCounter (vars (fst (step EVAL_DIR p ev))) in
  let out := files_written (snd (step EVAL_DIR p ev)) in
  (c' = c /\ out = [])
  \/ (c' = js_incr c
      /\ (out = []
          \/ exists now, out = [path_join EVAL_DIR (eval_basename now c)])).
Proof.
  unfold step. destruct (halted p); cbn [fst snd]; [left; auto|].
  destruct p as [b h]. cbn [vars].
  destruct ev as [from raw|c s|cb spn|ws ip|ws parsed now disk|ws rs|ws|src]; cbn [dispatch].
  - destruct (handleOutput_files from raw b) as [Hf Hc].
    destruct (handleOutput from raw b) as [[[u|e] b'] out];
      cbn [fst snd vars] in *; left; rewrite ?files_written_app, Hf; auto.
  - left. now destruct b.
  - left. destruct cb, spn; now destruct b.
  - left. now destruct b.
  - destruct (on_message_frame EVAL_DIR ws parsed now disk b)
      as (c & out & -> & _ & _ & _ & [[-> Hf]|[-> [Hf|Hf]]]);
      cbn [fst snd vars]; rewrite Hf; destruct b; cbn; eauto.
  - left. now destruct b.
  - left. now destruct b.
  - left. now destruct b.
Qed.

Lemma run_files (EVAL_DIR : jsstring) (evs : list event) (p : Process) :
  evalCounter (vars p) + N.of_nat (length evs) <= max_safe ->
  evalCounter (vars p) <= evalCounter (vars (final EVAL_DIR evs p))
  /\ NoDup (files_written (trace EVAL_DIR evs p))
  /\ Forall (fun f => exists now k,
               evalCounter (vars p) <= k
               /\ k < evalCounter (vars (final EVAL_DIR evs p))
               /\ f = path_join EVAL_DIR (eval_basename now k))
       (files_written (trace EVAL_DIR evs p)).
Proof.
  revert p. induction evs as [|ev evs IH]; intros p Hbound.
  - cbn. repeat split; [lia|constructor|constructor].
  - rewrite final_cons, trace_cons, files_written_app.
    cbn [length] in Hbound. rewrite Nat2N.inj_succ in Hbound.
    assert (Hinc : js_incr (evalCounter (vars p)) = evalCounter (vars p) + 1).
    { unfold js_incr. destruct (N.ltb_spec (evalCounter (vars p)) max_safe); lia. }
    pose proof (step_files EVAL_DIR p ev) as Hstep. cbv zeta in Hstep.
    rewrite Hinc in Hstep.
    set (p1 := fst (step EVAL_DIR p ev)) in *.
    assert (Hb1 : evalCounter (vars p1) + N.of_nat (length evs) <= max_safe)
      by (destruct Hstep as [[-> _]|[-> _]]; lia).
    destruct (IH p1 Hb1) as (Hle & Hnd & Hall).
    assert (Hall' : Forall (fun f => exists now k,
               evalCounter (vars p) <= k
               /\ k < evalCounter (vars (final EVAL_DIR evs p1))
               /\ f = path_join EVAL_DIR (eval_basename now k))
              (files_written (trace EVAL_DIR evs p1))).
    { eapply Forall_impl; [|exact Hall].
      intros f (now & k & H1 & H2 & ->). exists now, k.
      repeat split; auto. destruct Hstep as [[E _]|[E _]]; lia. }
    destruct Hstep as [[E ->]|[E [->|[now ->]]]]; cbn [app].
    + repeat split; auto. lia.
    + repeat split; auto. lia.
    + repeat split; [lia| |].
      * constructor; [|assumption].
        intros Hin. rewrite Forall_forall in Hall.
        destruct (Hall _ Hin) as (now' & k & H1 & _ & Heq).
        apply staging_file_inj in Heq. lia.
      * constructor; [|assumption].
        exists now, (evalCounter (vars p)). repeat split; lia.
Qed.

(** C8.  The staging files written along any run of the bridge have
    pairwise distinct names, whatever [Date.now()] returns for each
    request, as long as the run is short enough for the counter to stay
    within the integers a JavaScript number counts exactly. *)
Theorem staging_names_distinct (EVAL_DIR : jsstring) (evs : list event) :
  N.of_nat (length evs) <= max_safe ->
  NoDup (files_written (trace EVAL_DIR evs loaded)).
Proof.
  intros Hlen.
  apply (run_files EVAL_DIR evs loaded).
  change (evalCounter (vars loaded)) with 0. lia.
Qed.

(** ** Connections *)

Lemma sent_to_app (ws : nat) (xs ys : list effect) :
  sent_to ws (xs ++ ys) = sent_to ws xs ++ sent_to ws ys.
Proof.
  induction xs as [|x xs IH]; [reflexivity|].
  destruct x; cbn [app sent_to]; rewrite ?IH; try reflexivity.
  - now destruct (Nat.eqb ws0 ws).
  - now destruct (existsb (Nat.eqb ws) to).
Qed.

Lemma not_open (ws : nat) (cl : list (nat * N)) :
  ~ In ws (map fst cl) -> existsb (Nat.eqb ws) (open_sockets cl) = false.
Proof.
  intros Hnot. unfold open_sockets.
  induction cl as [|[w rs] cl IH]; [reflexivity|].
  cbn [filter snd]. cbn [map fst In] in Hnot.
  destruct (rs =? OPEN); cbn [map fst existsb].
  - rewrite IH by tauto.
    replace (Nat.eqb ws w) with false; [reflexivity|].
    symmetry. apply Nat.eqb_neq. intros ->. tauto.
  - apply IH. tauto.
Qed.

Lemma step_connection (EVAL_DIR : jsstring) (p : Process) (ws : nat)
    (ip : jsstring) :
  halted p = false ->
  step EVAL_DIR p (Connection ws ip) =
    ({| vars := set_clients (clients_add ws (clients (vars p))) (vars p);
        halted := false |},
     [ConsoleLog (lit "[bridge] Client connected from " ++ ip ++ lit " ("
                    ++ size_text (clients_add ws (clients (vars p)))
                    ++ lit " total)");
      WsSend ws (Status (sclangAlive (vars p)))]).
Proof.
  intros H. unfold step. rewrite H. destruct p as [b h]. cbn [vars].
  destruct b; reflexivity.
Qed.

(** An event that does not concern a socket outside the set sends it
    nothing and leaves it outside. *)
Lemma step_unnamed (EVAL_DIR : jsstring) (ws : nat) (p : Process) (ev : event) :
  names_socket ws ev = false ->
  ~ In ws (map fst (clients (vars p))) ->
  sent_to ws (snd (step EVAL_DIR p ev)) = []
  /\ ~ In ws (map fst (clients (vars (fst (step EVAL_DIR p ev))))).
Proof.
  intros Hev Hnot. unfold step.
  destruct (halted p); cbn [fst snd]; [auto|].
  destruct p as [b h]. cbn [vars] in *.
  pose proof (not_open ws (clients b) Hnot) as Hopen.
  destruct ev as [from raw|c s|cb spn|w ip|w parsed now disk|w rs|w|src]; cbn [dispatch].
  - rewrite handleOutput_spec.
    destruct (output_throws raw b); cbn [fst snd vars].
    + split; [reflexivity|now destruct b].
    + split; [|now destruct b].
      rewrite !sent_to_app.
      destruct (negb (startupSent b) && includes raw compile_marker),
        (sclangProc b),
        (negb (sclangAlive b) && includes raw boot_marker),
        (sanitize raw); cbn [sent_to app compiled_log booted_log];
        rewrite ?Hopen; reflexivity.
  - destruct b; cbn in *. rewrite Hopen. auto.
  - destruct cb, spn; destruct b; cbn in *; auto.
  - cbn [names_socket] in Hev. destruct b as [proc alive sent ctr cl sp].
    cbn in *. rewrite Hev. split; [reflexivity|].
    unfold clients_add. destruct (existsb _ cl); [assumption|].
    rewrite map_app, in_app_iff. cbn. intros [H|[H|[]]]; [tauto|].
    apply Nat.eqb_neq in Hev. congruence.
  - cbn [names_socket] in Hev. apply Nat.eqb_neq in Hev.
    destruct (on_message_frame EVAL_DIR w parsed now disk b)
      as (c & out & -> & _ & _ & Hsent & _).
    cbn [fst snd vars]. split; [apply Hsent; congruence|now destruct b].
  - destruct b as [proc alive sent ctr cl sp]. cbn in *.
    split; [reflexivity|]. unfold clients_set_state.
    rewrite map_map. intros Hin. apply in_map_iff in Hin as ([w' rs'] & E & Hin).
    cbn [fst] in E. destruct (Nat.eqb w' w) eqn:Ew.
    + cbn in E. apply Nat.eqb_neq in Hev. congruence.
    + cbn in E. subst w'. apply Hnot. apply in_map_iff.
      exists (ws, rs'). auto.
  - destruct b as [proc alive sent ctr cl sp]. cbn in *.
    split; [reflexivity|]. unfold clients_delete.
    intros Hin. apply in_map_iff in Hin as ([w' rs'] & E & Hin).
    apply filter_In in Hin as [Hin _]. apply Hnot. apply in_map_iff.
    exists (w', rs'). auto.
  - destruct b; cbn in *; auto.
Qed.

Lemma run_unnamed (EVAL_DIR : jsstring) (ws : nat) (evs : list event)
    (p : Process) :
  forallb (fun ev => negb (names_socket ws ev)) evs = true ->
  ~ In ws (map fst (clients (vars p))) ->
  sent_to ws (trace EVAL_DIR evs p) = []
  /\ ~ In ws (map fst (clients (vars (final EVAL_DIR evs p)))).
Proof.
  revert p. induction evs as [|ev evs IH]; intros p Hevs Hnot.
  - cbn. auto.
  - cbn [forallb] in Hevs. apply andb_true_iff in Hevs as [Hev Hevs].
    apply negb_true_iff in Hev.
    rewrite trace_cons, final_cons, sent_to_app.
    destruct (step_unnamed EVAL_DIR ws p ev Hev Hnot) as [-> Hnot1].
    apply IH; assumption.
Qed.

(** C7.  Let socket [ws] connect after any events [pre] that do not
    concern it, with the bridge still running.  Nothing was sent to it
    before; the connection handler sends it exactly one message, the
    status whose [connected] is [sclangAlive] at that moment, and sends
    nothing to any other socket; so that status heads everything [ws]
    is ever sent, with no earlier post replayed. *)
Theorem first_message_is_status
    (EVAL_DIR : jsstring) (pre post : list event) (ws : nat) (ip : jsstring) :
  forallb (fun ev => negb (names_socket ws ev)) pre = true ->
  halted (final EVAL_DIR pre loaded) = false ->
  let p := final EVAL_DIR pre loaded in
  let connect := step EVAL_DIR p (Connection ws ip) in
  sent_to ws (trace EVAL_DIR pre loaded) = []
  /\ sent_to ws (snd connect) = [Status (sclangAlive (vars p))]
  /\ (forall other, other <> ws -> sent_to other (snd connect) = [])
  /\ sent_to ws (trace EVAL_DIR (pre ++ Connection ws ip :: post) loaded)
     = Status (sclangAlive (vars p))
       :: sent_to ws (trace EVAL_DIR post (fst connect)).
Proof.
  intros Hpre Hrun p connect.
  destruct (run_unnamed EVAL_DIR ws pre loaded Hpre) as [Hnone _].
  { cbn. tauto. }
  assert (Hc : snd connect
               = [ConsoleLog (lit "[bridge] Client connected from " ++ ip
                    ++ lit " (" ++ size_text (clients_add ws (clients (vars p)))
                    ++ lit " total)");
                  WsSend ws (Status (sclangAlive (vars p)))]).
  { unfold connect. now rewrite step_connection. }
  split; [exact Hnone|]. split; [|split].
  - rewrite Hc. cbn [sent_to]. now rewrite Nat.eqb_refl.
  - intros other Hne. rewrite Hc. cbn [sent_to].
    replace (Nat.eqb ws other) with false; [reflexivity|].
    symmetry. apply Nat.eqb_neq. congruence.
  - rewrite trace_app, sent_to_app, Hnone, trace_cons, sent_to_app.
    fold p. fold connect. rewrite Hc. cbn [sent_to app].
    now rewrite Nat.eqb_refl.
Qed.

(** One step of a run in which chunks arrive only while a child handle
    is installed keeps an alive bridge with its child. *)
Lemma step_alive_has_child (EVAL_DIR : jsstring) (p : Process) (ev : event) :
  match ev, sclangProc (vars p) with
  | Output _ _, None => false
  | _, _ => true
  end = true ->
  (sclangAlive (vars p) = true -> sclangProc (vars p) <> None) ->
  sclangAlive (vars (fst (step EVAL_DIR p ev))) = true ->
  sclangProc (vars (fst (step EVAL_DIR p ev))) <> None.
Proof.
  intros Hev Hinv.
  destruct (halted p) eqn:Hh; [now rewrite step_halted|].
  destruct ev as [from raw|c s|cb spn|ws ip|ws parsed now disk|ws rs|ws|src].
  - destruct (sclangProc (vars p)) as [proc|] eqn:Hproc; [|discriminate].
    destruct (step_output_live EVAL_DIR p from raw proc Hh Hproc)
      as (_ & -> & _). discriminate.
  - rewrite step_exit by assumption. cbn. discriminate.
  - unfold step. rewrite Hh. destruct cb, spn; cbn; try discriminate;
      destruct (vars p); cbn in *; auto.
  - rewrite step_connection by assumption.
    destruct (vars p); cbn in *; auto.
  - unfold step. rewrite Hh. cbn [dispatch].
    destruct (on_message_frame EVAL_DIR ws parsed now disk (vars p))
      as (c & out & -> & _).
    destruct (vars p); cbn in *; auto.
  - unfold step. rewrite Hh. destruct (vars p); cbn in *; auto.
  - unfold step. rewrite Hh. destruct (vars p); cbn in *; auto.
  - unfold step. rewrite Hh. destruct (vars p); cbn in *; auto.
Qed.

(** Along a run in which chunks arrive only while a child handle is
    installed, an alive bridge always has its child. *)
Lemma orderly_alive_has_child (EVAL_DIR : jsstring) (evs : list event)
    (p : Process) :
  orderly EVAL_DIR evs p = true ->
  (sclangAlive (vars p) = true -> sclangProc (vars p) <> None) ->
  sclangAlive (vars (final EVAL_DIR evs p)) = true ->
  sclangProc (vars (final EVAL_DIR evs p)) <> None.
Proof.
  revert p. induction evs as [|ev evs IH]; intros p Hord Hinv.
  - cbn. auto.
  - cbn [orderly] in Hord. apply andb_true_iff in Hord as [Hev Hord].
    rewrite final_cons. apply IH; [assumption|].
    now apply step_alive_has_child.
Qed.

(** From load time on: as long as chunks arrive only while a child
    handle is installed, the bridge is alive only with a child to write
    to. *)
Lemma alive_has_child (EVAL_DIR : jsstring) (evs : list event) :
  orderly EVAL_DIR evs loaded = true ->
  sclangAlive (vars (final EVAL_DIR evs loaded)) = true ->
  exists proc, sclangProc (vars (final EVAL_DIR evs loaded)) = Some proc.
Proof.
  intros Hord Halive.
  pose proof (orderly_alive_has_child EVAL_DIR evs loaded Hord) as Hinv.
  destruct (sclangProc (vars (final EVAL_DIR evs loaded))) as [proc|];
    [eauto|].
  exfalso. apply Hinv; [discriminate|assumption|reflexivity].
Qed.

(** ** The sanitizer *)

Lemma subsequence_refl (s : jsstring) : subsequence s s.
Proof. induction s; constructor; assumption. Qed.

Lemma subsequence_trans (a b c : jsstring) :
  subsequence a b -> subsequence b c -> subsequence a c.
Proof.
  intros Hab Hbc. revert a Hab.
  induction Hbc as [|x b c Hbc IH|x b c Hbc IH]; intros a Hab.
  - assumption.
  - inversion Hab; subst.
    + apply sub_keep. auto.
    + apply sub_drop. auto.
  - apply sub_drop. auto.
Qed.

Lemma replace_bol_subsequence (m : jsstring -> option nat) (s : jsstring) :
  forall skip bol, subsequence (replace_bol m skip bol s) s.
Proof.
  induction s as [|c r IH]; intros skip bol; cbn [replace_bol].
  - constructor.
  - destruct skip as [|k].
    + destruct (if bol then m (c :: r) else None) as [[|k]|].
      * apply sub_keep, IH.
      * apply sub_drop, IH.
      * apply sub_keep, IH.
    + apply sub_drop, IH.
Qed.

Lemma strip_internal_subsequence (s : jsstring) :
  subsequence (strip_internal s) s.
Proof.
  unfold strip_internal, remove_at_line_starts.
  repeat (eapply subsequence_trans; [apply replace_bol_subsequence|]).
  apply subsequence_refl.
Qed.

Lemma replace_cr_no_cr (s : jsstring) : ~ In 13 (replace_cr s).
Proof.
  unfold replace_cr. intros H. apply in_map_iff in H as (c & E & _).
  destruct (c =? 13) eqn:Ec; [discriminate|].
  apply N.eqb_neq in Ec. congruence.
Qed.

Lemma replace_bol_id (m : jsstring -> option nat) (s : jsstring) :
  forall bol, no_match m bol s = true -> replace_bol m 0 bol s = s.
Proof.
  induction s as [|c r IH]; intros bol H; cbn [replace_bol no_match] in *.
  - reflexivity.
  - apply andb_true_iff in H as [Hm Hr].
    destruct bol.
    + destruct (m (c :: r)) as [[|k]|]; try discriminate; now rewrite IH.
    + now rewrite IH.
Qed.

Lemma replace_crlf_id (s : jsstring) :
  forallb (fun c => negb (c =? 13)) s = true -> replace_crlf s = s.
Proof.
  induction s as [|c r IH]; intros H; [reflexivity|].
  cbn [forallb] in H. apply andb_true_iff in H as [Hc Hr].
  cbn [replace_crlf]. apply negb_true_iff in Hc. rewrite Hc. cbn [andb].
  destruct r; [reflexivity|]. now rewrite IH.
Qed.

Lemma replace_cr_id (s : jsstring) :
  forallb (fun c => negb (c =? 13)) s = true -> replace_cr s = s.
Proof.
  unfold replace_cr. induction s as [|c r IH]; intros H; [reflexivity|].
  cbn [forallb] in H. apply andb_true_iff in H as [Hc Hr].
  cbn [map]. apply negb_true_iff in Hc. rewrite Hc. now rewrite IH.
Qed.

Lemma sanitize_residue_free (t : jsstring) :
  residue_free t = true -> sanitize t = t.
Proof.
  unfold residue_free. intros H.
  apply andb_true_iff in H as [H H4]. apply andb_true_iff in H as [H H3].
  apply andb_true_iff in H as [H H2]. apply andb_true_iff in H as [H0 H1].
  unfold sanitize, strip_internal, remove_at_line_starts.
  rewrite (replace_bol_id _ _ _ H1), (replace_bol_id _ _ _ H2),
    (replace_bol_id _ _ _ H3), (replace_bol_id _ _ _ H4).
  rewrite replace_crlf_id, replace_cr_id by assumption. reflexivity.
Qed.

(** *** Output made of whole lines *)

Lemma startsWith_line (l p rest : jsstring) :
  startsWith l p = false -> ~ In 10 p ->
  startsWith (l ++ 10 :: rest) p = false.
Proof.
  revert l. induction p as [|y p IH]; intros l H Hp; [discriminate|].
  destruct l as [|x l]; cbn [app startsWith] in *.
  - replace (10 =? y) with false; [reflexivity|].
    symmetry. apply N.eqb_neq. intros E. apply Hp. left. now symmetry.
  - destruct (x =? y); [|reflexivity]. cbn [andb] in *.
    apply IH; [assumption|]. intros Hin. apply Hp. now right.
Qed.

Lemma startsWith_shorter (s a b : jsstring) :
  startsWith s a = false -> startsWith s (a ++ b) = false.
Proof.
  revert s. induction a as [|y a IH]; intros s H; [discriminate|].
  destruct s as [|x s]; cbn [app startsWith] in *; [reflexivity|].
  destruct (x =? y); [|reflexivity]. cbn [andb] in *. auto.
Qed.

Lemma count_while_stop (f : N -> bool) (X : jsstring) (c : N) (r : jsstring) :
  forallb f X = true -> f c = false ->
  count_while f (X ++ c :: r) = length X.
Proof.
  intros HX Hc. induction X as [|x X IH]; cbn [app count_while length].
  - now rewrite Hc.
  - cbn [forallb] in HX. apply andb_true_iff in HX as [Hx HX].
    rewrite Hx. now rewrite IH.
Qed.

Lemma count_while_firstn (f : N -> bool) (s : jsstring) :
  forallb f (firstn (count_while f s) s) = true.
Proof.
  induction s as [|c s IH]; [reflexivity|].
  cbn [count_while]. destruct (f c) eqn:E; [|reflexivity].
  cbn [firstn forallb]. now rewrite E.
Qed.

Lemma skipn_exact (a b : jsstring) : skipn (length a) (a ++ b) = b.
Proof. induction a; [reflexivity|assumption]. Qed.

Lemma firstn_exact (a b : jsstring) : firstn (length a) (a ++ b) = a.
Proof. induction a as [|x a IH]; [reflexivity|]. cbn. now rewrite IH. Qed.

(** A whole echo line is taken with its line feed, whatever follows. *)
Lemma load_echo_taken (prefix stem l rest : jsstring) :
  is_load_echo prefix stem l = true ->
  match_load prefix stem (l ++ 10 :: rest) = Some (S (length l)).
Proof.
  unfold is_load_echo. intros H.
  apply andb_true_iff in H as [Hp H]. cbv zeta in H.
  apply andb_true_iff in H as [Hstem Hclose].
  apply startsWith_app in Hp as [mid ->].
  rewrite skipn_exact in *. apply str_eqb_eq in Hclose.
  set (X := firstn (count_while not_quote mid) mid) in *.
  assert (HX : forallb not_quote X = true) by apply count_while_firstn.
  assert (Hmid : mid = X ++ 34 :: lit ");").
  { rewrite <- Hclose. symmetry. apply firstn_skipn. }
  clearbody X. subst mid. clear Hclose.
  unfold match_load.
  rewrite <- !app_assoc.
  replace (startsWith (prefix ++ X ++ (34 :: lit ");") ++ 10 :: rest) prefix)
    with true by (symmetry; apply startsWith_app; eauto).
  rewrite skipn_exact. cbn [app].
  rewrite (count_while_stop not_quote X 34) by (assumption || reflexivity).
  rewrite firstn_exact, skipn_exact, Hstem.
  change (lit ");") with [41; 59].
  cbn [app andb startsWith skipn opt_newline]. rewrite !N.eqb_refl.
  cbn [andb]. f_equal. rewrite !length_app. cbn [length]. lia.
Qed.

(** One pass over whole lines, each of which the pattern takes with its
    line feed or does not match at all, drops the lines it takes. *)
Lemma replace_bol_drop (m : jsstring -> option nat) (l rest : jsstring)
    (bol : bool) :
  replace_bol m (S (length l)) bol (l ++ 10 :: rest) = replace_bol m 0 true rest.
Proof.
  revert bol. induction l as [|c l IH]; intros bol; cbn [app length replace_bol].
  - reflexivity.
  - apply IH.
Qed.

Lemma replace_bol_line (m : jsstring -> option nat) (l rest : jsstring) :
  one_line l = true ->
  replace_bol m 0 false (l ++ 10 :: rest) = l ++ 10 :: replace_bol m 0 true rest.
Proof.
  induction l as [|c l IH]; intros H; cbn [app replace_bol].
  - reflexivity.
  - cbn [one_line forallb] in H. apply andb_true_iff in H as [Hc Hl].
    apply negb_true_iff in Hc. rewrite Hc. f_equal. now apply IH.
Qed.

Lemma pass_lines (m : jsstring -> option nat) (keep : jsstring -> bool)
    (ls : list jsstring) :
  (forall l, In l ls ->
     one_line l = true
     /\ forall rest,
          m (l ++ 10 :: rest) = if keep l then None else Some (S (length l))) ->
  remove_at_line_starts m (unlines ls) = unlines (filter keep ls).
Proof.
  unfold remove_at_line_starts, unlines.
  induction ls as [|l ls IH]; intros H; [reflexivity|].
  cbn [map concat filter]. rewrite <- app_assoc. cbn [app].
  destruct (H l (or_introl eq_refl)) as [Hl Hm].
  specialize (IH (fun l' Hin => H l' (or_intror Hin))).
  set (rest := concat (map (fun l0 => l0 ++ [10]) ls)) in *.
  specialize (Hm rest).
  destruct l as [|c l].
  - cbn [app replace_bol] in *. rewrite Hm.
    change (is_line_terminator 10) with true.
    destruct (keep []); cbn [length]; rewrite IH; reflexivity.
  - cbn [app replace_bol] in *. rewrite Hm.
    cbn [one_line forallb] in Hl. apply andb_true_iff in Hl as [Hc Hl].
    apply negb_true_iff in Hc.
    destruct (keep (c :: l)); cbn [length].
    + rewrite Hc, replace_bol_line, IH by assumption.
      cbn [map concat]. rewrite <- app_assoc. reflexivity.
    + rewrite replace_bol_drop. exact IH.
Qed.

Lemma match_load_skipped (prefix stem l rest : jsstring) :
  startsWith l prefix = false -> ~ In 10 prefix ->
  match_load prefix stem (l ++ 10 :: rest) = None.
Proof.
  intros H Hp. unfold match_load. now rewrite startsWith_line.
Qed.

Lemma no_cr_in_lines (ls : list jsstring) :
  forallb one_line ls = true ->
  forallb (fun c => negb (c =? 13)) (unlines ls) = true.
Proof.
  unfold unlines. induction ls as [|l ls IH]; intros H; [reflexivity|].
  cbn [forallb] in H. apply andb_true_iff in H as [Hl Hls].
  cbn [map concat]. rewrite !forallb_app, IH by assumption.
  rewrite andb_true_r. cbn [forallb]. rewrite andb_true_r.
  unfold one_line in Hl. rewrite forallb_forall in Hl |- *.
  intros c Hc. specialize (Hl c Hc).
  apply negb_true_iff in Hl. apply negb_true_iff.
  unfold is_line_terminator in Hl.
  repeat (apply orb_false_iff in Hl as [Hl ?]). assumption.
Qed.

(** On whole lines that are echoes or begin like nothing internal,
    [sanitize] drops the echoes and keeps the rest as it is. *)
Lemma sanitize_lines (ls : list jsstring) :
  forallb echo_or_plain ls = true ->
  sanitize (unlines ls) = unlines (filter (fun l => negb (is_echo l)) ls).
Proof.
  intros H. rewrite forallb_forall in H.
  assert (Hcls : forall l, In l ls ->
            one_line l = true
            /\ (is_echo l = true \/ starts_internal l = false)).
  { intros l Hin. specialize (H l Hin). unfold echo_or_plain in H.
    apply andb_true_iff in H as [H1 H2]. split; [assumption|].
    apply orb_true_iff in H2 as [H2|H2]; [now left|right].
    now apply negb_true_iff. }
  clear H.
  assert (Hprefix : forall l, starts_internal l = false ->
            startsWith l (lit "sc3>") = false
            /\ startsWith l load_prefix = false
            /\ startsWith l load_eval_prefix = false
            /\ startsWith l (lit "CmdPeriod.run;") = false).
  { intros l Hl. unfold starts_internal in Hl.
    apply orb_false_iff in Hl as [Hl H3]. apply orb_false_iff in Hl as [H1 H2].
    repeat split; try assumption.
    change load_eval_prefix with (load_prefix ++ lit "tmp/sc_eval_").
    now apply startsWith_shorter. }
  assert (Hno10 : forall p, forallb (fun c => negb (c =? 10)) p = true -> ~ In 10 p).
  { intros p Hp Hin. rewrite forallb_forall in Hp. now specialize (Hp _ Hin). }
  unfold sanitize, strip_internal.
  (* the prompt takes no line *)
  rewrite (pass_lines match_prompt (fun _ => true) ls).
  2:{ intros l Hin. destruct (Hcls l Hin) as [Hl Hc]. split; [assumption|].
      intros rest. unfold match_prompt. rewrite startsWith_line; auto.
      destruct Hc as [Hc|Hc]; [|now apply Hprefix].
      unfold is_echo in Hc.
      apply orb_true_iff in Hc as [Hc|Hc]; [apply orb_true_iff in Hc as [Hc|Hc]|].
      - apply andb_true_iff in Hc as [Hc _].
        apply startsWith_app in Hc as [r ->]. reflexivity.
      - apply andb_true_iff in Hc as [_ Hc]. apply andb_true_iff in Hc as [Hc _].
        apply startsWith_app in Hc as [r ->]. reflexivity.
      - apply str_eqb_eq in Hc. subst l. reflexivity. }
  replace (filter (fun _ => true) ls) with ls
    by (clear; induction ls; cbn; congruence).
  (* eval echoes *)
  rewrite (pass_lines match_load_eval (fun l => negb (is_eval_echo l)) ls).
  2:{ intros l Hin. destruct (Hcls l Hin) as [Hl Hc]. split; [assumption|].
      intros rest. unfold match_load_eval.
      destruct (is_eval_echo l) eqn:E2; cbn [negb].
      - now apply load_echo_taken.
      - apply match_load_skipped; [|now apply Hno10].
        destruct Hc as [Hc|Hc]; [|now apply Hprefix].
        unfold is_echo in Hc. rewrite E2 in Hc. cbn [orb] in Hc.
        apply orb_true_iff in Hc as [Hc|Hc].
        + apply andb_true_iff in Hc as [Hc _]. now apply negb_true_iff in Hc.
        + apply str_eqb_eq in Hc. subst l. reflexivity. }
  (* the startup echo *)
  rewrite (pass_lines match_load_startup (fun l => negb (is_startup_echo l))).
  2:{ intros l Hin. apply filter_In in Hin as [Hin E2].
      apply negb_true_iff in E2.
      destruct (Hcls l Hin) as [Hl Hc]. split; [assumption|].
      intros rest. unfold match_load_startup.
      destruct (is_startup_echo l) eqn:E3; cbn [negb].
      - apply load_echo_taken. unfold is_startup_echo in E3.
        now apply andb_true_iff in E3 as [_ E3].
      - apply match_load_skipped; [|now apply Hno10].
        destruct Hc as [Hc|Hc]; [|now apply Hprefix].
        unfold is_echo in Hc. rewrite E2, E3 in Hc. cbn [orb] in Hc.
        apply str_eqb_eq in Hc. subst l. reflexivity. }
  (* the stop echo *)
  rewrite (pass_lines match_cmdperiod (fun l => negb (is_stop_echo l))).
  2:{ intros l Hin. apply filter_In in Hin as [Hin E3].
      apply filter_In in Hin as [Hin E2].
      apply negb_true_iff in E2, E3.
      destruct (Hcls l Hin) as [Hl Hc]. split; [assumption|].
      intros rest. unfold match_cmdperiod.
      destruct (is_stop_echo l) eqn:E4; cbn [negb].
      - apply str_eqb_eq in E4. subst l. reflexivity.
      - rewrite startsWith_line; auto.
        destruct Hc as [Hc|Hc]; [|now apply Hprefix].
        unfold is_echo in Hc. rewrite E2, E3, E4 in Hc. discriminate. }
  (* nothing left to normalize *)
  assert (Hsame : filter (fun l => negb (is_stop_echo l))
                    (filter (fun l => negb (is_startup_echo l))
                       (filter (fun l => negb (is_eval_echo l)) ls))
                  = filter (fun l => negb (is_echo l)) ls).
  { clear. unfold is_echo. induction ls as [|l ls IH]; [reflexivity|].
    cbn [filter].
    destruct (is_eval_echo l); cbn [negb orb filter]; [assumption|].
    destruct (is_startup_echo l); cbn [negb orb filter]; [assumption|].
    destruct (is_stop_echo l); cbn [negb orb filter]; congruence. }
  rewrite Hsame.
  assert (Hcr : forallb (fun c => negb (c =? 13))
                  (unlines (filter (fun l => negb (is_echo l)) ls)) = true).
  { apply no_cr_in_lines. apply forallb_forall. intros l Hin.
    apply filter_In in Hin as [Hin _]. now apply Hcls. }
  now rewrite replace_crlf_id, replace_cr_id.
Qed.

Lemma sanitize_lines_twice (ls : list jsstring) :
  forallb echo_or_plain ls = true ->
  sanitize (sanitize (unlines ls)) = sanitize (unlines ls).
Proof.
  intros H. rewrite (sanitize_lines ls H).
  rewrite sanitize_lines.
  - f_equal. induction ls as [|l ls IH]; [reflexivity|].
    cbn [forallb] in H. apply andb_true_iff in H as [_ H].
    cbn [filter]. destruct (negb (is_echo l)) eqn:E; cbn [filter].
    + rewrite E. f_equal. auto.
    + auto.
  - apply forallb_forall. intros l Hin. apply filter_In in Hin as [Hin _].
    rewrite forallb_forall in H. auto.
Qed.

Lemma sanitize_without_cr (s : jsstring) :
  ~ In 13 (strip_internal s) -> sanitize s = strip_internal s.
Proof.
  intros H. unfold sanitize.
  assert (Hcr : forallb (fun c => negb (c =? 13)) (strip_internal s) = true).
  { apply forallb_forall. intros c Hc. apply negb_true_iff, N.eqb_neq.
    intros ->. auto. }
  now rewrite replace_crlf_id, replace_cr_id.
Qed.

(** ** The /help file server *)

Lemma split_slash_no_slash (s seg : jsstring) :
  In seg (split_slash s) -> ~ In 47 seg.
Proof.
  revert seg. induction s as [|c s IH]; intros seg; cbn [split_slash].
  - intros [<-|[]]. auto.
  - destruct (c =? 47) eqn:E.
    + intros [<-|H]; auto.
    + destruct (split_slash_cons s) as (seg0 & segs & Hs).
      rewrite Hs in *. intros [<-|H].
      * cbn [In]. intros [->|H]; [discriminate|].
        revert H. apply IH. now left.
      * apply IH. now right.
Qed.

Lemma norm_step_keeps_proper (stack : list jsstring) (seg : jsstring) :
  ~ In 47 seg ->
  Forall proper_segment stack ->
  Forall proper_segment (norm_step false stack seg).
Proof.
  intros Hno Hstack. unfold norm_step.
  destruct seg as [|c seg]; [assumption|].
  destruct (is_dot (c :: seg)) eqn:Hdot; [assumption|].
  destruct (is_dotdot (c :: seg)) eqn:Hdd.
  - destruct stack as [|top below]; [constructor|].
    destruct (is_dotdot top); [assumption|].
    now inversion Hstack.
  - constructor; [|assumption].
    repeat split; auto. discriminate.
Qed.

Lemma norm_segments_proper (path : jsstring) :
  Forall proper_segment (norm_segments false path).
Proof.
  unfold norm_segments. apply Forall_rev.
  assert (H : forall segs stack,
             (forall seg, In seg segs -> ~ In 47 seg) ->
             Forall proper_segment stack ->
             Forall proper_segment (fold_left (norm_step false) segs stack)).
  { induction segs as [|seg segs IH]; intros stack Hsegs Hstack; [assumption|].
    cbn [fold_left]. apply IH.
    - intros seg' Hin. apply Hsegs. now right.
    - apply norm_step_keeps_proper; [|assumption]. apply Hsegs. now left. }
  apply H; [|constructor].
  intros seg. apply split_slash_no_slash.
Qed.

Lemma strip_leading_slashes_relative (s : jsstring) :
  is_absolute (strip_leading_slashes s) = false.
Proof.
  induction s as [|c s IH]; [reflexivity|].
  cbn [strip_leading_slashes]. destruct (c =? 47) eqn:E; [assumption|].
  exact E.
Qed.

Lemma help_filePath_normal (cwd : jsstring) (fs : FileSystem) (url : jsstring) :
  exists segs,
    help_filePath cwd fs url = 47 :: join_slash segs
    /\ Forall proper_segment segs.
Proof.
  unfold help_filePath, path_resolve.
  rewrite strip_leading_slashes_relative.
  change (is_absolute HELP_DIR) with true. cbn [orb negb].
  change HELP_DIR with (47 :: skipn 1 HELP_DIR) at 1. cbv iota.
  eexists. split; [reflexivity|]. apply norm_segments_proper.
Qed.

(** C10.  A request whose URL does not start with [/help] gets 404 and
    reads nothing; one whose resolved path lies outside [HELP_DIR] gets
    403 and reads nothing.  Hence every path handed to [fs.readFile] is
    [HELP_DIR] or starts with [HELP_DIR/], and is normalized: it
    consists of proper segments only, none of them [.] or [..].  A 200
    response carries the contents of such a path. *)
Theorem help_requests_confined
    (cwd : jsstring) (fs : FileSystem) (url : jsstring) :
  (startsWith url (lit "/help") = false ->
     help_handler cwd fs url = {| response := not_found; fileRead := None |})
  /\ (startsWith url (lit "/help") = true ->
      inside_help (help_filePath cwd fs url) = false ->
      help_handler cwd fs url = {| response := forbidden; fileRead := None |})
  /\ (forall p, fileRead (help_handler cwd fs url) = Some p ->
        (p = HELP_DIR \/ exists rest, p = HELP_DIR ++ 47 :: rest)
        /\ exists segs, p = 47 :: join_slash segs /\ Forall proper_segment segs)
  /\ (statusCode (response (help_handler cwd fs url)) = 200 ->
      exists p data,
        fileRead (help_handler cwd fs url) = Some p
        /\ readFile fs p = Some data
        /\ body (response (help_handler cwd fs url)) = BodyData data).
Proof.
  unfold help_handler.
  destruct (startsWith url (lit "/help")) eqn:Hurl; cbn [negb].
  2:{ repeat split; discriminate. }
  destruct (inside_help (help_filePath cwd fs url)) eqn:Hin; cbn [negb].
  2:{ repeat split; discriminate. }
  split; [discriminate|]. split; [discriminate|].
  assert (Hp : (help_filePath cwd fs url = HELP_DIR
                \/ exists rest, help_filePath cwd fs url = HELP_DIR ++ 47 :: rest)
               /\ exists segs, help_filePath cwd fs url = 47 :: join_slash segs
                               /\ Forall proper_segment segs).
  { split; [|apply help_filePath_normal].
    unfold inside_help in Hin. apply orb_true_iff in Hin as [H|H].
    - right. apply startsWith_app in H as [rest H]. exists rest.
      rewrite H. now rewrite <- app_assoc.
    - left. now apply str_eqb_eq. }
  destruct (readFile fs (help_filePath cwd fs url)) as [data|] eqn:Hread;
    cbn [fileRead response statusCode body not_found].
  - split.
    + intros p [= <-]. exact Hp.
    + intros _. eauto.
  - split.
    + intros p [= <-]. exact Hp.
    + discriminate.
Qed.

(* ================================================================== *)
(** * Concrete runs                                                    *)
(* ================================================================== *)

(** After a normal boot the first child is installed and alive. *)
Example booted_state :
  vars booted
    = {| sclangProc := Some 0%nat; sclangAlive := true; startupSent := true;
         evalCounter := 0; clients := []; spawned := 1 |}
  /\ halted booted = false.
Proof. split; reflexivity. Qed.

(** The second scenario of the specification: code [1 + 1;]. *)
Lemma eval_accepted_witness :
  on_message tmp 1%nat (eval_message (lit "1 + 1;")) 1700000000000 Written
    (vars booted)
    = (Normal tt,
       set_evalCounter 1 (vars booted),
       [WriteFileSync (lit "/tmp/sc_eval_1700000000000_0.scd")
          ([40; 10] ++ lit "1 + 1;" ++ [10; 41; 10]);
        ConsoleLog (lit "[bridge] eval " ++ [8594; 32] ++ lit "load(" ++ [34]
                      ++ lit "/tmp/sc_eval_1700000000000_0.scd" ++ [34]
                      ++ lit ");");
        StdinWrite 0 (lit "load(" ++ [34]
                        ++ lit "/tmp/sc_eval_1700000000000_0.scd" ++ [34]
                        ++ lit ");" ++ [10]);
        SetTimeout (UnlinkFile (lit "/tmp/sc_eval_1700000000000_0.scd")) 15000])
  /\ on_message tmp 1%nat (eval_message (lit "1 + 1;")) 1700000000000 WriteThrows
       (vars booted)
     = (Normal tt,
        set_evalCounter 1 (vars booted),
        [ConsoleError (lit "[bridge] Bad message:") SystemError]).
Proof.
  split;
    apply (eval_accepted_when_booted tmp 1%nat
             [(lit "type", JString (lit "eval"));
              (lit "code", JString (lit "1 + 1;"))]
             (lit "1 + 1;") 1700000000000 (vars booted) 0%nat);
    reflexivity.
Defined.

(** C1 fails as stated: code that ends in white space is not stored as
    submitted.  For [1 + 1; ] the file holds the trimmed text.  And a
    request whose staging write throws creates no file at all. *)
Lemma eval_trims_code_counterexample :
  let out :=
    snd (on_message tmp 1%nat (eval_message (lit "1 + 1; ")) 1700000000000
           Written (vars booted)) in
  let failed :=
    snd (on_message tmp 1%nat (eval_message (lit "1 + 1;")) 1700000000000
           WriteThrows (vars booted)) in
  sclangAlive (vars booted) = true
  /\ In (WriteFileSync (lit "/tmp/sc_eval_1700000000000_0.scd")
           ([40; 10] ++ lit "1 + 1;" ++ [10; 41; 10])) out
  /\ ~ In (WriteFileSync (lit "/tmp/sc_eval_1700000000000_0.scd")
             ([40; 10] ++ lit "1 + 1; " ++ [10; 41; 10])) out
  /\ files_written failed = []
  /\ stdin_writes failed = [].
Proof.
  vm_compute. split; [reflexivity|]. split; [|split; [|split; reflexivity]].
  - left. reflexivity.
  - intros [H|[H|[H|[H|[]]]]]; discriminate H.
Qed.

Lemma marker_detection_witness :
  let p' := final tmp (outputs Stdout [lit "compile "; lit "done"; boot_marker]) loaded in
  halted p' = false
  /\ startupSent (vars p') = false
  /\ sclangAlive (vars p') = true.
Proof.
  apply (marker_detection_per_chunk tmp Stdout
           [lit "compile "; lit "done"; boot_marker] loaded 0%nat);
    reflexivity.
Defined.

(** C2 fails as stated: the same output, cut at another place, gives
    another result.  The compile marker in one chunk is seen; cut in
    two, it is not. *)
Lemma split_marker_counterexample :
  concat [lit "compile "; lit "done"] = concat [lit "compile done"]
  /\ startupSent (vars (final tmp (outputs Stdout [lit "compile done"]) loaded))
     = true
  /\ startupSent
       (vars (final tmp (outputs Stdout [lit "compile "; lit "done"]) loaded))
     = false.
Proof. repeat split. Qed.

(** C3 fails as stated: a second prompt on the same line is no line
    start for the first pass, and becomes one for the second. *)
Lemma sanitize_not_idempotent_counterexample :
  sanitize prompt_twice = lit "sc3>"
  /\ sanitize (sanitize prompt_twice) = []
  /\ sanitize (sanitize prompt_twice) <> sanitize prompt_twice.
Proof. repeat split. discriminate. Qed.

(** The third and fourth scenarios of the specification. *)
Lemma status_cycle_witness :
  statuses (trace tmp (first_cycle ++ Exit (Some 1) None :: second_cycle) loaded)
    = [true; false; true]
  /\ sclangAlive (vars (final tmp (first_cycle ++ [Exit (Some 1) None]) loaded))
     = false
  /\ sclangAlive (vars (final tmp first_cycle loaded)) = true.
Proof.
  apply (status_broadcasts_per_boot_cycle tmp first_cycle second_cycle
           (Some 1) None loaded); reflexivity.
Defined.

Lemma eval_rejected_witness :
  on_message tmp 1%nat (eval_message (lit "1 + 1;")) 1700000000000 Written
    (vars loaded)
    = (Normal tt, vars loaded, [WsSend 1%nat (Post not_ready_notice)])
  /\ forall other, other <> 1%nat ->
       sent_to other
         (snd (on_message tmp 1%nat (eval_message (lit "1 + 1;"))
                 1700000000000 Written (vars loaded))) = [].
Proof.
  apply (eval_rejected_when_not_booted tmp 1%nat
           [(lit "type", JString (lit "eval"));
            (lit "code", JString (lit "1 + 1;"))]
           1700000000000 Written (vars loaded)); reflexivity.
Defined.

(** C6 at the three kinds of state: booted, not yet booted, and the
    state a late chunk leaves behind.  In [orphaned] the child has
    exited, a chunk with the boot marker has arrived since, and the
    respawn is still pending: [sclangAlive] is true, [sclangProc] is
    [null], and a [stop] message writes nothing to any child. *)
Lemma stop_message_witness :
  on_message tmp 1%nat stop_message 0 Written (vars booted)
    = (Normal tt, vars booted, [StdinWrite 0 interrupt_directive])
  /\ on_message tmp 1%nat stop_message 0 Written (vars loaded)
     = (Normal tt, vars loaded, [])
  /\ halted orphaned = false
  /\ sclangAlive (vars orphaned) = true
  /\ sclangProc (vars orphaned) = None
  /\ on_message tmp 1%nat stop_message 0 Written (vars orphaned)
     = (Normal tt, vars orphaned,
        [ConsoleError (lit "[bridge] Bad message:") TypeError])
  /\ stdin_writes
       (snd (step tmp orphaned (Message 1%nat stop_message 0 Written))) = [].
Proof.
  split; [|split; [|split; [|split; [|split; [|split]]]]].
  - apply (stop_message_handling tmp 1%nat
             [(lit "type", JString (lit "stop"))] 0 Written (vars booted)).
    reflexivity.
  - apply (stop_message_handling tmp 1%nat
             [(lit "type", JString (lit "stop"))] 0 Written (vars loaded)).
    reflexivity.
  - reflexivity.
  - reflexivity.
  - reflexivity.
  - apply (stop_message_handling tmp 1%nat
             [(lit "type", JString (lit "stop"))] 0 Written (vars orphaned)).
    reflexivity.
  - reflexivity.
Defined.

(** The first scenario of the specification. *)
Lemma first_message_witness :
  sent_to 2%nat
    (trace tmp
       (first_cycle ++ Connection 2%nat (lit "10.0.0.7")
          :: [Output Stdout (lit "-> 2" ++ [10])])
       loaded)
    = [Status true; Post (lit "-> 2" ++ [10])].
Proof.
  apply (first_message_is_status tmp first_cycle
           [Output Stdout (lit "-> 2" ++ [10])] 2%nat (lit "10.0.0.7"));
    reflexivity.
Defined.

Lemma staging_names_witness :
  files_written (trace tmp same_millisecond loaded)
    = [lit "/tmp/sc_eval_1700000000000_0.scd";
       lit "/tmp/sc_eval_1700000000000_1.scd"]
  /\ NoDup (files_written (trace tmp same_millisecond loaded)).
Proof.
  split; [reflexivity|].
  apply (staging_names_distinct tmp same_millisecond).
  unfold max_safe. simpl. lia.
Defined.

Lemma chunk_posted_witness :
  exists b' out,
    handleOutput Stdout (lit "sc3> -> 2" ++ [10]) (vars booted)
      = (Normal tt, b', out)
    /\ startupSent b' = true
    /\ sclangAlive b' = true
    /\ posts out = [lit "-> 2" ++ [10]]
    /\ (forall text to, In (Broadcast (Post text) to) out ->
          text = lit "-> 2" ++ [10] /\ to = []).
Proof.
  apply (chunk_scanned_and_posted Stdout (lit "sc3> -> 2" ++ [10])
           (vars booted) 0%nat). reflexivity.
Defined.

(** C9 fails as stated: a chunk that is only the prompt sanitizes to
    the empty string, and nothing is posted for it. *)
Lemma prompt_chunk_counterexample :
  sclangProc (vars booted) = Some 0%nat
  /\ sanitize (lit "sc3> ") = []
  /\ posts (snd (handleOutput Stdout (lit "sc3> ") (vars booted))) = []
  /\ posts (trace tmp [Output Stdout (lit "sc3> ")] booted) = [].
Proof. repeat split. Qed.

Lemma help_confined_witness :
  help_handler (lit "/") any_file (lit "/help/../../../../../etc/passwd")
    = {| response := forbidden; fileRead := None |}
  /\ help_handler (lit "/") any_file (lit "/status")
     = {| response := not_found; fileRead := None |}.
Proof.
  split.
  - apply (help_requests_confined (lit "/") any_file
             (lit "/help/../../../../../etc/passwd")); reflexivity.
  - apply (help_requests_confined (lit "/") any_file (lit "/status"));
      reflexivity.
Defined.


(* ================================================================== *)
(** * Further properties of the bridge                                 *)
(* ================================================================== *)

(** ** The message handler, case by case *)

Ltac message_case :=
  eexists; eexists; split; [reflexivity|];
  first
    [ left; split; reflexivity
    | right; left; split; [reflexivity|]; eexists; reflexivity
    | right; right; left; split; [reflexivity|]; split; reflexivity
    | right; right; right; left; split; [reflexivity|];
      split; [reflexivity|]; eexists; reflexivity
    | right; right; right; right; left; split; [reflexivity|];
      split; [reflexivity|]; eexists; eexists; split; reflexivity
    | right; right; right; right; right; left; split; [reflexivity|];
      split; [reflexivity|]; split; [reflexivity|]; eexists; reflexivity
    | right; right; right; right; right; right; split; [reflexivity|];
      split; [reflexivity|]; eexists; split; reflexivity ].

(** Everything a client message can do. *)
Lemma on_message_cases (EVAL_DIR : jsstring) (ws : nat) (parsed : option json)
    (now : N) (disk : write_outcome) (b : Bridge) :
  let file := path_join EVAL_DIR (eval_basename now (evalCounter b)) in
  let bumped := set_evalCounter (js_incr (evalCounter b)) b in
  let bad := ConsoleError (lit "[bridge] Bad message:") in
  exists b' out,
    on_message EVAL_DIR ws parsed now disk b = (Normal tt, b', out)
    /\ ((b' = b /\ out = [])
        \/ (b' = b /\ exists e, out = [bad e])
        \/ (b' = b /\ sclangAlive b = false
            /\ out = [WsSend ws (Post not_ready_notice)])
        \/ (b' = bumped /\ sclangAlive b = true /\ exists e, out = [bad e])
        \/ (b' = bumped /\ sclangAlive b = true
            /\ exists code proc,
                 sclangProc b = Some proc
                 /\ out = [WriteFileSync file (wrap_block code);
                           ConsoleLog (lit "[bridge] eval " ++ [8594; 32]
                                         ++ trim (load_directive file));
                           StdinWrite proc (load_directive file);
                           SetTimeout (UnlinkFile file) 15000])
        \/ (b' = bumped /\ sclangAlive b = true /\ sclangProc b = None
            /\ exists code,
                 out = [WriteFileSync file (wrap_block code);
                        ConsoleLog (lit "[bridge] eval " ++ [8594; 32]
                                      ++ trim (load_directive file));
                        bad TypeError])
        \/ (b' = b /\ sclangAlive b = true
            /\ exists proc,
                 sclangProc b = Some proc
                 /\ out = [StdinWrite proc interrupt_directive])).
Proof.
  destruct b as [proc alive sent ctr cl sp].
  cbv zeta. js_unfold.
  cbn [sclangProc sclangAlive startupSent clients evalCounter spawned set_evalCounter].
  destruct parsed as [[| | | | |props]|]; try message_case.
  destruct (lookup (lit "type") props) as [[| | |ty| |]|]; try message_case.
  cbn [is_string].
  destruct (str_eqb ty (lit "eval")) eqn:Heval.
  - destruct alive; cbn [negb].
    + destruct (lookup (lit "code") props) as [[| | |code| |]|];
        destruct proc as [proc|], disk;
        apply str_eqb_eq in Heval; subst ty;
        change (str_eqb (lit "eval") (lit "stop")) with false;
        message_case.
    + message_case.
  - destruct (str_eqb ty (lit "stop")), alive, proc as [proc|]; message_case.
Qed.

(** X1.  An [eval] request whose [code] is missing or is not a string,
    arriving while [sclangAlive] is true, uses up one counter value and
    is then dropped as a bad message: no staging file, nothing written
    to the child, no timer, no reply. *)
Theorem eval_without_string_code
    (EVAL_DIR : jsstring) (ws : nat) (props : list (jsstring * json))
    (now : N) (disk : write_outcome) (b : Bridge) :
  lookup (lit "type") props = Some (JString (lit "eval")) ->
  is_js_string (lookup (lit "code") props) = false ->
  sclangAlive b = true ->
  on_message EVAL_DIR ws (Some (JObject props)) now disk b
    = (Normal tt, set_evalCounter (js_incr (evalCounter b)) b,
       [ConsoleError (lit "[bridge] Bad message:") TypeError]).
Proof.
  intros Hty Hcode Halive. js_unfold. rewrite Hty.
  cbn [is_string]. rewrite str_eqb_refl. cbv iota. rewrite Halive.
  cbn [negb]. cbv iota.
  destruct (lookup (lit "code") props) as [[| | |code| |]|];
    try discriminate Hcode; reflexivity.
Qed.

(** X2.  A message that is not an [eval] or [stop] request never
    reaches the child or any client: unparseable text and [null] leave
    one error log entry, any other value leaves no trace at all, and
    the bridge's variables stay as they were. *)
Theorem other_messages_ignored
    (EVAL_DIR : jsstring) (ws : nat) (now : N) (disk : write_outcome)
    (b : Bridge) (v : json) :
  v <> JNull ->
  (forall props, v = JObject props ->
     is_string (lookup (lit "type") props) (lit "eval") = false
     /\ is_string (lookup (lit "type") props) (lit "stop") = false) ->
  on_message EVAL_DIR ws (Some v) now disk b = (Normal tt, b, [])
  /\ on_message EVAL_DIR ws None now disk b
     = (Normal tt, b, [ConsoleError (lit "[bridge] Bad message:") SyntaxError])
  /\ on_message EVAL_DIR ws (Some JNull) now disk b
     = (Normal tt, b, [ConsoleError (lit "[bridge] Bad message:") TypeError]).
Proof.
  intros Hnull Hprops. split; [|split; reflexivity].
  destruct v as [| | | | |props]; try reflexivity; [congruence|].
  destruct (Hprops props eq_refl) as [He Hs].
  js_unfold. rewrite He, Hs. reflexivity.
Qed.

(** X3.  Which of the events above terminate the bridge.  Three do:
    an ['error'] event, of whatever emitter, since no listener is
    registered for it; the respawn timer when [spawn] throws; and a
    chunk that brings the compile marker for the first time while
    [sclangProc] is [null].  The listeners the bridge does register
    for client messages, connections, closes, the child's exit and the
    removal timers never throw past themselves, whatever the staging
    write does. *)
Theorem terminating_events
    (EVAL_DIR : jsstring) (p : Process) (ev : event) :
  halted p = false ->
  halted (fst (step EVAL_DIR p ev))
    = match ev with
      | Output _ raw => output_throws raw (vars p)
      | Timeout StartSclang SpawnThrows => true
      | ErrorEvent _ => true
      | _ => false
      end.
Proof.
  intros Hh. unfold step. rewrite Hh.
  destruct ev as [from raw|c s|cb spn|ws ip|ws parsed now disk|ws rs|ws|src]; cbn [dispatch].
  - rewrite handleOutput_spec. now destruct (output_throws raw (vars p)).
  - reflexivity.
  - now destruct cb, spn.
  - reflexivity.
  - now destruct (on_message_frame EVAL_DIR ws parsed now disk (vars p))
      as (c & out & -> & _).
  - reflexivity.
  - reflexivity.
  - reflexivity.
Qed.

(** ** Staging contents and directives *)

Lemma drop_spaces_spaces (w s : jsstring) :
  forallb is_space w = true -> drop_spaces (w ++ s) = drop_spaces s.
Proof.
  induction w as [|c w IH]; intros H; [reflexivity|].
  cbn [forallb] in H. apply andb_true_iff in H as [Hc Hw].
  cbn [app drop_spaces]. rewrite Hc. auto.
Qed.

Lemma forallb_rev (f : N -> bool) (s : jsstring) :
  forallb f (rev s) = forallb f s.
Proof.
  induction s as [|c s IH]; [reflexivity|].
  cbn [rev forallb]. rewrite forallb_app, IH. cbn [forallb].
  rewrite andb_true_r. apply andb_comm.
Qed.

Lemma trimEnd_spaces (code w : jsstring) :
  forallb is_space w = true -> trimEnd (code ++ w) = trimEnd code.
Proof.
  intros H. unfold trimEnd. rewrite rev_app_distr.
  rewrite drop_spaces_spaces; [reflexivity|]. now rewrite forallb_rev.
Qed.

(** X4.  The staged text is the code up to trailing white space: code
    with white space appended stages the same contents, and two codes
    stage the same contents exactly when they agree after
    [trimEnd]. *)
Theorem staged_contents_modulo_trailing_space (code other w : jsstring) :
  (forallb is_space w = true -> wrap_block (code ++ w) = wrap_block code)
  /\ (wrap_block code = wrap_block other <-> trimEnd code = trimEnd other).
Proof.
  split.
  - intros H. unfold wrap_block. now rewrite trimEnd_spaces.
  - unfold wrap_block. split.
    + intros H. apply app_inv_head in H. now apply app_inv_tail in H.
    + now intros ->.
Qed.

Lemma quote_body_plain (s : jsstring) :
  forallb (fun c => (32 <=? c) && negb (c =? 34) && negb (c =? 92)
                    && (c <? 55296)) s = true ->
  quote_body s = s.
Proof.
  induction s as [|c s IH]; intros H; [reflexivity|].
  cbn [forallb] in H. apply andb_true_iff in H as [Hc Hs].
  apply andb_true_iff in Hc as [Hc Hsur].
  apply andb_true_iff in Hc as [Hc Hbs].
  apply andb_true_iff in Hc as [Hlo Hq].
  apply negb_true_iff in Hq, Hbs.
  apply N.leb_le in Hlo. apply N.ltb_lt in Hsur.
  cbn [quote_body]. unfold is_lead_surrogate, is_trail_surrogate.
  replace (55296 <=? c) with false by (symmetry; apply N.leb_gt; lia).
  replace (56320 <=? c) with false by (symmetry; apply N.leb_gt; lia).
  cbn [andb]. unfold quote_unit.
  replace (c =? 8) with false by (symmetry; apply N.eqb_neq; lia).
  replace (c =? 9) with false by (symmetry; apply N.eqb_neq; lia).
  replace (c =? 10) with false by (symmetry; apply N.eqb_neq; lia).
  replace (c =? 12) with false by (symmetry; apply N.eqb_neq; lia).
  replace (c =? 13) with false by (symmetry; apply N.eqb_neq; lia).
  rewrite Hq, Hbs.
  replace (c <? 32) with false by (symmetry; apply N.ltb_ge; lia).
  cbn [app]. now rewrite IH.
Qed.

Lemma dec_forallb (f : N -> bool) (n : N) :
  (forall c, is_digit c = true -> f c = true) -> forallb f (dec n) = true.
Proof.
  intros H. apply forallb_forall. intros c Hc. apply H.
  now apply digits_of_uint_digit in Hc.
Qed.

Lemma digit_bounds (c : N) : is_digit c = true -> 48 <= c <= 57.
Proof.
  unfold is_digit. intros H. apply andb_true_iff in H as [H1 H2].
  apply N.leb_le in H1, H2. lia.
Qed.

Lemma path_join_tmp (now c : N) :
  path_join tmp (eval_basename now c) = lit "/tmp/" ++ eval_basename now c.
Proof.
  destruct (path_join_proper tmp) as [pre Hpre].
  rewrite Hpre by apply eval_basename_proper.
  f_equal.
  assert (Hx : proper_segment [120]).
  { repeat split; try discriminate. cbn. intuition discriminate. }
  specialize (Hpre [120] Hx).
  change (path_join tmp [120]) with (lit "/tmp/" ++ [120]) in Hpre.
  now apply app_inv_tail in Hpre.
Qed.

(** The part of a staging file name behind [sc_eval_]. *)
Lemma eval_tail_chars (f : N -> bool) (now c : N) :
  (forall d, is_digit d = true -> f d = true) ->
  forallb f (lit "_.scd") = true ->
  forallb f (dec now ++ lit "_" ++ dec c ++ lit ".scd") = true.
Proof.
  intros Hd H2.
  rewrite !forallb_app, !dec_forallb by assumption.
  change (lit "_.scd") with (lit "_" ++ lit ".scd") in H2.
  rewrite forallb_app in H2. exact H2.
Qed.

Lemma load_directive_tmp (now c : N) :
  load_directive (path_join tmp (eval_basename now c))
    = unlines [load_eval_prefix
                 ++ (dec now ++ lit "_" ++ dec c ++ lit ".scd")
                 ++ 34 :: lit ");"].
Proof.
  rewrite path_join_tmp. unfold load_directive, JSON_stringify.
  rewrite quote_body_plain.
  - unfold unlines, load_eval_prefix, eval_basename. cbn [map concat].
    rewrite app_nil_r.
    change (lit "/tmp/sc_eval_") with (lit "/tmp/" ++ lit "sc_eval_").
    rewrite <- !app_assoc. cbn [app].
    rewrite <- !app_assoc. reflexivity.
  - unfold eval_basename. rewrite !forallb_app.
    apply andb_true_iff. split; [reflexivity|].
    apply andb_true_iff. split; [reflexivity|].
    rewrite <- !forallb_app.
    apply eval_tail_chars; [|reflexivity].
    intros d Hd. apply digit_bounds in Hd.
    apply andb_true_iff; split; [|apply N.ltb_lt; lia].
    apply andb_true_iff; split; [|apply negb_true_iff, N.eqb_neq; lia].
    apply andb_true_iff; split; [apply N.leb_le; lia|].
    apply negb_true_iff, N.eqb_neq; lia.
Qed.

Lemma eval_echo_line (now c : N) :
  let line := load_eval_prefix
                ++ (dec now ++ lit "_" ++ dec c ++ lit ".scd")
                ++ 34 :: lit ");" in
  echo_or_plain line = true /\ is_echo line = true.
Proof.
  set (X := dec now ++ lit "_" ++ dec c ++ lit ".scd"). cbv zeta.
  assert (Hq : forallb not_quote X = true).
  { apply eval_tail_chars; [|reflexivity].
    intros d Hd. apply digit_bounds in Hd. unfold not_quote.
    apply negb_true_iff, N.eqb_neq. lia. }
  assert (He : is_echo (load_eval_prefix ++ X ++ 34 :: lit ");") = true).
  { unfold is_echo, is_eval_echo, is_load_echo.
    replace (startsWith (load_eval_prefix ++ X ++ 34 :: lit ");")
               load_eval_prefix)
      with true by (symmetry; apply startsWith_app; eauto).
    rewrite skipn_exact.
    rewrite (count_while_stop not_quote _ 34) by (assumption || reflexivity).
    rewrite firstn_exact, skipn_exact, str_eqb_refl.
    unfold endsWith. cbn [rev]. now destruct (rev X). }
  split; [|exact He].
  unfold echo_or_plain. rewrite He. cbn [orb]. rewrite andb_true_r.
  unfold one_line. rewrite !forallb_app.
  apply andb_true_iff. split; [reflexivity|].
  apply andb_true_iff. split; [|reflexivity].
  subst X. apply eval_tail_chars; [|reflexivity].
  intros d Hd. apply digit_bounds in Hd. apply negb_true_iff.
  unfold is_line_terminator.
  repeat (apply orb_false_iff; split); apply N.eqb_neq; lia.
Qed.

(** X5.  With the staging directory [/tmp], what the bridge writes to
    the child's input is hidden from the clients when the interpreter
    echoes it: for every time stamp and counter value the eval
    directive sanitizes to the empty string, and so do the startup
    directive and the interrupt directive. *)
Theorem own_directives_hidden (now c : N) :
  sanitize (load_directive (path_join tmp (eval_basename now c))) = []
  /\ sanitize (load_directive STARTUP_SCD) = []
  /\ sanitize interrupt_directive = [].
Proof.
  split; [|split; reflexivity].
  rewrite load_directive_tmp.
  destruct (eval_echo_line now c) as [Hok He]. cbv zeta in Hok, He.
  rewrite sanitize_lines by (cbn [forallb]; now rewrite Hok).
  cbn [filter]. now rewrite He.
Qed.

(** ** Chunks *)

Lemma replace_bol_all (m : jsstring -> option nat) (s : jsstring) :
  forall k bol, (length s <= S k)%nat -> replace_bol m (S k) bol s = [].
Proof.
  induction s as [|c s IH]; intros k bol H; [reflexivity|].
  cbn [replace_bol]. cbn [length] in H.
  destruct s as [|c' s']; [reflexivity|].
  destruct k as [|k]; [cbn [length] in H; lia|].
  apply IH. cbn [length] in *. lia.
Qed.

Lemma count_while_all (f : N -> bool) (s : jsstring) :
  forallb f s = true -> count_while f s = length s.
Proof.
  induction s as [|c s IH]; intros H; [reflexivity|].
  cbn [forallb] in H. apply andb_true_iff in H as [Hc Hs].
  cbn [count_while length]. rewrite Hc. now rewrite IH.
Qed.

Lemma sanitize_prompt_only (w : jsstring) :
  forallb is_space w = true -> sanitize (lit "sc3>" ++ w) = [].
Proof.
  intros H.
  assert (E : remove_at_line_starts match_prompt (lit "sc3>" ++ w) = []).
  { unfold remove_at_line_starts.
    change (lit "sc3>" ++ w) with (115 :: (lit "c3>" ++ w)).
    cbn [replace_bol]. unfold match_prompt.
    change (startsWith (115 :: lit "c3>" ++ w) (lit "sc3>")) with true.
    cbv iota. change (skipn 4 (115 :: lit "c3>" ++ w)) with w.
    rewrite count_while_all by assumption.
    cbn [Nat.add]. apply replace_bol_all.
    rewrite length_app. cbn [length lit map list_ascii_of_string]. lia. }
  unfold sanitize, strip_internal. rewrite E. reflexivity.
Qed.

(** X6.  A chunk that is only the interpreter's prompt, [sc3>] and any
    white space behind it, is never posted: it sanitizes to the empty
    string and no [post] is broadcast for it, in any state of the
    bridge. *)
Theorem prompt_chunk_never_posted
    (from : stream) (w : jsstring) (b : Bridge) :
  forallb is_space w = true ->
  sanitize (lit "sc3>" ++ w) = []
  /\ posts (snd (handleOutput from (lit "sc3>" ++ w) b)) = [].
Proof.
  intros H. pose proof (sanitize_prompt_only w H) as E.
  split; [exact E|].
  rewrite handleOutput_spec. rewrite E.
  destruct (output_throws (lit "sc3>" ++ w) b); [reflexivity|].
  cbn [snd]. rewrite !posts_app. unfold compiled_log, booted_log.
  destruct (negb (startupSent b) && includes (lit "sc3>" ++ w) compile_marker),
    (sclangProc b),
    (negb (sclangAlive b) && includes (lit "sc3>" ++ w) boot_marker);
    reflexivity.
Qed.

Lemma subsequence_length (a b : jsstring) :
  subsequence a b -> (length a <= length b)%nat.
Proof. induction 1; cbn [length]; lia. Qed.

Lemma replace_crlf_step (c d : N) (r : jsstring) :
  replace_crlf (c :: d :: r)
    = if (c =? 13) && (d =? 10) then 10 :: replace_crlf r
      else c :: replace_crlf (d :: r).
Proof. reflexivity. Qed.

Lemma replace_crlf_length (s : jsstring) :
  (length (replace_crlf s) <= length s)%nat.
Proof.
  assert (H : forall n s, (length s <= n)%nat ->
                (length (replace_crlf s) <= length s)%nat).
  { induction n as [|n IH]; intros [|c [|d r]] Hn;
      try (cbn [replace_crlf length] in *; lia).
    rewrite replace_crlf_step.
    pose proof (IH r) as H1. pose proof (IH (d :: r)) as H2.
    cbn [length] in *.
    destruct ((c =? 13) && (d =? 10)); cbn [length]; lia. }
  apply (H (length s)). lia.
Qed.

Lemma replace_crlf_in (s : jsstring) (x : N) :
  In x (replace_crlf s) -> In x s \/ x = 10.
Proof.
  assert (H : forall n s, (length s <= n)%nat ->
                In x (replace_crlf s) -> In x s \/ x = 10).
  { induction n as [|n IH]; intros [|c [|d r]] Hn Hx;
      try (cbn [replace_crlf length In] in *; (lia || tauto)).
    rewrite replace_crlf_step in Hx.
    pose proof (IH r) as H1. pose proof (IH (d :: r)) as H2.
    cbn [length In] in *.
    destruct ((c =? 13) && (d =? 10)); cbn [In] in Hx.
    - destruct Hx as [<-|Hx]; [now right|].
      assert (Hr : In x r \/ x = 10) by (apply H1; [lia|assumption]).
      tauto.
    - destruct Hx as [<-|Hx]; [left; now left|].
      assert (Hr : (d = x \/ In x r) \/ x = 10)
        by (apply H2; [lia|assumption]).
      tauto. }
  apply (H (length s)). lia.
Qed.

(** X7.  Sanitizing never makes a text longer, and every code unit of
    the result is a code unit of the input or the line feed that a
    carriage return was turned into. *)
Theorem sanitize_never_grows (s : jsstring) :
  (length (sanitize s) <= length s)%nat
  /\ forall c, In c (sanitize s) -> In c s \/ c = 10.
Proof.
  split.
  - unfold sanitize, replace_cr. rewrite length_map.
    pose proof (replace_crlf_length (strip_internal s)).
    pose proof (subsequence_length _ _ (strip_internal_subsequence s)). lia.
  - intros c Hc. unfold sanitize, replace_cr in Hc.
    apply in_map_iff in Hc as (d & Hd & Hin).
    assert (Hsub : forall a b x, subsequence a b -> In x a -> In x b).
    { intros a b0 x Hs. induction Hs; cbn [In]; intros; tauto. }
    destruct (d =? 13) eqn:E; subst c; [now right|].
    destruct (replace_crlf_in _ _ Hin) as [H|H]; [|now right].
    left. eapply Hsub; [apply strip_internal_subsequence|exact H].
Qed.

(** ** The supervisor *)

Lemma stdin_writes_app (xs ys : list effect) :
  stdin_writes (xs ++ ys) = stdin_writes xs ++ stdin_writes ys.
Proof.
  induction xs as [|x xs IH]; [reflexivity|].
  destruct x; cbn [app stdin_writes]; now rewrite IH.
Qed.

Lemma unlinks_scheduled_app (xs ys : list effect) :
  unlinks_scheduled (xs ++ ys) = unlinks_scheduled xs ++ unlinks_scheduled ys.
Proof.
  induction xs as [|x xs IH]; [reflexivity|].
  destruct x as [| | | | | | | |[f|] ms| | |]; cbn [app unlinks_scheduled];
    rewrite ?IH; try reflexivity.
  now destruct (ms =? 15000).
Qed.

Lemma broadcasts_app (xs ys : list effect) :
  broadcasts (xs ++ ys) = broadcasts xs ++ broadcasts ys.
Proof.
  induction xs as [|x xs IH]; [reflexivity|].
  destruct x; cbn [app broadcasts]; now rewrite IH.
Qed.

Lemma step_output_writes (EVAL_DIR : jsstring) (p : Process) (from : stream)
    (raw : jsstring) (proc : nat) :
  halted p = false ->
  sclangProc (vars p) = Some proc ->
  stdin_writes (snd (step EVAL_DIR p (Output from raw)))
    = if negb (startupSent (vars p)) && has_compile_marker raw
      then [(proc, load_directive STARTUP_SCD)] else [].
Proof.
  intros Hh Hproc. unfold step. rewrite Hh. cbn [dispatch].
  rewrite handleOutput_spec. unfold output_throws, has_compile_marker.
  rewrite Hproc. cbn [snd]. rewrite !stdin_writes_app.
  unfold compiled_log, booted_log.
  destruct (negb (startupSent (vars p)) && includes raw compile_marker),
    (negb (sclangAlive (vars p)) && includes raw boot_marker),
    (sanitize raw); reflexivity.
Qed.

(** X8.  Over the chunks of one child the startup directive is written
    to its input exactly once, at the first chunk that holds the
    compile marker, and never again however often the marker recurs;
    nothing else is written because of a chunk. *)
Theorem startup_directive_once
    (EVAL_DIR : jsstring) (from : stream) (cs : list jsstring)
    (p : Process) (proc : nat) :
  halted p = false ->
  sclangProc (vars p) = Some proc ->
  stdin_writes (trace EVAL_DIR (outputs from cs) p)
    = if negb (startupSent (vars p)) && existsb has_compile_marker cs
      then [(proc, load_directive STARTUP_SCD)] else [].
Proof.
  revert p. induction cs as [|raw cs IH]; intros p Hh Hproc.
  - cbn. now rewrite andb_false_r.
  - cbn [outputs map]. fold (outputs from cs).
    rewrite trace_cons, stdin_writes_app.
    rewrite (step_output_writes EVAL_DIR p from raw proc Hh Hproc).
    destruct (step_output_live EVAL_DIR p from raw proc Hh Hproc)
      as (Hh1 & Hproc1 & Hsent1 & _).
    rewrite (IH _ Hh1 Hproc1), Hsent1. cbn [existsb].
    unfold has_compile_marker at 1 3.
    destruct (startupSent (vars p)), (includes raw compile_marker),
      (existsb has_compile_marker cs); reflexivity.
Qed.

Lemma Forall_startup_nil :
  Forall (fun w : nat * jsstring => snd w = load_directive STARTUP_SCD) [].
Proof. constructor. Qed.

(** While the bridge is not alive, a step that is not a chunk with the
    boot marker leaves it so, stages nothing and writes nothing to the
    child but the startup directive. *)
Lemma step_not_alive (EVAL_DIR : jsstring) (p : Process) (ev : event) :
  sclangAlive (vars p) = false ->
  match ev with Output _ raw => has_boot_marker raw | _ => false end = false ->
  let out := snd (step EVAL_DIR p ev) in
  sclangAlive (vars (fst (step EVAL_DIR p ev))) = false
  /\ files_written out = []
  /\ unlinks_scheduled out = []
  /\ Forall (fun w => snd w = load_directive STARTUP_SCD) (stdin_writes out).
Proof.
  intros Halive Hev. unfold step.
  destruct (halted p); cbn [fst snd].
  { repeat split; auto; try constructor. }
  destruct p as [b h]. cbn [vars] in *.
  destruct ev as [from raw|c s|cb spn|ws ip|ws parsed now disk|ws rs|ws|src]; cbn [dispatch].
  - rewrite handleOutput_spec. unfold has_boot_marker in Hev.
    destruct (output_throws raw b); cbn [fst snd vars].
    + repeat split; try (now destruct b); try constructor.
    + rewrite Halive, Hev. cbn [orb andb app].
      rewrite !files_written_app, !unlinks_scheduled_app, !stdin_writes_app.
      unfold compiled_log.
      repeat split; try (now destruct b);
        destruct (negb (startupSent b) && includes raw compile_marker),
          (sclangProc b), (sanitize raw); cbn;
          try reflexivity; repeat constructor.
  - destruct b; cbn in *. repeat split; auto; try constructor.
  - destruct cb, spn; destruct b; cbn in *; repeat split; auto; try constructor.
  - destruct b; cbn in *. repeat split; auto; try constructor.
  - destruct (on_message_cases EVAL_DIR ws parsed now disk b) as (b' & out & -> & H).
    cbv zeta in H. cbn [fst snd vars].
    destruct H as [[-> ->]|[[-> [e ->]]|[[-> [_ ->]]|
                   [(_ & H & _)|[(_ & H & _)|[(_ & H & _)|(_ & H & _)]]]]]];
      try congruence; cbn; repeat split; auto; try constructor.
  - destruct b; cbn in *. repeat split; auto; try constructor.
  - destruct b; cbn in *. repeat split; auto; try constructor.
  - destruct b; cbn in *. repeat split; auto; try constructor.
Qed.

Lemma run_not_alive (EVAL_DIR : jsstring) (evs : list event) (p : Process) :
  sclangAlive (vars p) = false ->
  existsb has_boot_marker (chunks evs) = false ->
  sclangAlive (vars (final EVAL_DIR evs p)) = false
  /\ files_written (trace EVAL_DIR evs p) = []
  /\ unlinks_scheduled (trace EVAL_DIR evs p) = []
  /\ Forall (fun w => snd w = load_directive STARTUP_SCD)
       (stdin_writes (trace EVAL_DIR evs p)).
Proof.
  revert p. induction evs as [|ev evs IH]; intros p Halive Hevs.
  - cbn. repeat split; auto; try constructor.
  - rewrite final_cons, trace_cons.
    rewrite files_written_app, unlinks_scheduled_app, stdin_writes_app.
    assert (Hev : match ev with Output _ raw => has_boot_marker raw
                              | _ => false end = false
                  /\ existsb has_boot_marker (chunks evs) = false).
    { destruct ev; cbn [chunks existsb] in Hevs; auto.
      now apply orb_false_iff in Hevs. }
    destruct Hev as [Hev Hrest].
    destruct (step_not_alive EVAL_DIR p ev Halive Hev) as (H1 & H2 & H3 & H4).
    destruct (IH _ H1 Hrest) as (H5 & H6 & H7 & H8).
    rewrite H2, H3, H6, H7. repeat split; auto.
    apply Forall_app. auto.
Qed.

(** X10.  Nothing is dispatched to the child before it has booted:
    from a state that is not alive, and as long as no chunk holds the
    boot marker, no staging file is written, no removal is scheduled,
    and the only text ever written to the child's input is the startup
    directive. *)
Theorem no_dispatch_unless_alive
    (EVAL_DIR : jsstring) (evs : list event) (p : Process) :
  sclangAlive (vars p) = false ->
  existsb has_boot_marker (chunks evs) = false ->
  sclangAlive (vars (final EVAL_DIR evs p)) = false
  /\ files_written (trace EVAL_DIR evs p) = []
  /\ unlinks_scheduled (trace EVAL_DIR evs p) = []
  /\ Forall (fun w => snd w = load_directive STARTUP_SCD)
       (stdin_writes (trace EVAL_DIR evs p)).
Proof. exact (run_not_alive EVAL_DIR evs p). Qed.


Lemma step_files_unlinked (EVAL_DIR : jsstring) (p : Process) (ev : event) :
  (sclangAlive (vars p) = true -> sclangProc (vars p) <> None) ->
  files_written (snd (step EVAL_DIR p ev))
    = unlinks_scheduled (snd (step EVAL_DIR p ev)).
Proof.
  intros Hinv. unfold step. destruct (halted p); [reflexivity|].
  destruct p as [b h]. cbn [vars] in *.
  destruct ev as [from raw|c s|cb spn|ws ip|ws parsed now disk|ws rs|ws|src]; cbn [dispatch].
  - rewrite handleOutput_spec.
    destruct (output_throws raw b); cbn [fst snd]; [reflexivity|].
    rewrite !files_written_app, !unlinks_scheduled_app.
    unfold compiled_log, booted_log.
    destruct (negb (startupSent b) && includes raw compile_marker),
      (sclangProc b),
      (negb (sclangAlive b) && includes raw boot_marker),
      (sanitize raw); reflexivity.
  - now destruct b.
  - destruct cb, spn; now destruct b.
  - now destruct b.
  - destruct (on_message_cases EVAL_DIR ws parsed now disk b) as (b' & out & -> & H).
    cbv zeta in H. cbn [fst snd].
    destruct H as [[_ ->]|[[_ [e ->]]|[[_ [_ ->]]|
                   [(_ & _ & e' & ->)|[(_ & _ & code & proc & _ & ->)|
                   [(_ & Ha & Hp & _)|(_ & _ & proc & _ & ->)]]]]]];
      try reflexivity.
    specialize (Hinv Ha). congruence.
  - now destruct b.
  - now destruct b.
  - now destruct b.
Qed.

(** X11.  As long as chunks arrive only while a child handle is
    installed, every staging file that is written has its removal
    scheduled after 15000 ms, in the same order, and no removal is
    scheduled for anything else. *)
Theorem every_staged_file_gets_unlink
    (EVAL_DIR : jsstring) (evs : list event) :
  orderly EVAL_DIR evs loaded = true ->
  files_written (trace EVAL_DIR evs loaded)
    = unlinks_scheduled (trace EVAL_DIR evs loaded).
Proof.
  assert (H : forall evs p,
            orderly EVAL_DIR evs p = true ->
            (sclangAlive (vars p) = true -> sclangProc (vars p) <> None) ->
            files_written (trace EVAL_DIR evs p)
              = unlinks_scheduled (trace EVAL_DIR evs p)).
  { clear. induction evs as [|ev evs IH]; intros p Hord Hinv; [reflexivity|].
    rewrite trace_cons, files_written_app, unlinks_scheduled_app.
    rewrite (step_files_unlinked EVAL_DIR p ev Hinv). f_equal.
    cbn [orderly] in Hord. apply andb_true_iff in Hord as [Hev Hord].
    apply IH; [assumption|]. now apply step_alive_has_child. }
  intros Hord. apply H; [assumption|discriminate].
Qed.

(** ** The set of clients and the fan-out *)

Lemma step_clients (EVAL_DIR : jsstring) (p : Process) (ev : event) :
  clients (vars (fst (step EVAL_DIR p ev)))
    = if halted p then clients (vars p)
      else match ev with
           | Connection ws _ => clients_add ws (clients (vars p))
           | Close ws => clients_delete ws (clients (vars p))
           | ReadyState ws rs => clients_set_state ws rs (clients (vars p))
           | _ => clients (vars p)
           end.
Proof.
  unfold step. destruct (halted p); [reflexivity|].
  destruct ev as [from raw|c s|cb spn|ws ip|ws parsed now disk|ws rs|ws|src]; cbn [dispatch].
  - rewrite handleOutput_spec.
    destruct (output_throws raw (vars p)); now destruct (vars p).
  - now destruct (vars p).
  - destruct cb, spn; now destruct (vars p).
  - now destruct (vars p).
  - destruct (on_message_frame EVAL_DIR ws parsed now disk (vars p))
      as (c & out & -> & _). now destruct (vars p).
  - now destruct (vars p).
  - now destruct (vars p).
  - now destruct (vars p).
Qed.

Lemma clients_delete_gone (ws : nat) (cl : list (nat * N)) :
  ~ In ws (map fst (clients_delete ws cl)).
Proof.
  unfold clients_delete. intros H.
  apply in_map_iff in H as ([w rs] & E & Hin). cbn [fst] in E. subst w.
  apply filter_In in Hin as [_ Hin]. cbn [fst] in Hin.
  now rewrite Nat.eqb_refl in Hin.
Qed.

(** X12.  Once a socket's close has been handled it is out of the set
    for good: whatever happens afterwards, as long as no event concerns
    that socket again, nothing is sent to it. *)
Theorem closed_socket_gets_nothing
    (EVAL_DIR : jsstring) (p : Process) (ws : nat) (post : list event) :
  forallb (fun ev => negb (names_socket ws ev)) post = true ->
  sent_to ws (trace EVAL_DIR post (fst (step EVAL_DIR p (Close ws)))) = [].
Proof.
  intros Hpost.
  destruct (halted p) eqn:Hh.
  - rewrite step_halted by assumption. cbn [fst].
    unfold trace. now rewrite run_halted.
  - apply (run_unnamed EVAL_DIR ws post); [assumption|].
    rewrite step_clients, Hh. apply clients_delete_gone.
Qed.

Lemma open_member (ws : nat) (cl : list (nat * N)) :
  In (ws, OPEN) cl -> existsb (Nat.eqb ws) (open_sockets cl) = true.
Proof.
  intros H. apply existsb_exists. exists ws. split; [|apply Nat.eqb_refl].
  unfold open_sockets. apply in_map_iff. exists (ws, OPEN). split; [reflexivity|].
  apply filter_In. split; [assumption|reflexivity].
Qed.

Lemma step_keeps_open (EVAL_DIR : jsstring) (ws : nat) (p : Process) (ev : event) :
  names_socket ws ev = false ->
  In (ws, OPEN) (clients (vars p)) ->
  In (ws, OPEN) (clients (vars (fst (step EVAL_DIR p ev)))).
Proof.
  intros Hev Hin. rewrite step_clients.
  destruct (halted p); [assumption|].
  destruct ev as [from raw|c s|cb spn|w ip|w parsed now disk|w rs|w|src];
    try assumption; cbn [names_socket] in Hev.
  - unfold clients_add. destruct (existsb _ _); [assumption|].
    apply in_app_iff. now left.
  - unfold clients_set_state. apply in_map_iff. exists (ws, OPEN).
    cbn [fst]. rewrite Nat.eqb_sym, Hev. auto.
  - unfold clients_delete. apply filter_In. split; [assumption|].
    cbn [fst]. now rewrite Nat.eqb_sym, Hev.
Qed.

(** An open socket of the set is sent exactly what is broadcast, by
    any step that does not concern it. *)
Lemma step_fan_out (EVAL_DIR : jsstring) (ws : nat) (p : Process) (ev : event) :
  names_socket ws ev = false ->
  In (ws, OPEN) (clients (vars p)) ->
  sent_to ws (snd (step EVAL_DIR p ev)) = broadcasts (snd (step EVAL_DIR p ev)).
Proof.
  intros Hev Hin. pose proof (open_member ws _ Hin) as Hopen.
  unfold step. destruct (halted p); [reflexivity|].
  destruct p as [b h]. cbn [vars] in *.
  destruct ev as [from raw|c s|cb spn|w ip|w parsed now disk|w rs|w|src]; cbn [dispatch].
  - rewrite handleOutput_spec.
    destruct (output_throws raw b); cbn [snd]; [reflexivity|].
    rewrite !sent_to_app, !broadcasts_app. unfold compiled_log, booted_log.
    destruct (negb (startupSent b) && includes raw compile_marker),
      (sclangProc b),
      (negb (sclangAlive b) && includes raw boot_marker),
      (sanitize raw); cbn [sent_to broadcasts app]; rewrite ?Hopen; reflexivity.
  - destruct b; cbn in *. now rewrite Hopen.
  - destruct cb, spn; now destruct b.
  - cbn [names_socket] in Hev. destruct b; cbn in *. now rewrite Hev.
  - cbn [names_socket] in Hev.
    destruct (on_message_cases EVAL_DIR w parsed now disk b) as (b' & out & -> & H).
    cbv zeta in H. cbn [snd].
    destruct H as [[_ ->]|[[_ [e ->]]|[[_ [_ ->]]|
                   [(_ & _ & e' & ->)|[(_ & _ & code & proc & _ & ->)|
                   [(_ & _ & _ & code & ->)|(_ & _ & proc & _ & ->)]]]]]];
      cbn [sent_to broadcasts]; rewrite ?Hev; reflexivity.
  - now destruct b.
  - now destruct b.
  - now destruct b.
Qed.

Lemma open_socket_gets_every_broadcast_aux
    (EVAL_DIR : jsstring) (ws : nat) (evs : list event) (p : Process) :
  forallb (fun ev => negb (names_socket ws ev)) evs = true ->
  In (ws, OPEN) (clients (vars p)) ->
  sent_to ws (trace EVAL_DIR evs p) = broadcasts (trace EVAL_DIR evs p).
Proof.
  revert p. induction evs as [|ev evs IH]; intros p Hevs Hin; [reflexivity|].
  cbn [forallb] in Hevs. apply andb_true_iff in Hevs as [Hev Hevs].
  apply negb_true_iff in Hev.
  rewrite trace_cons, sent_to_app, broadcasts_app.
  rewrite (step_fan_out EVAL_DIR ws p ev Hev Hin). f_equal.
  apply IH; [assumption|]. now apply step_keeps_open.
Qed.

(** X13.  Fan-out: a socket that is in the set with [readyState] OPEN
    is sent every broadcast message, posts and statuses alike, in the
    order of the broadcasts and nothing else, over any events that do
    not concern it.  Two such sockets are therefore sent the same. *)
Theorem open_socket_gets_every_broadcast
    (EVAL_DIR : jsstring) (ws other : nat) (evs : list event) (p : Process) :
  forallb (fun ev => negb (names_socket ws ev)) evs = true ->
  In (ws, OPEN) (clients (vars p)) ->
  sent_to ws (trace EVAL_DIR evs p) = broadcasts (trace EVAL_DIR evs p)
  /\ (forallb (fun ev => negb (names_socket other ev)) evs = true ->
      In (other, OPEN) (clients (vars p)) ->
      sent_to other (trace EVAL_DIR evs p) = sent_to ws (trace EVAL_DIR evs p)).
Proof.
  intros Hevs Hin.
  rewrite (open_socket_gets_every_broadcast_aux EVAL_DIR ws evs p Hevs Hin).
  split; [reflexivity|].
  intros Hevs' Hin'. now apply open_socket_gets_every_broadcast_aux.
Qed.

Lemma not_open_member (ws : nat) (cl : list (nat * N)) :
  (forall rs, In (ws, rs) cl -> rs <> OPEN) ->
  existsb (Nat.eqb ws) (open_sockets cl) = false.
Proof.
  intros H. destruct (existsb (Nat.eqb ws) (open_sockets cl)) eqn:E;
    [|reflexivity].
  apply existsb_exists in E as (w & Hin & Hw). apply Nat.eqb_eq in Hw. subst w.
  unfold open_sockets in Hin. apply in_map_iff in Hin as ([w rs] & Hw & Hin).
  cbn [fst] in Hw. subst w. apply filter_In in Hin as [Hin Hrs].
  cbn [snd] in Hrs. apply N.eqb_eq in Hrs. now apply H in Hin.
Qed.

(** X14.  A socket of the set whose [readyState] is not OPEN is skipped
    by every broadcast: the chunk and exit handlers send it nothing. *)
Theorem closing_socket_is_skipped
    (EVAL_DIR : jsstring) (ws : nat) (p : Process) (ev : event) :
  (forall rs, In (ws, rs) (clients (vars p)) -> rs <> OPEN) ->
  match ev with Output _ _ | Exit _ _ | Timeout _ _ => true | _ => false end
    = true ->
  sent_to ws (snd (step EVAL_DIR p ev)) = [].
Proof.
  intros Hrs Hev. pose proof (not_open_member ws _ Hrs) as Hopen.
  unfold step. destruct (halted p); [reflexivity|].
  destruct p as [b h]. cbn [vars] in *.
  destruct ev as [from raw|c s|cb spn|w ip|w parsed now disk|w rs|w|src];
    try discriminate Hev; cbn [dispatch].
  - rewrite handleOutput_spec.
    destruct (output_throws raw b); cbn [snd]; [reflexivity|].
    rewrite !sent_to_app. unfold compiled_log, booted_log.
    destruct (negb (startupSent b) && includes raw compile_marker),
      (sclangProc b),
      (negb (sclangAlive b) && includes raw boot_marker),
      (sanitize raw); cbn [sent_to app]; rewrite ?Hopen; reflexivity.
  - destruct b; cbn in *. now rewrite Hopen.
  - destruct cb, spn; now destruct b.
Qed.

Lemma last_status_app (xs ys : list OutputMessage) :
  last_status (xs ++ ys)
    = match last_status ys with
      | Some c => Some c
      | None => last_status xs
      end.
Proof.
  induction xs as [|[t|c] xs IH]; cbn [app last_status].
  - now destruct (last_status ys).
  - exact IH.
  - rewrite IH. now destruct (last_status ys), (last_status xs).
Qed.

(** The last status broadcast by a step, if any, is the new value of
    [sclangAlive]; a step that broadcasts none leaves it as it was. *)
Lemma step_last_status (EVAL_DIR : jsstring) (p : Process) (ev : event) :
  match last_status (broadcasts (snd (step EVAL_DIR p ev))) with
  | Some c => c
  | None => sclangAlive (vars p)
  end = sclangAlive (vars (fst (step EVAL_DIR p ev))).
Proof.
  unfold step. destruct (halted p); [reflexivity|].
  destruct p as [b h]. cbn [vars].
  destruct ev as [from raw|c s|cb spn|w ip|w parsed now disk|w rs|w|src]; cbn [dispatch].
  - rewrite handleOutput_spec.
    destruct (output_throws raw b); cbn [fst snd vars]; [now destruct b|].
    rewrite !broadcasts_app. unfold compiled_log, booted_log.
    destruct b as [proc alive sent ctr cl sp].
    cbn [sclangAlive startupSent sclangProc clients set_sclangAlive
         set_startupSent].
    destruct sent, (includes raw compile_marker), proc, alive,
      (includes raw boot_marker), (sanitize raw); reflexivity.
  - now destruct b.
  - destruct cb, spn; now destruct b.
  - now destruct b.
  - destruct (on_message_cases EVAL_DIR w parsed now disk b) as (b' & out & -> & H).
    cbv zeta in H. cbn [fst snd vars].
    destruct H as [[-> ->]|[[-> [e ->]]|[[-> [_ ->]]|
                   [(-> & _ & e' & ->)|[(-> & _ & code & proc & _ & ->)|
                   [(-> & _ & _ & code & ->)|(-> & _ & proc & _ & ->)]]]]]];
      now destruct b.
  - now destruct b.
  - now destruct b.
  - now destruct b.
Qed.

Lemma run_last_status (EVAL_DIR : jsstring) (evs : list event) (p : Process) :
  match last_status (broadcasts (trace EVAL_DIR evs p)) with
  | Some c => c
  | None => sclangAlive (vars p)
  end = sclangAlive (vars (final EVAL_DIR evs p)).
Proof.
  revert p. induction evs as [|ev evs IH]; intros p; [reflexivity|].
  rewrite trace_cons, final_cons, broadcasts_app, last_status_app.
  rewrite <- IH.
  destruct (last_status (broadcasts (trace EVAL_DIR evs
                                      (fst (step EVAL_DIR p ev)))));
    [reflexivity|].
  apply step_last_status.
Qed.

(** X15.  What a client sees is what the bridge holds: for a socket
    that connects and then stays open, the last status message it has
    been sent always carries the current value of [sclangAlive]. *)
Theorem client_status_is_current
    (EVAL_DIR : jsstring) (pre post : list event) (ws : nat) (ip : jsstring) :
  forallb (fun ev => negb (names_socket ws ev)) pre = true ->
  halted (final EVAL_DIR pre loaded) = false ->
  forallb (fun ev => negb (names_socket ws ev)) post = true ->
  last_status
    (sent_to ws (trace EVAL_DIR (pre ++ Connection ws ip :: post) loaded))
    = Some (sclangAlive
              (vars (final EVAL_DIR (pre ++ Connection ws ip :: post) loaded))).
Proof.
  intros Hpre Hrun Hpost.
  destruct (run_unnamed EVAL_DIR ws pre loaded Hpre) as [Hnone Hnot].
  { cbn. tauto. }
  rewrite trace_app, sent_to_app, Hnone, trace_cons, sent_to_app.
  rewrite final_app, final_cons.
  set (p := final EVAL_DIR pre loaded) in *.
  rewrite step_connection by assumption. cbn [fst snd sent_to app].
  rewrite Nat.eqb_refl.
  set (p1 := {| vars := set_clients (clients_add ws (clients (vars p))) (vars p);
                halted := false |}).
  assert (Hin : In (ws, OPEN) (clients (vars p1))).
  { unfold p1. destruct (vars p) as [proc alive sent ctr cl sp]. cbn in *.
    unfold clients_add. destruct (existsb _ cl) eqn:E.
    - apply existsb_exists in E as ([w rs] & Hw & E). cbn [fst] in E.
      apply Nat.eqb_eq in E. subst w. exfalso. apply Hnot.
      apply in_map_iff. exists (ws, rs). auto.
    - apply in_app_iff. right. now left. }
  rewrite (open_socket_gets_every_broadcast_aux EVAL_DIR ws post p1 Hpost Hin).
  cbn [last_status]. rewrite <- (run_last_status EVAL_DIR post p1).
  replace (sclangAlive (vars p1)) with (sclangAlive (vars p))
    by (unfold p1; now destruct (vars p)).
  cbn [app last_status].
  now destruct (last_status (broadcasts (trace EVAL_DIR post p1))).
Qed.

(** X17.  Connecting a socket that is not in the set and closing it
    again leaves the set exactly as it was; while connected, the socket
    is in the set, last, with [readyState] OPEN. *)
Theorem connect_then_close_restores_clients
    (EVAL_DIR : jsstring) (p : Process) (ws : nat) (ip : jsstring) :
  halted p = false ->
  ~ In ws (map fst (clients (vars p))) ->
  clients (vars (final EVAL_DIR [Connection ws ip] p))
    = clients (vars p) ++ [(ws, OPEN)]
  /\ clients (vars (final EVAL_DIR [Connection ws ip; Close ws] p))
     = clients (vars p).
Proof.
  intros Hh Hnot.
  assert (Hadd : clients_add ws (clients (vars p))
                 = clients (vars p) ++ [(ws, OPEN)]).
  { unfold clients_add.
    destruct (existsb (fun c => Nat.eqb (fst c) ws) (clients (vars p))) eqn:E;
      [|reflexivity].
    apply existsb_exists in E as ([w rs] & Hin & E). cbn [fst] in E.
    apply Nat.eqb_eq in E. subst w. exfalso. apply Hnot.
    apply in_map_iff. exists (ws, rs). auto. }
  rewrite !final_cons. cbn [final run fst].
  rewrite !step_clients, Hh. rewrite step_connection by assumption.
  cbn [fst halted]. split; [exact Hadd|].
  rewrite Hadd. unfold clients_delete. rewrite filter_app.
  cbn [filter fst]. rewrite Nat.eqb_refl. cbn [negb]. rewrite app_nil_r.
  apply forallb_filter_id. apply forallb_forall.
  intros [w rs] Hin. cbn [fst]. apply negb_true_iff, Nat.eqb_neq.
  intros ->. apply Hnot. apply in_map_iff. exists (ws, rs). auto.
Qed.

(** ** The help root *)

(** X18.  A request for the help root, [/help] or [/help/], reads
    [Help.html] if it exists, otherwise [index.html] if that exists,
    and otherwise the help directory itself; the first existing entry
    point wins. *)
Theorem help_root_entry_point
    (cwd : jsstring) (fs : FileSystem) (url : jsstring) :
  url = lit "/help" \/ url = lit "/help/" ->
  fileRead (help_handler cwd fs url)
    = Some (if existsSync fs (HELP_DIR ++ lit "/Help.html")
            then HELP_DIR ++ lit "/Help.html"
            else if existsSync fs (HELP_DIR ++ lit "/index.html")
                 then HELP_DIR ++ lit "/index.html"
                 else HELP_DIR).
Proof.
  assert (J1 : path_join HELP_DIR (lit "Help.html") = HELP_DIR ++ lit "/Help.html")
    by reflexivity.
  assert (J2 : path_join HELP_DIR (lit "index.html") = HELP_DIR ++ lit "/index.html")
    by reflexivity.
  assert (H : help_rel fs url
                 = (if existsSync fs (HELP_DIR ++ lit "/Help.html")
                    then lit "/Help.html"
                    else if existsSync fs (HELP_DIR ++ lit "/index.html")
                         then lit "/index.html" else [47]) ->
          startsWith url (lit "/help") = true ->
          fileRead (help_handler cwd fs url)
          = Some (if existsSync fs (HELP_DIR ++ lit "/Help.html")
                  then HELP_DIR ++ lit "/Help.html"
                  else if existsSync fs (HELP_DIR ++ lit "/index.html")
                       then HELP_DIR ++ lit "/index.html"
                       else HELP_DIR)).
  { intros Hrel Hurl. unfold help_handler, help_filePath.
    rewrite Hurl, Hrel. cbn [negb].
    destruct (existsSync fs (HELP_DIR ++ lit "/Help.html"));
      [|destruct (existsSync fs (HELP_DIR ++ lit "/index.html"))].
    - change (path_resolve cwd HELP_DIR (strip_leading_slashes (lit "/Help.html")))
        with (HELP_DIR ++ lit "/Help.html").
      change (inside_help (HELP_DIR ++ lit "/Help.html")) with true. cbn [negb].
      now destruct (readFile fs (HELP_DIR ++ lit "/Help.html")).
    - change (path_resolve cwd HELP_DIR (strip_leading_slashes (lit "/index.html")))
        with (HELP_DIR ++ lit "/index.html").
      change (inside_help (HELP_DIR ++ lit "/index.html")) with true. cbn [negb].
      now destruct (readFile fs (HELP_DIR ++ lit "/index.html")).
    - change (path_resolve cwd HELP_DIR (strip_leading_slashes [47]))
        with HELP_DIR.
      change (inside_help HELP_DIR) with true. cbn [negb].
      now destruct (readFile fs HELP_DIR). }
  intros [-> | ->]; apply H; try reflexivity;
    unfold help_rel; cbn [slice_from skipn lit map list_ascii_of_string];
    cbn [str_eqb entry_point]; rewrite ?J1, ?J2;
    destruct (existsSync fs (HELP_DIR ++ lit "/Help.html")),
      (existsSync fs (HELP_DIR ++ lit "/index.html")); reflexivity.
Qed.

(* ================================================================== *)
(** * The editor's block finder                                        *)
(* ================================================================== *)

Lemma drop_spaces_length (s : jsstring) :
  (length (drop_spaces s) <= length s)%nat.
Proof.
  induction s as [|c s IH]; [reflexivity|].
  cbn [drop_spaces]. destruct (is_space c); cbn [length]; lia.
Qed.

Lemma drop_spaces_idem (s : jsstring) :
  drop_spaces (drop_spaces s) = drop_spaces s.
Proof.
  induction s as [|c s IH]; [reflexivity|].
  cbn [drop_spaces]. destruct (is_space c) eqn:E; [assumption|].
  cbn [drop_spaces]. now rewrite E.
Qed.

Lemma drop_spaces_split (s : jsstring) :
  exists w, s = w ++ drop_spaces s.
Proof.
  induction s as [|c s [w IH]]; [now exists []|].
  cbn [drop_spaces]. destruct (is_space c).
  - exists (c :: w). cbn [app]. now f_equal.
  - now exists [].
Qed.

Lemma drop_spaces_fixed_front (u v : jsstring) :
  u <> [] -> drop_spaces (u ++ v) = u ++ v -> drop_spaces u = u.
Proof.
  destruct u as [|x u]; [congruence|]. intros _ H.
  cbn [app drop_spaces] in *. destruct (is_space x); [|reflexivity].
  pose proof (drop_spaces_length (u ++ v)) as Hlen.
  rewrite H in Hlen. cbn [length] in Hlen. lia.
Qed.

(** Trimming leaves nothing for [trimEnd] to remove. *)
Lemma trimEnd_trim (s : jsstring) : trimEnd (trim s) = trim s.
Proof.
  unfold trim, trimStart.
  set (t := trimEnd s).
  assert (Ht : drop_spaces (rev t) = rev t).
  { unfold t, trimEnd. rewrite rev_involutive. apply drop_spaces_idem. }
  destruct (drop_spaces_split t) as [w Hw].
  set (u := drop_spaces t) in *.
  unfold trimEnd.
  destruct u as [|x u'] eqn:Eu; [reflexivity|].
  rewrite Hw, rev_app_distr in Ht.
  apply drop_spaces_fixed_front in Ht.
  - rewrite Ht. apply rev_involutive.
  - intros E. apply (f_equal (@length N)) in E.
    rewrite length_rev in E. discriminate E.
Qed.

(** X19.  The code the block finder hands to the eval request is
    trimmed at both ends, so the bridge's [trimEnd] has nothing left to
    remove: the staging file holds exactly the code that was sent,
    between the block delimiters. *)
Theorem found_block_is_staged_as_sent (text : jsstring) (pos : nat) :
  let sent := Editor.code (Editor.findBlockToEval text pos) in
  trim sent = sent
  /\ wrap_block sent = [40; 10] ++ sent ++ [10; 41; 10].
Proof.
  assert (H : forall s, trim (trim s) = trim s
                        /\ wrap_block (trim s) = [40; 10] ++ trim s ++ [10; 41; 10]).
  { intros s. split.
    - unfold trim at 1. rewrite trimEnd_trim. unfold trim, trimStart.
      apply drop_spaces_idem.
    - unfold wrap_block. now rewrite trimEnd_trim. }
  cbv zeta. unfold Editor.findBlockToEval.
  destruct (match Editor.open_stack text 0 pos [] with
            | s :: _ => Some s
            | [] => Editor.indexOf 40 text 0 pos
            end) as [start|].
  - destruct (Editor.close_paren (skipn start text) start 0);
      cbn [Editor.code]; apply H.
  - cbn [Editor.code]. apply H.
Qed.

Lemma indexOf_bounds (ch : N) (text : jsstring) :
  forall i start k,
    Editor.indexOf ch text i start = Some k ->
    (start <= k /\ i <= k < i + length text)%nat.
Proof.
  induction text as [|c r IH]; intros i start k H; [discriminate|].
  cbn [Editor.indexOf length] in *.
  destruct ((start <=? i)%nat && (c =? ch)) eqn:E.
  - injection H as <-. apply andb_true_iff in E as [E _].
    apply Nat.leb_le in E. lia.
  - apply IH in H. lia.
Qed.

Lemma lastIndexOf_bounds (ch : N) (text : jsstring) :
  forall i start found k,
    Editor.lastIndexOf ch text i start found = Some k ->
    found = Some k
    \/ ((i <= k <= start)%nat /\ nth_error text (k - i) = Some ch).
Proof.
  induction text as [|c r IH]; intros i start found k H; [now left|].
  cbn [Editor.lastIndexOf] in H.
  destruct (i <=? start)%nat eqn:E; [|now left].
  apply Nat.leb_le in E.
  apply IH in H as [H|[Hk Hnth]].
  - destruct (c =? ch) eqn:Ec; [|now left].
    injection H as <-. right. split; [lia|].
    rewrite Nat.sub_diag. cbn. f_equal. now apply N.eqb_eq.
  - right. split; [lia|].
    replace (k - i)%nat with (S (k - S i)) by lia. exact Hnth.
Qed.

Lemma close_paren_bounds (text : jsstring) :
  forall i depth k,
    Editor.close_paren text i depth = Some k ->
    (i <= k < i + length text)%nat.
Proof.
  induction text as [|c r IH]; intros i depth k H; [discriminate|].
  cbn [Editor.close_paren length] in *.
  destruct (c =? 40); [apply IH in H; lia|].
  destruct (c =? 41); [|apply IH in H; lia].
  destruct (depth - 1 =? 0)%Z; [injection H as <-; lia|apply IH in H; lia].
Qed.

Lemma open_stack_bounds (text : jsstring) :
  forall i pos stack,
    Forall (fun s => (s < pos /\ s < i)%nat) stack ->
    Forall (fun s => (s < pos /\ s < i + length text)%nat)
      (Editor.open_stack text i pos stack).
Proof.
  induction text as [|c r IH]; intros i pos stack Hs.
  - cbn [Editor.open_stack length].
    eapply Forall_impl; [|exact Hs]. intros s. cbn beta. lia.
  - cbn [Editor.open_stack length].
    destruct (i <? pos)%nat eqn:E.
    + apply Nat.ltb_lt in E.
      replace (i + S (length r))%nat with (S i + length r)%nat by lia.
      apply IH.
      assert (Hs' : Forall (fun s => (s < pos /\ s < S i)%nat) stack).
      { eapply Forall_impl; [|exact Hs]. intros s. cbn beta. lia. }
      destruct (c =? 40).
      * apply Forall_app. split; [assumption|]. repeat constructor; lia.
      * destruct (c =? 41); [|assumption].
        clear -Hs'. induction stack as [|s [|s' stack] IHs]; cbn [removelast];
          [constructor|constructor|].
        inversion Hs'; subst. constructor; auto.
    + eapply Forall_impl; [|exact Hs]. intros s. cbn beta. lia.
Qed.

(** X20.  For a cursor inside the document, the region the block
    finder returns lies inside the document and is not reversed:
    [from <= to <= text.length].  The one exception the code has, a
    cursor at position 0 of a text that starts with a line feed and
    holds no parenthesis to fall back on, is excluded by the second
    hypothesis. *)
Theorem found_region_within_text (text : jsstring) (pos : nat) :
  (pos <= length text)%nat ->
  (0 < pos)%nat \/ nth_error text 0 <> Some 10 ->
  let r := Editor.findBlockToEval text pos in
  (Editor.from r <= Editor.to r)%nat /\ (Editor.to r <= length text)%nat.
Proof.
  intros Hpos Hedge. cbv zeta. unfold Editor.findBlockToEval.
  pose proof (open_stack_bounds text 0 pos [] (Forall_nil _)) as Hstack.
  assert (Hclose : forall start,
            (start < length text)%nat ->
            let r := match Editor.close_paren (skipn start text) start 0 with
                     | Some i => {| Editor.code := trim (Editor.slice (S start) i text);
                                    Editor.from := start; Editor.to := S i |}
                     | None => {| Editor.code := trim (skipn (S start) text);
                                  Editor.from := start;
                                  Editor.to := length text |}
                     end in
            (Editor.from r <= Editor.to r)%nat
            /\ (Editor.to r <= length text)%nat).
  { intros start Hstart. cbv zeta.
    destruct (Editor.close_paren (skipn start text) start 0) as [k|] eqn:E;
      cbn [Editor.from Editor.to]; [|lia].
    apply close_paren_bounds in E. rewrite length_skipn in E. lia. }
  destruct (Editor.open_stack text 0 pos []) as [|s stack].
  - destruct (Editor.indexOf 40 text 0 pos) as [start|] eqn:Estart.
    + apply indexOf_bounds in Estart. apply Hclose. lia.
    + cbn [Editor.from Editor.to].
      assert (Hto : (pos <= match Editor.indexOf 10 text 0 pos with
                            | Some i => i
                            | None => length text
                            end <= length text)%nat).
      { destruct (Editor.indexOf 10 text 0 pos) as [k|] eqn:E; [|lia].
        apply indexOf_bounds in E. lia. }
      assert (Hfrom : (match Editor.lastIndexOf 10 text 0 (pos - 1) None with
                       | Some i => S i
                       | None => 0
                       end <= pos)%nat).
      { destruct (Editor.lastIndexOf 10 text 0 (pos - 1) None) as [k|] eqn:E;
          [|lia].
        apply lastIndexOf_bounds in E as [E|[Hk Hnth]]; [discriminate|].
        destruct Hedge as [Hedge|Hedge]; [lia|].
        destruct pos as [|pos']; [|lia].
        replace k with 0%nat in Hnth by lia. cbn [Nat.sub] in Hnth. congruence. }
      lia.
  - inversion Hstack as [|x l Hs _]; subst. apply Hclose. lia.
Qed.

(* ================================================================== *)
(** * The stream of messages as a whole                                *)
(* ================================================================== *)

Lemma announces_changes_app (known : bool) (xs ys : list bool) :
  announces_changes known (xs ++ ys)
    = announces_changes known xs
      && announces_changes (match rev xs with c :: _ => c | [] => known end) ys.
Proof.
  revert known. induction xs as [|x xs IH]; intros known; [reflexivity|].
  cbn [app announces_changes rev].
  assert (E : forall k, match rev xs ++ [x] with c :: _ => c | [] => k end
                        = match rev xs with c :: _ => c | [] => x end).
  { intros k. now destruct (rev xs). }
  rewrite E. destruct x.
  - rewrite IH, andb_assoc. reflexivity.
  - rewrite IH. reflexivity.
Qed.

(** The statuses of one step: none, or the one that announces the new
    value of [sclangAlive]. *)
Lemma step_statuses_shape (EVAL_DIR : jsstring) (p : Process) (ev : event) :
  let a := sclangAlive (vars p) in
  let a' := sclangAlive (vars (fst (step EVAL_DIR p ev))) in
  (statuses (snd (step EVAL_DIR p ev)) = [] /\ a' = a)
  \/ (statuses (snd (step EVAL_DIR p ev)) = [true] /\ a = false /\ a' = true)
  \/ (statuses (snd (step EVAL_DIR p ev)) = [false] /\ a' = false).
Proof.
  cbv zeta. destruct (is_exit ev) eqn:Hev.
  - destruct ev; try discriminate. destruct (halted p) eqn:Hh.
    + rewrite step_halted by assumption. now left.
    + rewrite step_exit by assumption. right. right. now destruct (vars p).
  - destruct (step_status EVAL_DIR p ev Hev) as [Hs Hm]. cbv zeta in Hs.
    rewrite Hs.
    destruct (sclangAlive (vars p)) eqn:Ea.
    + left. split; [reflexivity|]. now apply Hm.
    + destruct (sclangAlive (vars (fst (step EVAL_DIR p ev)))); cbn; auto.
Qed.

(** X21.  Along any run, from any state, a [connected=true] status is
    only broadcast when the status before it (or, at the start, the
    bridge's own flag) was false: clients are never told [true] twice
    in a row. *)
Theorem true_is_never_announced_twice
    (EVAL_DIR : jsstring) (evs : list event) (p : Process) :
  announces_changes (sclangAlive (vars p)) (statuses (trace EVAL_DIR evs p))
    = true.
Proof.
  revert p. induction evs as [|ev evs IH]; intros p; [reflexivity|].
  rewrite trace_cons, statuses_app, announces_changes_app.
  destruct (step_statuses_shape EVAL_DIR p ev)
    as [[-> Ha]|[(-> & Ha & Ha')|[-> Ha]]]; cbv zeta in *;
    cbn [rev app announces_changes];
    specialize (IH (fst (step EVAL_DIR p ev))).
  - now rewrite Ha in IH.
  - rewrite Ha. cbn [negb andb]. now rewrite Ha' in IH.
  - now rewrite Ha in IH.
Qed.

Lemma step_output_posts (EVAL_DIR : jsstring) (p : Process) (from : stream)
    (raw : jsstring) (proc : nat) :
  halted p = false ->
  sclangProc (vars p) = Some proc ->
  posts (snd (step EVAL_DIR p (Output from raw))) = non_empty [sanitize raw].
Proof.
  intros Hh Hproc. unfold step. rewrite Hh. cbn [dispatch].
  rewrite handleOutput_spec. unfold output_throws. rewrite Hproc.
  cbn [snd]. rewrite !posts_app. unfold compiled_log, booted_log, non_empty.
  destruct (negb (startupSent (vars p)) && includes raw compile_marker),
    (negb (sclangAlive (vars p)) && includes raw boot_marker),
    (sanitize raw); reflexivity.
Qed.

(** X22.  The child's output is relayed chunk by chunk and in order:
    over the chunks of one child the posts broadcast are exactly the
    sanitized chunks that are not empty, none merged, dropped or
    reordered. *)
Theorem posts_follow_chunks
    (EVAL_DIR : jsstring) (from : stream) (cs : list jsstring)
    (p : Process) (proc : nat) :
  halted p = false ->
  sclangProc (vars p) = Some proc ->
  posts (trace EVAL_DIR (outputs from cs) p) = non_empty (map sanitize cs).
Proof.
  revert p. induction cs as [|raw cs IH]; intros p Hh Hproc; [reflexivity|].
  cbn [outputs map]. fold (outputs from cs).
  rewrite trace_cons, posts_app.
  rewrite (step_output_posts EVAL_DIR p from raw proc Hh Hproc).
  destruct (step_output_live EVAL_DIR p from raw proc Hh Hproc)
    as (Hh1 & Hproc1 & _).
  rewrite (IH _ Hh1 Hproc1). unfold non_empty. cbn [filter].
  now destruct (negb (str_eqb (sanitize raw) [])).
Qed.

(** ** The sanitizer, pass by pass *)

Lemma normalize_line_endings_step (c d : N) (r : jsstring) :
  normalize_line_endings (c :: d :: r)
    = if c =? 13
      then 10 :: (if d =? 10 then normalize_line_endings r
                  else normalize_line_endings (d :: r))
      else c :: normalize_line_endings (d :: r).
Proof. reflexivity. Qed.

(** The two replacements of [sanitize] make the one-pass normalization. *)
Lemma replace_cr_crlf (s : jsstring) :
  replace_cr (replace_crlf s) = normalize_line_endings s.
Proof.
  assert (H : forall n s, (length s <= n)%nat ->
                replace_cr (replace_crlf s) = normalize_line_endings s).
  { induction n as [|n IH]; intros [|c [|d r]] Hn;
      try (cbn [length] in Hn; lia); try reflexivity.
    - cbn. now destruct (c =? 13).
    - rewrite replace_crlf_step, normalize_line_endings_step.
      cbn [length] in Hn.
      destruct (c =? 13) eqn:Ec; cbn [andb].
      + destruct (d =? 10) eqn:Ed.
        * unfold replace_cr. cbn [map]. change (10 =? 13) with false.
          cbv iota. f_equal. apply IH. lia.
        * unfold replace_cr. cbn [map]. rewrite Ec. f_equal.
          apply (IH (d :: r)). cbn [length]. lia.
      + unfold replace_cr. cbn [map]. rewrite Ec. f_equal.
        apply (IH (d :: r)). cbn [length]. lia. }
  apply (H (length s)). lia.
Qed.

Lemma subsequence_same_length (a b : jsstring) :
  subsequence a b -> (length b <= length a)%nat -> a = b.
Proof.
  induction 1 as [|c a b Hs IH|c a b Hs IH]; cbn [length]; intros Hlen.
  - reflexivity.
  - f_equal. apply IH. lia.
  - apply subsequence_length in Hs. lia.
Qed.

(** A pass that returns its input found no match at a line start. *)
Lemma replace_bol_fixed (m : jsstring -> option nat) (s : jsstring) :
  forall bol, replace_bol m 0 bol s = s -> no_match m bol s = true.
Proof.
  induction s as [|c r IH]; intros bol H; cbn [replace_bol no_match] in *.
  - reflexivity.
  - destruct bol.
    + destruct (m (c :: r)) as [[|k]|] eqn:Em.
      * injection H as H. now rewrite (IH _ H).
      * exfalso.
        pose proof (subsequence_length _ _
                      (replace_bol_subsequence m r k (is_line_terminator c))) as L.
        rewrite H in L. cbn [length] in L. lia.
      * injection H as H. now rewrite (IH _ H).
    + injection H as H. now rewrite (IH _ H).
Qed.

(** Text that [sanitize] returns as it is holds no carriage return and
    no match of an internal pattern at a line start. *)
Lemma sanitize_fixed (t : jsstring) :
  sanitize t = t -> residue_free t = true.
Proof.
  intros H.
  assert (Hcr : forallb (fun c => negb (c =? 13)) t = true).
  { apply forallb_forall. intros c Hc. apply negb_true_iff, N.eqb_neq.
    intros ->. rewrite <- H in Hc. now apply replace_cr_no_cr in Hc. }
  unfold sanitize, strip_internal, remove_at_line_starts in H.
  set (t1 := replace_bol match_prompt 0 true t) in *.
  set (t2 := replace_bol match_load_eval 0 true t1) in *.
  set (t3 := replace_bol match_load_startup 0 true t2) in *.
  set (t4 := replace_bol match_cmdperiod 0 true t3) in *.
  pose proof (replace_bol_subsequence match_prompt t 0%nat true) as S1.
  pose proof (replace_bol_subsequence match_load_eval t1 0%nat true) as S2.
  pose proof (replace_bol_subsequence match_load_startup t2 0%nat true) as S3.
  pose proof (replace_bol_subsequence match_cmdperiod t3 0%nat true) as S4.
  fold t1 in S1. fold t2 in S2. fold t3 in S3. fold t4 in S4.
  pose proof (subsequence_length _ _ S1) as L1.
  pose proof (subsequence_length _ _ S2) as L2.
  pose proof (subsequence_length _ _ S3) as L3.
  pose proof (subsequence_length _ _ S4) as L4.
  pose proof (replace_crlf_length t4) as L5.
  assert (L6 : length (replace_cr (replace_crlf t4)) = length t)
    by now rewrite H.
  unfold replace_cr in L6. rewrite length_map in L6.
  assert (E1 : t1 = t) by (apply subsequence_same_length; [assumption|lia]).
  assert (E2 : t2 = t1) by (apply subsequence_same_length; [assumption|lia]).
  assert (E3 : t3 = t2) by (apply subsequence_same_length; [assumption|lia]).
  assert (E4 : t4 = t3) by (apply subsequence_same_length; [assumption|lia]).
  unfold residue_free. rewrite Hcr. cbn [andb].
  unfold t4 in E4. rewrite E3, E2, E1 in E4.
  unfold t3 in E3. rewrite E2, E1 in E3.
  unfold t2 in E2. rewrite E1 in E2.
  unfold t1 in E1.
  rewrite (replace_bol_fixed _ _ _ E1), (replace_bol_fixed _ _ _ E2),
    (replace_bol_fixed _ _ _ E3), (replace_bol_fixed _ _ _ E4).
  reflexivity.
Qed.

(** *** Lines that begin with the prompt *)

Lemma drop_spaces_front (s : jsstring) :
  exists w, s = w ++ drop_spaces s /\ forallb is_space w = true.
Proof.
  induction s as [|c s (w & IH & Hw)]; [now exists []|].
  cbn [drop_spaces]. destruct (is_space c) eqn:E.
  - exists (c :: w). cbn [app forallb]. rewrite E, Hw. split; [now f_equal|reflexivity].
  - now exists [].
Qed.

Lemma drop_spaces_head (s : jsstring) (x : N) (r : jsstring) :
  drop_spaces s = x :: r -> is_space x = false.
Proof.
  induction s as [|c s IH]; [discriminate|].
  cbn [drop_spaces]. destruct (is_space c) eqn:E; [assumption|].
  intros [= <- _]. assumption.
Qed.

Lemma replace_bol_skip (m : jsstring -> option nat) (pre s : jsstring) :
  one_line pre = true ->
  replace_bol m (length pre) false (pre ++ s) = replace_bol m 0 false s.
Proof.
  induction pre as [|c pre IH]; intros H; cbn [app length replace_bol].
  - reflexivity.
  - cbn [one_line forallb] in H. apply andb_true_iff in H as [Hc H].
    apply negb_true_iff in Hc. rewrite Hc. now apply IH.
Qed.

(** A match at a line start that stays within its line is dropped, and
    the scan goes on behind it, no longer at a line start. *)
Lemma replace_bol_take (m : jsstring -> option nat) (c : N) (pre s : jsstring) :
  one_line (c :: pre) = true ->
  m (c :: pre ++ s) = Some (S (length pre)) ->
  replace_bol m 0 true (c :: pre ++ s) = replace_bol m 0 false s.
Proof.
  intros H Hm. cbn [replace_bol]. rewrite Hm.
  cbn [one_line forallb] in H. apply andb_true_iff in H as [Hc H].
  apply negb_true_iff in Hc. rewrite Hc. now apply replace_bol_skip.
Qed.

Lemma one_line_app (a b : jsstring) :
  one_line (a ++ b) = one_line a && one_line b.
Proof. unfold one_line. apply forallb_app. Qed.

Lemma match_prompt_at (w : jsstring) (x : N) (r : jsstring) :
  forallb is_space w = true -> is_space x = false ->
  match_prompt (lit "sc3>" ++ w ++ x :: r) = Some (4 + length w)%nat.
Proof.
  intros Hw Hx. unfold match_prompt.
  replace (startsWith (lit "sc3>" ++ w ++ x :: r) (lit "sc3>")) with true
    by (symmetry; apply startsWith_app; eauto).
  replace (skipn 4 (lit "sc3>" ++ w ++ x :: r)) with (w ++ x :: r)
    by reflexivity.
  now rewrite count_while_stop.
Qed.

Lemma count_while_app (f : N -> bool) (X Y : jsstring) :
  forallb f X = true ->
  count_while f (X ++ Y) = (length X + count_while f Y)%nat.
Proof.
  intros H. induction X as [|x X IH]; [reflexivity|].
  cbn [forallb] in H. apply andb_true_iff in H as [Hx HX].
  cbn [app count_while length]. rewrite Hx. now rewrite IH.
Qed.

Lemma drop_spaces_nil (s : jsstring) :
  drop_spaces s = [] -> forallb is_space s = true.
Proof.
  induction s as [|c s IH]; [reflexivity|].
  cbn [drop_spaces forallb]. destruct (is_space c); [assumption|discriminate].
Qed.

Lemma open_prompt_taken (tail : jsstring) :
  open_prompt tail -> replace_bol match_prompt 0 true tail = [].
Proof.
  intros [->|(w & -> & Hw)]; [reflexivity|].
  change (lit "sc3>" ++ w) with (115 :: (lit "c3>" ++ w)).
  cbn [replace_bol].
  replace (match_prompt (115 :: lit "c3>" ++ w))
    with (Some (4 + length w)%nat).
  2:{ unfold match_prompt.
      replace (startsWith (115 :: lit "c3>" ++ w) (lit "sc3>")) with true
        by reflexivity.
      replace (skipn 4 (115 :: lit "c3>" ++ w)) with w by reflexivity.
      now rewrite count_while_all. }
  cbn [Nat.add]. apply replace_bol_all.
  rewrite length_app. cbn [length lit map list_ascii_of_string]. lia.
Qed.

Lemma open_prompt_head (tail : jsstring) :
  open_prompt tail -> count_while is_space tail = 0%nat.
Proof. intros [->|(w & -> & _)]; reflexivity. Qed.

(** Behind a prompt that stands alone and is closed, the text goes on
    with something that is not white space, or ends. *)
Lemma closed_prompt_rest (l : jsstring) (more : list jsstring) (tail : jsstring) :
  prompts_closed (l :: more) = true -> prompt_only l = true ->
  open_prompt tail ->
  count_while is_space (unlines more ++ tail) = 0%nat.
Proof.
  intros H Hl Ht. cbn [prompts_closed] in H. rewrite Hl in H.
  apply andb_true_iff in H as [H _].
  destruct more as [|[|c n] more]; [now apply open_prompt_head|discriminate|].
  unfold unlines. cbn [map concat app count_while].
  apply negb_true_iff in H. now rewrite H.
Qed.

(** The first pass over whole lines, with or without an open prompt at
    the end: the prompt goes, with the white space behind it, and a
    line that held nothing else goes with its line feed. *)
Lemma prompt_pass (ls : list jsstring) (tail : jsstring) :
  forallb one_line ls = true ->
  prompts_closed ls = true ->
  open_prompt tail ->
  remove_at_line_starts match_prompt (unlines ls ++ tail)
    = unlines (flat_map kept ls).
Proof.
  unfold remove_at_line_starts.
  induction ls as [|l ls IH]; intros Hls Hclosed Ht.
  { now apply open_prompt_taken. }
  cbn [forallb] in Hls. apply andb_true_iff in Hls as [Hl Hls].
  assert (Hclosed' : prompts_closed ls = true).
  { cbn [prompts_closed] in Hclosed. now apply andb_true_iff in Hclosed as [_ H]. }
  specialize (IH Hls Hclosed' Ht).
  assert (Hrest : prompt_only l = true ->
                  count_while is_space (unlines ls ++ tail) = 0%nat)
    by (intros Hpo; now apply (closed_prompt_rest l ls tail)).
  replace (unlines (l :: ls) ++ tail) with (l ++ 10 :: (unlines ls ++ tail))
    by (unfold unlines; cbn [map concat]; now rewrite <- !app_assoc).
  set (rest := unlines ls ++ tail) in *.
  cbn [flat_map]. unfold kept at 1. unfold prompt_only, strip_prompt in *.
  destruct (startsWith l (lit "sc3>")) eqn:Hp; cbn [andb] in *.
  - apply startsWith_app in Hp as [t ->].
    replace (skipn 4 (lit "sc3>" ++ t)) with t in * by reflexivity.
    destruct (drop_spaces_front t) as (w & Et & Hw).
    destruct (drop_spaces t) as [|x b] eqn:Eb.
    + (* a prompt alone *)
      cbn [str_eqb app] in *. specialize (Hrest eq_refl).
      pose proof (drop_spaces_nil _ Eb) as Hsp.
      assert (Hm : match_prompt (lit "sc3>" ++ t ++ 10 :: rest)
                   = Some (S (S (length (lit "c3>" ++ t))))).
      { unfold match_prompt.
        replace (startsWith (lit "sc3>" ++ t ++ 10 :: rest) (lit "sc3>"))
          with true by (symmetry; apply startsWith_app; eauto).
        replace (skipn 4 (lit "sc3>" ++ t ++ 10 :: rest))
          with (t ++ [10] ++ rest) by reflexivity.
        rewrite count_while_app by assumption.
        rewrite (count_while_app is_space [10] rest) by reflexivity.
        rewrite Hrest, length_app. cbn [length lit map list_ascii_of_string].
        f_equal. lia. }
      replace ((lit "sc3>" ++ t) ++ 10 :: rest)
        with (115 :: (lit "c3>" ++ t) ++ 10 :: rest)
        by (now rewrite <- !app_assoc).
      replace (lit "sc3>" ++ t ++ 10 :: rest)
        with (115 :: (lit "c3>" ++ t) ++ 10 :: rest) in Hm
        by (now rewrite <- !app_assoc).
      cbn [replace_bol]. rewrite Hm. rewrite replace_bol_drop. exact IH.
    + (* a prompt in front of something *)
      pose proof (drop_spaces_head _ _ _ Eb) as Hx.
      subst t. cbn [str_eqb app].
      assert (Hw1 : one_line w = true /\ is_line_terminator x = false
                    /\ one_line b = true).
      { rewrite !one_line_app in Hl.
        change (one_line (x :: b))
          with (negb (is_line_terminator x) && one_line b) in Hl.
        apply andb_true_iff in Hl as [_ Hl].
        apply andb_true_iff in Hl as [Hl1 Hl2].
        apply andb_true_iff in Hl2 as [Hl2 Hl3].
        apply negb_true_iff in Hl2. auto. }
      destruct Hw1 as (Hw1 & Hx1 & Hb1).
      replace ((lit "sc3>" ++ w ++ x :: b) ++ 10 :: rest)
        with (115 :: (lit "c3>" ++ w) ++ (x :: b) ++ 10 :: rest)
        by (now rewrite <- !app_assoc).
      rewrite replace_bol_take.
      * rewrite replace_bol_line by (cbn [one_line forallb]; now rewrite Hx1).
        rewrite IH. unfold unlines. cbn [map concat app].
        now rewrite <- app_assoc.
      * cbn [one_line forallb]. fold (one_line (lit "c3>" ++ w)).
        rewrite one_line_app, Hw1. reflexivity.
      * pose proof (match_prompt_at w x (b ++ 10 :: rest) Hw Hx) as Hm.
        replace (S (length (lit "c3>" ++ w))) with (4 + length w)%nat
          by (rewrite length_app; reflexivity).
        rewrite <- Hm. f_equal.
  - (* no prompt *)
    replace (unlines ([l] ++ flat_map kept ls))
      with (l ++ 10 :: unlines (flat_map kept ls))
      by (unfold unlines; cbn [app map concat]; now rewrite <- app_assoc).
    destruct l as [|c l].
    + cbn [app replace_bol].
      replace (match_prompt (10 :: rest)) with (@None nat) by reflexivity.
      change (is_line_terminator 10) with true. now rewrite IH.
    + assert (Hm : match_prompt ((c :: l) ++ 10 :: rest) = None).
      { unfold match_prompt. rewrite startsWith_line; [reflexivity|assumption|].
        cbn. intros [E|[E|[E|[E|[]]]]]; discriminate E. }
      cbn [app] in Hm. cbn [app replace_bol]. rewrite Hm.
      cbn [one_line forallb] in Hl. apply andb_true_iff in Hl as [Hc Hl].
      apply negb_true_iff in Hc. rewrite Hc.
      rewrite replace_bol_line by assumption. now rewrite IH.
Qed.

Lemma echo_or_plain_no_prompt (l : jsstring) :
  echo_or_plain l = true -> startsWith l (lit "sc3>") = false.
Proof.
  unfold echo_or_plain. intros H. apply andb_true_iff in H as [_ H].
  apply orb_true_iff in H as [H|H].
  - unfold is_echo in H.
    apply orb_true_iff in H as [H|H]; [apply orb_true_iff in H as [H|H]|].
    + apply andb_true_iff in H as [H _].
      apply startsWith_app in H as [r ->]. reflexivity.
    + apply andb_true_iff in H as [_ H]. apply andb_true_iff in H as [H _].
      apply startsWith_app in H as [r ->]. reflexivity.
    + apply str_eqb_eq in H. subst l. reflexivity.
  - apply negb_true_iff in H. unfold starts_internal in H.
    apply orb_false_iff in H as [H _]. now apply orb_false_iff in H as [H _].
Qed.

Lemma echo_or_plain_one_line (l : jsstring) :
  echo_or_plain l = true -> one_line l = true.
Proof. unfold echo_or_plain. intros H. now apply andb_true_iff in H as [H _]. Qed.

Lemma post_lines_bodies (ls : list jsstring) :
  forallb post_line ls = true ->
  forallb one_line ls = true
  /\ forallb echo_or_plain (flat_map kept ls) = true.
Proof.
  induction ls as [|l ls IH]; intros H; [split; reflexivity|].
  cbn [forallb] in H. apply andb_true_iff in H as [Hl H].
  destruct (IH H) as [H1 H2]. unfold post_line in Hl.
  apply andb_true_iff in Hl as [Hl1 Hl2].
  split; [cbn [forallb]; now rewrite Hl1|].
  cbn [flat_map]. rewrite forallb_app, H2, andb_true_r.
  unfold kept. destruct (prompt_only l); [reflexivity|].
  cbn [forallb]. now rewrite Hl2.
Qed.

(** Lines that hold no prompt pass the first pass as they are. *)
Lemma prompt_pass_bodies (bs : list jsstring) :
  forallb echo_or_plain bs = true ->
  remove_at_line_starts match_prompt (unlines bs) = unlines bs.
Proof.
  intros H.
  assert (Hnp : forall b, In b bs -> startsWith b (lit "sc3>") = false).
  { intros b Hin. rewrite forallb_forall in H. apply echo_or_plain_no_prompt. auto. }
  assert (Hbody : flat_map kept bs = bs).
  { clear H. induction bs as [|b bs IH]; [reflexivity|].
    cbn [flat_map]. unfold kept at 1, prompt_only, strip_prompt.
    rewrite (Hnp b (or_introl eq_refl)). cbn [andb app].
    f_equal. apply IH. intros b' Hin. apply Hnp. now right. }
  rewrite <- (app_nil_r (unlines bs)). rewrite prompt_pass.
  - now rewrite Hbody, app_nil_r.
  - apply forallb_forall. intros b Hin. rewrite forallb_forall in H.
    apply echo_or_plain_one_line. auto.
  - clear H Hbody. induction bs as [|b bs IH]; [reflexivity|].
    cbn [prompts_closed]. unfold prompt_only at 1.
    rewrite (Hnp b (or_introl eq_refl)). cbn [andb].
    apply IH. intros b' Hin. apply Hnp. now right.
  - now left.
Qed.

Lemma shown_bodies (ls : list jsstring) :
  filter (fun l => negb (is_echo l)) (flat_map kept ls) = flat_map shown ls.
Proof.
  induction ls as [|l ls IH]; [reflexivity|].
  cbn [flat_map]. rewrite filter_app, IH. f_equal.
  unfold kept, shown. destruct (prompt_only l); [reflexivity|].
  cbn [orb filter]. now destruct (is_echo (strip_prompt l)).
Qed.

(** Post-window lines, with or without an open prompt at the end, are
    sanitized as what the first pass keeps of them. *)
Lemma sanitize_post_lines (ls : list jsstring) (tail : jsstring) :
  forallb post_line ls = true ->
  prompts_closed ls = true ->
  open_prompt tail ->
  sanitize (unlines ls ++ tail) = unlines (flat_map shown ls)
  /\ sanitize (sanitize (unlines ls ++ tail)) = sanitize (unlines ls ++ tail).
Proof.
  intros H Hclosed Ht. destruct (post_lines_bodies ls H) as [Hone Hb].
  assert (E : sanitize (unlines ls ++ tail) = sanitize (unlines (flat_map kept ls))).
  { unfold sanitize, strip_internal.
    rewrite (prompt_pass ls tail Hone Hclosed Ht).
    now rewrite (prompt_pass_bodies _ Hb). }
  rewrite E. split.
  - rewrite (sanitize_lines _ Hb). now rewrite shown_bodies.
  - now apply sanitize_lines_twice.
Qed.

Lemma strip_internal_id (s : jsstring) :
  no_match match_prompt true s
  && no_match match_load_eval true s
  && no_match match_load_startup true s
  && no_match match_cmdperiod true s = true ->
  strip_internal s = s.
Proof.
  intros H.
  apply andb_true_iff in H as [H H4]. apply andb_true_iff in H as [H H3].
  apply andb_true_iff in H as [H1 H2].
  unfold strip_internal, remove_at_line_starts.
  now rewrite (replace_bol_id _ _ _ H1), (replace_bol_id _ _ _ H2),
    (replace_bol_id _ _ _ H3), (replace_bol_id _ _ _ H4).
Qed.

(** C3, as the code has it.  For every input: the four removals only
    leave code units out, so what remains keeps its order; the two
    replacements that follow are the normalization of line endings,
    every CR LF and every lone CR becoming one LF, so that the result
    holds no carriage return and text without one is not touched by
    them; and text in which no internal pattern matches at a line start
    is changed in its line endings only.  On post-window output made of
    whole lines, with or without a prompt left open at the end, where a
    line may begin with the prompt and holds, behind it, nothing, a
    whole echo of a bridge directive, or text that begins like nothing
    internal, exactly the prompts and the echo lines are removed, a
    line that held only the prompt goes with them, and a second pass
    changes nothing.  Text without carriage return and without a match
    at a line start passes unchanged.  Sanitizing twice equals
    sanitizing once exactly when the first pass left no match of an
    internal pattern at a line start. *)
Theorem sanitize_properties (s : jsstring) (ls : list jsstring) (w : jsstring) :
  subsequence (strip_internal s) s
  /\ sanitize s = normalize_line_endings (strip_internal s)
  /\ ~ In 13 (sanitize s)
  /\ (~ In 13 (strip_internal s) -> sanitize s = strip_internal s)
  /\ (no_match match_prompt true s
      && no_match match_load_eval true s
      && no_match match_load_startup true s
      && no_match match_cmdperiod true s = true ->
      sanitize s = normalize_line_endings s)
  /\ (forallb post_line ls = true ->
      prompts_closed ls = true ->
      sanitize (unlines ls) = unlines (flat_map shown ls)
      /\ sanitize (sanitize (unlines ls)) = sanitize (unlines ls)
      /\ (forallb is_space w = true ->
          sanitize (unlines ls ++ lit "sc3>" ++ w) = unlines (flat_map shown ls)
          /\ sanitize (sanitize (unlines ls ++ lit "sc3>" ++ w))
             = sanitize (unlines ls ++ lit "sc3>" ++ w)))
  /\ (residue_free s = true -> sanitize s = s)
  /\ (sanitize (sanitize s) = sanitize s <-> residue_free (sanitize s) = true).
Proof.
  split; [apply strip_internal_subsequence|].
  split; [apply replace_cr_crlf|].
  split; [apply replace_cr_no_cr|].
  split; [apply sanitize_without_cr|].
  split.
  { intros H. unfold sanitize. rewrite (strip_internal_id s H).
    apply replace_cr_crlf. }
  split.
  { intros H Hclosed.
    destruct (sanitize_post_lines ls [] H Hclosed (or_introl eq_refl)) as [E1 E2].
    rewrite app_nil_r in E1, E2.
    split; [exact E1|]. split; [exact E2|].
    intros Hw. apply sanitize_post_lines; [assumption|assumption|].
    right. now exists w. }
  split; [apply sanitize_residue_free|].
  split; [apply sanitize_fixed|apply sanitize_residue_free].
Qed.

(* ================================================================== *)
(** * More concrete runs                                               *)
(* ================================================================== *)

(** C3 on concrete output: line endings of all three kinds, prompts in
    front of results and of echoes, a prompt alone on its line, a
    prompt in the middle of a line, which stays, and a prompt left open
    at the end. *)
Lemma sanitize_witness :
  sanitize two_lines = lit "hello" ++ [10] ++ lit "world" ++ [10] ++ lit "-> 2"
  /\ sanitize (sanitize two_lines) = sanitize two_lines
  /\ sanitize (unlines prompted_lines)
     = unlines [lit "-> 2"; lit "hello sc3> world"; []; lit "  indented"]
  /\ sanitize (sanitize (unlines prompted_lines)) = sanitize (unlines prompted_lines)
  /\ sanitize (unlines prompted_lines ++ lit "sc3> ")
     = unlines [lit "-> 2"; lit "hello sc3> world"; []; lit "  indented"]
  /\ sanitize (unlines echoed_lines) = unlines [lit "a"; lit "-> 2"]
  /\ sanitize (lit "a" ++ [13; 10] ++ lit "b" ++ [13; 13] ++ lit "c")
     = lit "a" ++ [10] ++ lit "b" ++ [10; 10] ++ lit "c".
Proof.
  destruct (sanitize_properties two_lines prompted_lines [32])
    as (_ & _ & _ & _ & _ & Hlines & _ & Hidem).
  destruct (Hlines eq_refl eq_refl) as (H1 & H2 & Hopen).
  destruct (Hopen eq_refl) as [H5 _].
  destruct (sanitize_properties two_lines echoed_lines [])
    as (_ & _ & _ & _ & _ & Hechoes & _).
  destruct (Hechoes eq_refl eq_refl) as [H3 _].
  destruct (sanitize_properties
              (lit "a" ++ [13; 10] ++ lit "b" ++ [13; 13] ++ lit "c") [] [])
    as (_ & H4 & _).
  split; [reflexivity|].
  split; [apply Hidem; reflexivity|].
  split; [exact H1|].
  split; [exact H2|].
  split; [exact H5|].
  split; [exact H3|].
  exact H4.
Defined.


Lemma eval_without_string_code_witness :
  on_message tmp 1%nat
    (Some (JObject [(lit "type", JString (lit "eval")); (lit "code", JNumber)]))
    1700000000000 Written (vars booted)
    = (Normal tt, set_evalCounter 1 (vars booted),
       [ConsoleError (lit "[bridge] Bad message:") TypeError]).
Proof.
  apply (eval_without_string_code tmp 1%nat
           [(lit "type", JString (lit "eval")); (lit "code", JNumber)]
           1700000000000 Written (vars booted)); reflexivity.
Defined.

Lemma other_messages_ignored_witness :
  on_message tmp 1%nat
    (Some (JObject [(lit "type", JString (lit "ping"))])) 0 Written (vars booted)
    = (Normal tt, vars booted, []).
Proof.
  apply (other_messages_ignored tmp 1%nat 0 Written (vars booted)
           (JObject [(lit "type", JString (lit "ping"))])).
  - discriminate.
  - intros props H. injection H as <-. split; reflexivity.
Defined.

(** The three events that terminate the bridge, and a request whose
    staging write throws, which does not. *)
Lemma terminating_events_witness :
  halted (fst (step tmp (final tmp [Exit None None] loaded)
                 (Output Stdout (lit "compile done" ++ [10])))) = true
  /\ halted (fst (step tmp booted (ErrorEvent OfChildStdin))) = true
  /\ halted (fst (step tmp (final tmp [Exit None None] booted)
                    (Timeout StartSclang SpawnThrows))) = true
  /\ halted (fst (step tmp booted
                    (Message 1%nat (eval_message (lit "1 + 1;")) 0 WriteThrows)))
     = false.
Proof.
  split; [|split; [|split]].
  - rewrite (terminating_events tmp (final tmp [Exit None None] loaded)
               (Output Stdout (lit "compile done" ++ [10]))); reflexivity.
  - rewrite (terminating_events tmp booted (ErrorEvent OfChildStdin));
      reflexivity.
  - rewrite (terminating_events tmp (final tmp [Exit None None] booted)
               (Timeout StartSclang SpawnThrows)); reflexivity.
  - rewrite (terminating_events tmp booted
               (Message 1%nat (eval_message (lit "1 + 1;")) 0 WriteThrows));
      reflexivity.
Defined.

Lemma staged_contents_witness :
  wrap_block (lit "1 + 1;" ++ [32; 10]) = wrap_block (lit "1 + 1;").
Proof.
  apply (staged_contents_modulo_trailing_space (lit "1 + 1;") [] [32; 10]).
  reflexivity.
Defined.

Lemma prompt_chunk_witness :
  sanitize (lit "sc3>" ++ [32; 10]) = []
  /\ posts (snd (handleOutput Stdout (lit "sc3>" ++ [32; 10]) (vars booted))) = [].
Proof.
  apply (prompt_chunk_never_posted Stdout [32; 10] (vars booted)). reflexivity.
Defined.

Lemma sanitize_never_grows_witness :
  (length (sanitize two_lines) <= length two_lines)%nat
  /\ (In 104 two_lines \/ 104 = 10).
Proof.
  split.
  - apply (sanitize_never_grows two_lines).
  - apply (sanitize_never_grows two_lines). vm_compute. tauto.
Defined.

Lemma startup_directive_witness :
  stdin_writes
    (trace tmp
       (outputs Stdout [lit "compile done" ++ [10]; lit "compile done again"])
       loaded)
    = [(0%nat, load_directive STARTUP_SCD)].
Proof.
  apply (startup_directive_once tmp Stdout
           [lit "compile done" ++ [10]; lit "compile done again"]
           loaded 0%nat); reflexivity.
Defined.


Lemma no_dispatch_witness :
  sclangAlive (vars (final tmp early_requests loaded)) = false
  /\ files_written (trace tmp early_requests loaded) = []
  /\ unlinks_scheduled (trace tmp early_requests loaded) = []
  /\ Forall (fun w => snd w = load_directive STARTUP_SCD)
       (stdin_writes (trace tmp early_requests loaded)).
Proof.
  apply (no_dispatch_unless_alive tmp early_requests loaded); reflexivity.
Defined.

Lemma unlink_witness :
  files_written (trace tmp same_millisecond loaded)
    = unlinks_scheduled (trace tmp same_millisecond loaded).
Proof.
  apply (every_staged_file_gets_unlink tmp same_millisecond). reflexivity.
Defined.

Lemma closed_socket_witness :
  sent_to 1%nat (trace tmp crash_and_respawn (fst (step tmp two_clients (Close 1%nat))))
    = [].
Proof.
  apply (closed_socket_gets_nothing tmp two_clients 1%nat crash_and_respawn).
  reflexivity.
Defined.

Lemma fan_out_witness :
  sent_to 1%nat (trace tmp crash_and_respawn two_clients)
    = broadcasts (trace tmp crash_and_respawn two_clients)
  /\ sent_to 2%nat (trace tmp crash_and_respawn two_clients)
     = sent_to 1%nat (trace tmp crash_and_respawn two_clients).
Proof.
  destruct (open_socket_gets_every_broadcast tmp 1%nat 2%nat
              crash_and_respawn two_clients) as [H1 H2].
  - reflexivity.
  - vm_compute. tauto.
  - split; [exact H1|]. apply H2; [reflexivity|vm_compute; tauto].
Defined.

Lemma closing_socket_witness :
  sent_to 1%nat (snd (step tmp closing_client (Output Stdout (lit "-> 2" ++ [10]))))
    = [].
Proof.
  apply (closing_socket_is_skipped tmp 1%nat closing_client
           (Output Stdout (lit "-> 2" ++ [10]))).
  - intros rs H. vm_compute in H. destruct H as [H|[]].
    injection H as <-. discriminate.
  - reflexivity.
Defined.

Lemma client_status_witness :
  last_status
    (sent_to 2%nat
       (trace tmp (first_cycle ++ Connection 2%nat (lit "10.0.0.8")
                     :: crash_and_respawn) loaded))
    = Some false.
Proof.
  apply (client_status_is_current tmp first_cycle crash_and_respawn 2%nat
           (lit "10.0.0.8")); reflexivity.
Defined.

Lemma connect_close_witness :
  clients (vars (final tmp [Connection 1%nat (lit "10.0.0.7")] loaded))
    = [(1%nat, OPEN)]
  /\ clients (vars (final tmp [Connection 1%nat (lit "10.0.0.7"); Close 1%nat]
                     loaded)) = [].
Proof.
  apply (connect_then_close_restores_clients tmp loaded 1%nat (lit "10.0.0.7")).
  - reflexivity.
  - vm_compute. tauto.
Defined.

Lemma help_root_witness :
  fileRead (help_handler (lit "/") any_file (lit "/help"))
    = Some (HELP_DIR ++ lit "/Help.html").
Proof.
  apply (help_root_entry_point (lit "/") any_file (lit "/help")).
  left. reflexivity.
Defined.

Lemma found_region_witness :
  let r := Editor.findBlockToEval small_document 12 in
  (Editor.from r <= Editor.to r)%nat
  /\ (Editor.to r <= length small_document)%nat.
Proof.
  apply (found_region_within_text small_document 12).
  - vm_compute. lia.
  - left. lia.
Defined.

(** The block around the cursor, and the line outside every block. *)
Example found_block_example :
  Editor.findBlockToEval small_document 12
    = {| Editor.code := lit "a (b) c"; Editor.from := 7; Editor.to := 18 |}
  /\ Editor.findBlockToEval small_document 19
     = {| Editor.code := lit "y"; Editor.from := 19; Editor.to := 20 |}.
Proof. split; reflexivity. Qed.

Lemma posts_follow_chunks_witness :
  posts
    (trace tmp
       (outputs Stdout [lit "sc3> -> 2" ++ [10]; lit "sc3> "; lit "hello" ++ [13; 10]])
       booted)
    = [lit "-> 2" ++ [10]; lit "hello" ++ [10]].
Proof.
  apply (posts_follow_chunks tmp Stdout
           [lit "sc3> -> 2" ++ [10]; lit "sc3> "; lit "hello" ++ [13; 10]]
           booted 0%nat); reflexivity.
Defined.
